(** * DSA1 savegame codec

    A shallow embedding of [savegame_reader.py]: the hero record codec
    ([Hero.from_bytes], [Hero.to_bytes]) and the container codec
    ([SaveGame.from_file], [SaveGame.save_to_file]).

    Python [bytes] and [bytearray] values are lists of [byte]; Python [int]s
    are [Z]; a Python [str] is the list of its code points.  Exceptions are
    the [Raise] branch of [result]; the file read by [from_file] is its
    contents, the file written by [save_to_file] is the value returned. *)

From Stdlib Require Import ZArith List Lia Bool.
From Stdlib Require Import Strings.Byte.
Import ListNotations.
Local Open Scope Z_scope.

(** ** Exceptions and the error monad *)

Inductive exn : Type :=
| ValueError_HeroDataTooSmall (len : nat)
    (* raise ValueError(f"Hero data too small ({len(data)} bytes), ...") *)
| ValueError_ByteRange
    (* bytearray item assignment: byte must be in range(0, 256) *)
| IndexError
    (* bytearray index out of range *)
| StructError
    (* struct.error *)
| UnicodeEncodeError.
    (* str.encode('latin-1') on a code point above 255 *)

Inductive result (A : Type) : Type :=
| Ok (a : A)
| Raise (e : exn).
Arguments Ok {A} a.
Arguments Raise {A} e.

Definition bind {A B : Type} (m : result A) (k : A -> result B) : result B :=
  match m with
  | Ok a => k a
  | Raise e => Raise e
  end.

Notation "x <- m ;; k" := (bind m (fun x => k))
  (at level 61, m at next level, right associativity).

Definition is_ok {A : Type} (m : result A) : bool :=
  match m with Ok _ => true | Raise _ => false end.

(** A [for] loop over [xs] threading the loop state, stopping at the first
    exception. *)
Fixpoint for_in {A S : Type} (xs : list A) (body : A -> S -> result S) (s : S)
  : result S :=
  match xs with
  | [] => Ok s
  | x :: xs' => s' <- body x s ;; for_in xs' body s'
  end.

(** [range(n)]: empty when [n] is not positive. *)
Definition py_range (n : Z) : list Z := map Z.of_nat (seq 0 (Z.to_nat n)).

(** ** Constants from the original C++ code *)

Definition CHR_SIZE : nat := 1754.
Definition HEADER_SIZE : nat := 16.
Definition META_SIZE : nat := 10.
Definition REST_SIZE : Z := 5734.

(** ** Bytes, slices and bytearray assignment *)

Definition bytes : Type := list byte.

Definition Z_of_byte (b : byte) : Z := Z.of_N (Byte.to_N b).

Definition byte_of_Z (v : Z) : option byte :=
  if v <? 0 then None else Byte.of_N (Z.to_N v).

(** [bytearray(n)]: [n] null bytes. *)
Definition bytearray (n : nat) : bytes := repeat x00 n.

(** [data[i]] for a constant index; every use sits behind a length guard
    that puts [i] in range. *)
Definition getitem (data : bytes) (i : nat) : Z := Z_of_byte (nth i data x00).

(** How Python resolves one bound of a slice against a sequence of length
    [n]: a negative bound counts from the end, and the result is clipped to
    [0..n]. *)
Definition slice_index (n : nat) (i : Z) : nat :=
  if i <? 0 then Z.to_nat (Z.max 0 (i + Z.of_nat n))
  else Nat.min (Z.to_nat i) n.

(** [data[lo:hi]] *)
Definition getslice (data : bytes) (lo hi : Z) : bytes :=
  let a := slice_index (length data) lo in
  let b := slice_index (length data) hi in
  firstn (b - a) (skipn a data).

(** [data[lo:]] *)
Definition getslice_from (data : bytes) (lo : Z) : bytes :=
  skipn (slice_index (length data) lo) data.

(** [data[lo:hi] = v] on a bytearray: the slice is replaced by [v], whatever
    the length of [v] is, so the bytearray grows or shrinks. *)
Definition setslice (data : bytes) (lo hi : Z) (v : bytes) : bytes :=
  let a := slice_index (length data) lo in
  let b := Nat.max a (slice_index (length data) hi) in
  firstn a data ++ v ++ skipn b data.

(** A statement that updates the bytearray [data] of [to_bytes]. *)
Definition stmt : Type := bytes -> result bytes.

Fixpoint run (ss : list stmt) (data : bytes) : result bytes :=
  match ss with
  | [] => Ok data
  | s :: ss' => data' <- s data ;; run ss' data'
  end.

(** [data[i] = v] *)
Definition setitem (i : nat) (v : Z) : stmt := fun data =>
  match byte_of_Z v with
  | None => Raise ValueError_ByteRange
  | Some b =>
      if (i <? length data)%nat
      then Ok (firstn i data ++ b :: skipn (S i) data)
      else Raise IndexError
  end.

(** [data[lo:hi] = rhs], where evaluating [rhs] may raise. *)
Definition setslice_stmt (lo hi : Z) (rhs : result bytes) : stmt := fun data =>
  v <- rhs ;; Ok (setslice data lo hi v).

(** ** [struct]: little-endian fixed-width integers *)

Inductive fmt : Type :=
| Fmt_h   (* '<h': signed 16-bit *)
| Fmt_i.  (* '<i': signed 32-bit *)

Definition calcsize (f : fmt) : nat :=
  match f with Fmt_h => 2%nat | Fmt_i => 4%nat end.

Definition modulus (f : fmt) : Z := 2 ^ (8 * Z.of_nat (calcsize f)).

Fixpoint le_decode (bs : bytes) : Z :=
  match bs with
  | [] => 0
  | b :: bs' => Z_of_byte b + 256 * le_decode bs'
  end.

Definition low_byte (v : Z) : byte :=
  match Byte.of_N (Z.to_N (v mod 256)) with
  | Some b => b
  | None => x00
  end.

Fixpoint le_encode (n : nat) (v : Z) : bytes :=
  match n with
  | O => []
  | S n' => low_byte v :: le_encode n' (v / 256)
  end.

(** Two's complement reading of the unsigned value of the field. *)
Definition unpack (f : fmt) (bs : bytes) : Z :=
  let u := le_decode bs in
  if u <? modulus f / 2 then u else u - modulus f.

(** [struct.unpack_from(f, data, off)[0]] *)
Definition unpack_from (f : fmt) (data : bytes) (off : nat) : result Z :=
  if (off + calcsize f <=? length data)%nat
  then Ok (unpack f (firstn (calcsize f) (skipn off data)))
  else Raise StructError.

(** [struct.pack(f, v)] *)
Definition pack (f : fmt) (v : Z) : result bytes :=
  if (- (modulus f / 2) <=? v) && (v <? modulus f / 2)
  then Ok (le_encode (calcsize f) (v mod modulus f))
  else Raise StructError.

(** [struct.pack_into(f, data, off, v)] *)
Definition pack_into (f : fmt) (off : nat) (v : Z) : stmt := fun data =>
  if (off + calcsize f <=? length data)%nat
  then bs <- pack f v ;;
       Ok (firstn off data ++ bs ++ skipn (off + calcsize f) data)
  else Raise StructError.

(** ** Strings in the single-byte charset *)

Definition pystr : Type := list N.

(** [bs.decode('latin-1')] *)
Definition decode_latin1 (bs : bytes) : pystr := map Byte.to_N bs.

(** [s.encode('latin-1')] *)
Fixpoint encode_latin1 (s : pystr) : result bytes :=
  match s with
  | [] => Ok []
  | c :: s' =>
      match Byte.of_N c with
      | Some b => bs <- encode_latin1 s' ;; Ok (b :: bs)
      | None => Raise UnicodeEncodeError
      end
  end.

(** [bs.split(b'\x00')[0]]: the bytes before the first null byte. *)
Fixpoint split_nul_head (bs : bytes) : bytes :=
  match bs with
  | [] => []
  | b :: bs' => if Byte.eqb b x00 then [] else b :: split_nul_head bs'
  end.

(** [bs.ljust(n, b'\x00')] *)
Definition ljust (n : nat) (bs : bytes) : bytes :=
  bs ++ repeat x00 (n - length bs).

(** ** Records of the data model *)

Record CharacterTrait : Type := {
  normal : Z;
  current : Z;
  modifier : Z
}.

Record AttackValues : Type := {
  att1 : Z; att2 : Z; att3 : Z; att4 : Z; att5 : Z; att6 : Z; att7 : Z
}.

Record ParadeValues : Type := {
  par1 : Z; par2 : Z; par3 : Z; par4 : Z; par5 : Z; par6 : Z; par7 : Z
}.

(** [AttackValues( *l )] and [ParadeValues( *l )] for the seven-element list
    that [unpack_att_par] returns. *)
Definition AttackValues_of (l : list Z) : AttackValues :=
  {| att1 := nth 0 l 0; att2 := nth 1 l 0; att3 := nth 2 l 0; att4 := nth 3 l 0;
     att5 := nth 4 l 0; att6 := nth 5 l 0; att7 := nth 6 l 0 |}.

Definition ParadeValues_of (l : list Z) : ParadeValues :=
  {| par1 := nth 0 l 0; par2 := nth 1 l 0; par3 := nth 2 l 0; par4 := nth 3 l 0;
     par5 := nth 4 l 0; par6 := nth 5 l 0; par7 := nth 6 l 0 |}.

Module Hero.

Record t : Type := {
  name : pystr;
  name2 : pystr;
  slots_used : Z;
  typus : Z;
  gender : Z;
  size : Z;
  weight : Z;
  god : Z;
  level : Z;
  exp : Z;
  money : Z;
  rs_bonus1 : Z;
  rs_bonus2 : Z;
  rs_handycap : Z;
  remaining_bp : Z;
  courage : CharacterTrait;
  intelligence : CharacterTrait;
  charisma : CharacterTrait;
  dexterity : CharacterTrait;
  agility : CharacterTrait;
  intuition : CharacterTrait;
  strength : CharacterTrait;
  superstition : CharacterTrait;
  vertigo : CharacterTrait;
  claustrophobia : CharacterTrait;
  greed : CharacterTrait;
  necrophobia : CharacterTrait;
  curiosity : CharacterTrait;
  temper : CharacterTrait;
  vital_energy_current : Z;
  vital_energy_max : Z;
  astral_energy_current : Z;
  astral_energy_max : Z;
  magic_resistance : Z;
  basis_attack_parade : Z;
  att_vals : AttackValues;
  par_vals : ParadeValues;
  att_bon_weapon : Z;
  par_bon_weapon : Z;
  weapon_type : Z;
  curr_attack_modifier : Z;
  perm_vit_energ_loss : Z;
  unknown1 : Z;
  unknown2 : Z;
  unknown3 : Z;
  unknown4 : Z;
  hunger : Z;
  thirst : Z;
  unknown5 : Z;
  view_direction : Z;
  num_left_actions_per_fight_round : Z;
  unknown6 : Z;
  unknown7 : Z;
  fight_id_last_enemy : Z;
  idx_heroes_group : Z;
  unknown8 : Z;
  unknown9 : Z;
  pos_in_heroes_group : Z;
  portrait : bytes;
  unknown_tail : bytes
}.

(** [unpack_trait], the helper local to [from_bytes]. *)
Definition unpack_trait (data : bytes) (offset : nat) : CharacterTrait :=
  {| normal := getitem data offset;
     current := getitem data (offset + 1);
     modifier := getitem data (offset + 2) |}.

(** [unpack_att_par], the helper local to [from_bytes], with [count=7]. *)
Definition unpack_att_par (data : bytes) (offset : nat) : list Z :=
  map (fun i => getitem data (offset + i)) (seq 0 7).

(** [Hero.from_bytes] *)
Definition from_bytes (data : bytes) : result t :=
  if (length data <? CHR_SIZE)%nat
  then Raise (ValueError_HeroDataTooSmall (length data))
  else
    let name_ := decode_latin1 (split_nul_head (getslice data 0 16)) in
    let name2_ := decode_latin1 (split_nul_head (getslice data 16 32)) in
    let portrait_ := getslice data 139 (139 + 1024) in
    let unknown_tail_ := getslice_from data (139 + 1024) in
    size_ <- unpack_from Fmt_h data 35 ;;
    exp_ <- unpack_from Fmt_i data 40 ;;
    money_ <- unpack_from Fmt_i data 44 ;;
    vital_energy_current_ <- unpack_from Fmt_h data 94 ;;
    vital_energy_max_ <- unpack_from Fmt_h data 96 ;;
    astral_energy_current_ <- unpack_from Fmt_h data 98 ;;
    astral_energy_max_ <- unpack_from Fmt_h data 100 ;;
    Ok {| name := name_;
          name2 := name2_;
          slots_used := getitem data 32;
          typus := getitem data 33;
          gender := getitem data 34;
          size := size_;
          weight := getitem data 37;
          god := getitem data 38;
          level := getitem data 39;
          exp := exp_;
          money := money_;
          rs_bonus1 := getitem data 48;
          rs_bonus2 := getitem data 49;
          rs_handycap := getitem data 50;
          remaining_bp := getitem data 51;
          courage := unpack_trait data 52;
          intelligence := unpack_trait data 55;
          charisma := unpack_trait data 58;
          dexterity := unpack_trait data 61;
          agility := unpack_trait data 64;
          intuition := unpack_trait data 67;
          strength := unpack_trait data 70;
          superstition := unpack_trait data 73;
          vertigo := unpack_trait data 76;
          claustrophobia := unpack_trait data 79;
          greed := unpack_trait data 82;
          necrophobia := unpack_trait data 85;
          curiosity := unpack_trait data 88;
          temper := unpack_trait data 91;
          vital_energy_current := vital_energy_current_;
          vital_energy_max := vital_energy_max_;
          astral_energy_current := astral_energy_current_;
          astral_energy_max := astral_energy_max_;
          magic_resistance := getitem data 102;
          basis_attack_parade := getitem data 103;
          att_vals := AttackValues_of (unpack_att_par data 104);
          par_vals := ParadeValues_of (unpack_att_par data 111);
          att_bon_weapon := getitem data 118;
          par_bon_weapon := getitem data 119;
          weapon_type := getitem data 120;
          curr_attack_modifier := getitem data 121;
          perm_vit_energ_loss := getitem data 122;
          unknown1 := getitem data 123;
          unknown2 := getitem data 124;
          unknown3 := getitem data 125;
          unknown4 := getitem data 126;
          hunger := getitem data 127;
          thirst := getitem data 128;
          unknown5 := getitem data 129;
          view_direction := getitem data 130;
          num_left_actions_per_fight_round := getitem data 131;
          unknown6 := getitem data 132;
          unknown7 := getitem data 133;
          fight_id_last_enemy := getitem data 134;
          idx_heroes_group := getitem data 135;
          unknown8 := getitem data 136;
          unknown9 := getitem data 137;
          pos_in_heroes_group := getitem data 138;
          portrait := portrait_;
          unknown_tail := unknown_tail_ |}.

(** [pack_trait], the helper local to [to_bytes]. *)
Definition pack_trait (offset : nat) (trait : CharacterTrait) : stmt :=
  run [ setitem offset (normal trait);
        setitem (offset + 1) (current trait);
        setitem (offset + 2) (modifier trait) ].

(** The writes of [to_bytes] below the portrait, in source order. *)
Definition field_stmts (self : t) : list stmt :=
  [ (* Pack names (16 bytes each) *)
    setslice_stmt 0 16 (bs <- encode_latin1 (name self) ;; Ok (ljust 16 bs));
    setslice_stmt 16 32 (bs <- encode_latin1 (name2 self) ;; Ok (ljust 16 bs));
    (* Pack single byte fields *)
    setitem 32 (slots_used self);
    setitem 33 (typus self);
    setitem 34 (gender self);
    (* Pack size (short) *)
    pack_into Fmt_h 35 (size self);
    setitem 37 (weight self);
    setitem 38 (god self);
    setitem 39 (level self);
    pack_into Fmt_i 40 (exp self);
    pack_into Fmt_i 44 (money self);
    setitem 48 (rs_bonus1 self);
    setitem 49 (rs_bonus2 self);
    setitem 50 (rs_handycap self);
    setitem 51 (remaining_bp self);
    (* Pack traits *)
    pack_trait 52 (courage self);
    pack_trait 55 (intelligence self);
    pack_trait 58 (charisma self);
    pack_trait 61 (dexterity self);
    pack_trait 64 (agility self);
    pack_trait 67 (intuition self);
    pack_trait 70 (strength self);
    pack_trait 73 (superstition self);
    pack_trait 76 (vertigo self);
    pack_trait 79 (claustrophobia self);
    pack_trait 82 (greed self);
    pack_trait 85 (necrophobia self);
    pack_trait 88 (curiosity self);
    pack_trait 91 (temper self);
    (* Pack energy values *)
    pack_into Fmt_h 94 (vital_energy_current self);
    pack_into Fmt_h 96 (vital_energy_max self);
    pack_into Fmt_h 98 (astral_energy_current self);
    pack_into Fmt_h 100 (astral_energy_max self);
    setitem 102 (magic_resistance self);
    setitem 103 (basis_attack_parade self);
    (* Pack attack values *)
    setitem 104 (att1 (att_vals self));
    setitem 105 (att2 (att_vals self));
    setitem 106 (att3 (att_vals self));
    setitem 107 (att4 (att_vals self));
    setitem 108 (att5 (att_vals self));
    setitem 109 (att6 (att_vals self));
    setitem 110 (att7 (att_vals self));
    (* Pack parade values *)
    setitem 111 (par1 (par_vals self));
    setitem 112 (par2 (par_vals self));
    setitem 113 (par3 (par_vals self));
    setitem 114 (par4 (par_vals self));
    setitem 115 (par5 (par_vals self));
    setitem 116 (par6 (par_vals self));
    setitem 117 (par7 (par_vals self));
    (* Pack remaining fields *)
    setitem 118 (att_bon_weapon self);
    setitem 119 (par_bon_weapon self);
    setitem 120 (weapon_type self);
    setitem 121 (curr_attack_modifier self);
    setitem 122 (perm_vit_energ_loss self);
    setitem 123 (unknown1 self);
    setitem 124 (unknown2 self);
    setitem 125 (unknown3 self);
    setitem 126 (unknown4 self);
    setitem 127 (hunger self);
    setitem 128 (thirst self);
    setitem 129 (unknown5 self);
    setitem 130 (view_direction self);
    setitem 131 (num_left_actions_per_fight_round self);
    setitem 132 (unknown6 self);
    setitem 133 (unknown7 self);
    setitem 134 (fight_id_last_enemy self);
    setitem 135 (idx_heroes_group self);
    setitem 136 (unknown8 self);
    setitem 137 (unknown9 self);
    setitem 138 (pos_in_heroes_group self) ].

(** "Pack portrait": written only when it has exactly 1024 bytes, otherwise
    the region keeps the null bytes of the fresh bytearray. *)
Definition portrait_stmt (self : t) : stmt := fun data =>
  if (length (portrait self) =? 1024)%nat
  then Ok (setslice data 139 (139 + 1024) (portrait self))
  else Ok data.

(** "Preserve unknown tail" *)
Definition tail_stmt (self : t) : stmt := fun data =>
  let tail_start := 139 + 1024 in
  Ok (setslice data tail_start
        (tail_start + Z.of_nat (length (unknown_tail self)))
        (unknown_tail self)).

(** [Hero.to_bytes] *)
Definition to_bytes (self : t) : result bytes :=
  run (field_stmts self ++ [portrait_stmt self; tail_stmt self])
      (bytearray CHR_SIZE).

(** Assignment to the [exp] attribute, as the editor does. *)
Definition set_exp (self : t) (v : Z) : t :=
  {| name := name self; name2 := name2 self; slots_used := slots_used self;
     typus := typus self; gender := gender self; size := size self;
     weight := weight self; god := god self; level := level self;
     exp := v;
     money := money self; rs_bonus1 := rs_bonus1 self;
     rs_bonus2 := rs_bonus2 self; rs_handycap := rs_handycap self;
     remaining_bp := remaining_bp self; courage := courage self;
     intelligence := intelligence self; charisma := charisma self;
     dexterity := dexterity self; agility := agility self;
     intuition := intuition self; strength := strength self;
     superstition := superstition self; vertigo := vertigo self;
     claustrophobia := claustrophobia self; greed := greed self;
     necrophobia := necrophobia self; curiosity := curiosity self;
     temper := temper self;
     vital_energy_current := vital_energy_current self;
     vital_energy_max := vital_energy_max self;
     astral_energy_current := astral_energy_current self;
     astral_energy_max := astral_energy_max self;
     magic_resistance := magic_resistance self;
     basis_attack_parade := basis_attack_parade self;
     att_vals := att_vals self; par_vals := par_vals self;
     att_bon_weapon := att_bon_weapon self;
     par_bon_weapon := par_bon_weapon self; weapon_type := weapon_type self;
     curr_attack_modifier := curr_attack_modifier self;
     perm_vit_energ_loss := perm_vit_energ_loss self;
     unknown1 := unknown1 self; unknown2 := unknown2 self;
     unknown3 := unknown3 self; unknown4 := unknown4 self;
     hunger := hunger self; thirst := thirst self; unknown5 := unknown5 self;
     view_direction := view_direction self;
     num_left_actions_per_fight_round := num_left_actions_per_fight_round self;
     unknown6 := unknown6 self; unknown7 := unknown7 self;
     fight_id_last_enemy := fight_id_last_enemy self;
     idx_heroes_group := idx_heroes_group self;
     unknown8 := unknown8 self; unknown9 := unknown9 self;
     pos_in_heroes_group := pos_in_heroes_group self;
     portrait := portrait self; unknown_tail := unknown_tail self |}.

(** The hero with its seven editable attributes replaced: the attributes
    that [edit_hero] assigns. *)
Definition with_editable (self : t)
    (level_ exp_ money_ vital_energy_current_ vital_energy_max_
       astral_energy_current_ astral_energy_max_ : Z) : t :=
  {| name := name self; name2 := name2 self; slots_used := slots_used self;
     typus := typus self; gender := gender self; size := size self;
     weight := weight self; god := god self; level := level_; exp := exp_;
     money := money_; rs_bonus1 := rs_bonus1 self;
     rs_bonus2 := rs_bonus2 self; rs_handycap := rs_handycap self;
     remaining_bp := remaining_bp self; courage := courage self;
     intelligence := intelligence self; charisma := charisma self;
     dexterity := dexterity self; agility := agility self;
     intuition := intuition self; strength := strength self;
     superstition := superstition self; vertigo := vertigo self;
     claustrophobia := claustrophobia self; greed := greed self;
     necrophobia := necrophobia self; curiosity := curiosity self;
     temper := temper self; vital_energy_current := vital_energy_current_;
     vital_energy_max := vital_energy_max_;
     astral_energy_current := astral_energy_current_;
     astral_energy_max := astral_energy_max_;
     magic_resistance := magic_resistance self;
     basis_attack_parade := basis_attack_parade self;
     att_vals := att_vals self; par_vals := par_vals self;
     att_bon_weapon := att_bon_weapon self;
     par_bon_weapon := par_bon_weapon self; weapon_type := weapon_type self;
     curr_attack_modifier := curr_attack_modifier self;
     perm_vit_energ_loss := perm_vit_energ_loss self;
     unknown1 := unknown1 self; unknown2 := unknown2 self;
     unknown3 := unknown3 self; unknown4 := unknown4 self;
     hunger := hunger self; thirst := thirst self; unknown5 := unknown5 self;
     view_direction := view_direction self;
     num_left_actions_per_fight_round := num_left_actions_per_fight_round self;
     unknown6 := unknown6 self; unknown7 := unknown7 self;
     fight_id_last_enemy := fight_id_last_enemy self;
     idx_heroes_group := idx_heroes_group self; unknown8 := unknown8 self;
     unknown9 := unknown9 self;
     pos_in_heroes_group := pos_in_heroes_group self;
     portrait := portrait self; unknown_tail := unknown_tail self |}.

(** Assignment to one of the other attributes that the editor changes. *)
Definition set_money (self : t) (v : Z) : t :=
  with_editable self (level self) (exp self) v
    (vital_energy_current self) (vital_energy_max self)
    (astral_energy_current self) (astral_energy_max self).

Definition set_level (self : t) (v : Z) : t :=
  with_editable self v (exp self) (money self)
    (vital_energy_current self) (vital_energy_max self)
    (astral_energy_current self) (astral_energy_max self).

Definition set_vital_energy_current (self : t) (v : Z) : t :=
  with_editable self (level self) (exp self) (money self)
    v (vital_energy_max self)
    (astral_energy_current self) (astral_energy_max self).

Definition set_vital_energy_max (self : t) (v : Z) : t :=
  with_editable self (level self) (exp self) (money self)
    (vital_energy_current self) v
    (astral_energy_current self) (astral_energy_max self).

Definition set_astral_energy_current (self : t) (v : Z) : t :=
  with_editable self (level self) (exp self) (money self)
    (vital_energy_current self) (vital_energy_max self)
    v (astral_energy_max self).

Definition set_astral_energy_max (self : t) (v : Z) : t :=
  with_editable self (level self) (exp self) (money self)
    (vital_energy_current self) (vital_energy_max self)
    (astral_energy_current self) v.

End Hero.

(** ** The container *)

Module SaveGame.

Record t : Type := {
  version_header : bytes;
  chr_offset : Z;
  metadata : bytes;
  pre_hero_data : bytes;
  heroes : list Hero.t
}.

(** [SaveGame.from_file], as a function of the bytes [f.read()] returns. *)
Definition from_file (data : bytes) : result t :=
  let version_header_ := getslice data 0 16 in
  chr_offset_ <- unpack_from Fmt_i data 16 ;;
  (* Extract metadata (10 bytes starting at byte 20) *)
  let metadata_ := getslice data 20 30 in
  (* Everything between byte 20 and chr_offset is "pre-hero" data *)
  let pre_hero_data_ := getslice data 20 chr_offset_ in
  (* Read heroes *)
  let file_size := Z.of_nat (length data) in
  let num_heroes := (file_size - chr_offset_) / Z.of_nat CHR_SIZE in
  heroes_ <- for_in (py_range num_heroes)
               (fun i heroes_ =>
                  let start := chr_offset_ + i * Z.of_nat CHR_SIZE in
                  let end_ := start + Z.of_nat CHR_SIZE in
                  let hero_data := getslice data start end_ in
                  h <- Hero.from_bytes hero_data ;;
                  Ok (heroes_ ++ [h]))
               [] ;;
  Ok {| version_header := version_header_;
        chr_offset := chr_offset_;
        metadata := metadata_;
        pre_hero_data := pre_hero_data_;
        heroes := heroes_ |}.

(** [SaveGame.save_to_file]: the bytes written to the output file. *)
Definition save_to_file (self : t) : result bytes :=
  let file_data := [] in
  let file_data := file_data ++ version_header self in
  packed <- pack Fmt_i (chr_offset self) ;;
  let file_data := file_data ++ packed in
  let file_data := file_data ++ pre_hero_data self in
  for_in (heroes self)
    (fun hero file_data =>
       bs <- Hero.to_bytes hero ;; Ok (file_data ++ bs))
    file_data.

End SaveGame.

(** ** The interactive editor

    [input()] is modelled by the list of what the keyboard delivers: a line
    of text or an interrupt; when the list is exhausted, [input()] raises
    [EOFError].  Of the text that is printed only the hero names are
    modelled: [print] raises [UnicodeEncodeError] on a message that holds a
    name which standard output cannot encode, and [printable] says which
    names it can encode.  The other messages, menus, numbers and prompts,
    are ASCII text and are taken to be printed without error.  The built-in
    functions applied to the text read, [int], [str.lower] and
    [str.isdigit], are parameters. *)

Inductive keyboard : Type :=
| Line (s : pystr)   (* the user types a line *)
| CtrlC.             (* KeyboardInterrupt while input() waits *)

(** How a call of [edit_hero] ends. *)
Inductive edit_result : Type :=
| Edit_done (hero : Hero.t) (stdin : list keyboard)  (* break, then return *)
| Edit_exit                                          (* sys.exit(0) *)
| Edit_eof                                           (* EOFError, not caught *)
| Edit_error.                          (* UnicodeEncodeError from print,
                                          outside the try, not caught *)

(** How the hero selection loop of [main] ends. *)
Inductive select_result : Type :=
| Select_save (heroes : list Hero.t)  (* break *)
| Select_exit                         (* sys.exit(0) *)
| Select_error                        (* an exception reaches except Exception *)
| Select_fuel.                        (* the model ran out of fuel *)

(** How [main] ends, once the file has been read. *)
Inductive main_result : Type :=
| Main_saved (written : bytes)  (* the output file is written, main returns:
                                   the two messages that follow hold only the
                                   file name, which the message before
                                   loading has printed already *)
| Main_exit (code : Z)          (* sys.exit(code), no file is written *)
| Main_fuel.                    (* the model ran out of fuel *)

Definition pystr_eqb (s t : pystr) : bool :=
  if list_eq_dec N.eq_dec s t then true else false.

(** The string literals of the menus. *)
Definition str_0 : pystr := [48%N].
Definition str_1 : pystr := [49%N].
Definition str_2 : pystr := [50%N].
Definition str_3 : pystr := [51%N].
Definition str_4 : pystr := [52%N].
Definition str_5 : pystr := [53%N].
Definition str_6 : pystr := [54%N].
Definition str_exit : pystr := [101%N; 120%N; 105%N; 116%N].
Definition str_save : pystr := [115%N; 97%N; 118%N; 101%N].

(** [heroes[i] = hero]: the heroes of the SaveGame are shared with
    [active_heroes], so an edit through [active_heroes] is an update of the
    SaveGame's list at the hero's position. *)
Definition replace_hero (heroes : list Hero.t) (i : nat) (hero : Hero.t)
  : list Hero.t :=
  firstn i heroes ++ hero :: skipn (S i) heroes.

(** [[h for h in savegame.heroes if h.idx_heroes_group == num_active_group]],
    as the positions of these heroes in [savegame.heroes]. *)
Definition active_positions (num_active_group : Z) (heroes : list Hero.t)
  : list nat :=
  filter (fun i =>
            match nth_error heroes i with
            | Some h => Hero.idx_heroes_group h =? num_active_group
            | None => false
            end)
         (seq 0 (length heroes)).

Section Editor.

(** Whether standard output can encode a message that holds the name. *)
Variable printable : pystr -> bool.
(** [int(s)]: [None] stands for [ValueError]. *)
Variable py_int : pystr -> option Z.
(** [s.lower()] and [s.isdigit()] *)
Variable lower : pystr -> pystr.
Variable isdigit : pystr -> bool.

(** [edit_hero]: every round starts by printing the hero's name, before
    the [try]. *)
Fixpoint edit_hero (stdin : list keyboard) (hero : Hero.t) : edit_result :=
  if negb (printable (Hero.name hero)) then Edit_error else
  match stdin with
  | [] => Edit_eof
  | CtrlC :: _ => Edit_exit
  | Line choice :: stdin1 =>
      if pystr_eqb choice str_0 then Edit_exit
      else if pystr_eqb choice str_6 then Edit_done hero stdin1
      else if pystr_eqb choice str_1 then
        match stdin1 with
        | [] => Edit_eof
        | CtrlC :: _ => Edit_exit
        | Line s :: stdin2 =>
            match py_int s with
            | None => edit_hero stdin2 hero
            | Some v => edit_hero stdin2 (Hero.set_exp hero v)
            end
        end
      else if pystr_eqb choice str_2 then
        match stdin1 with
        | [] => Edit_eof
        | CtrlC :: _ => Edit_exit
        | Line s :: stdin2 =>
            match py_int s with
            | None => edit_hero stdin2 hero
            | Some v => edit_hero stdin2 (Hero.set_money hero v)
            end
        end
      else if pystr_eqb choice str_3 then
        match stdin1 with
        | [] => Edit_eof
        | CtrlC :: _ => Edit_exit
        | Line s :: stdin2 =>
            match py_int s with
            | None => edit_hero stdin2 hero
            | Some v => edit_hero stdin2 (Hero.set_level hero v)
            end
        end
      else if pystr_eqb choice str_4 then
        match stdin1 with
        | [] => Edit_eof
        | CtrlC :: _ => Edit_exit
        | Line s1 :: stdin2 =>
            match py_int s1 with
            | None => edit_hero stdin2 hero
            | Some v1 =>
                let hero1 := Hero.set_vital_energy_current hero v1 in
                match stdin2 with
                | [] => Edit_eof
                | CtrlC :: _ => Edit_exit
                | Line s2 :: stdin3 =>
                    match py_int s2 with
                    | None => edit_hero stdin3 hero1
                    | Some v2 =>
                        edit_hero stdin3 (Hero.set_vital_energy_max hero1 v2)
                    end
                end
            end
        end
      else if pystr_eqb choice str_5 then
        match stdin1 with
        | [] => Edit_eof
        | CtrlC :: _ => Edit_exit
        | Line s1 :: stdin2 =>
            match py_int s1 with
            | None => edit_hero stdin2 hero
            | Some v1 =>
                let hero1 := Hero.set_astral_energy_current hero v1 in
                match stdin2 with
                | [] => Edit_eof
                | CtrlC :: _ => Edit_exit
                | Line s2 :: stdin3 =>
                    match py_int s2 with
                    | None => edit_hero stdin3 hero1
                    | Some v2 =>
                        edit_hero stdin3 (Hero.set_astral_energy_max hero1 v2)
                    end
                end
            end
        end
      else edit_hero stdin1 hero
  end.

(** The hero selection loop of [main].  Every round reads at least one
    line, so [fuel] above the length of [stdin] is never used up. *)
Fixpoint select_loop (fuel : nat) (stdin : list keyboard)
    (heroes : list Hero.t) (active_heroes : list nat) : select_result :=
  match fuel with
  | O => Select_fuel
  | S fuel' =>
      match stdin with
      | [] => Select_error
      | CtrlC :: _ => Select_exit
      | Line s :: stdin1 =>
          let choice := lower s in
          if pystr_eqb choice str_exit then Select_exit
          else if pystr_eqb choice str_save then Select_save heroes
          else if isdigit choice then
            match py_int choice with
            | None => Select_error
            | Some v =>
                let idx := v - 1 in
                if (0 <=? idx) && (idx <? Z.of_nat (length active_heroes))
                then
                  let i := nth (Z.to_nat idx) active_heroes O in
                  match nth_error heroes i with
                  | None => Select_error
                  | Some hero =>
                      match edit_hero stdin1 hero with
                      | Edit_done hero' stdin2 =>
                          select_loop fuel' stdin2
                            (replace_hero heroes i hero') active_heroes
                      | Edit_exit => Select_exit
                      | Edit_eof => Select_error
                      | Edit_error => Select_error
                      end
                  end
                else select_loop fuel' stdin1 heroes active_heroes
            end
          else select_loop fuel' stdin1 heroes active_heroes
      end
  end.

(** "List heroes": one message per hero of the active group, with its
    name; [false] when one of them raises. *)
Definition list_heroes (heroes : list Hero.t) (active_heroes : list nat)
  : bool :=
  forallb (fun i => match nth_error heroes i with
                    | Some hero => printable (Hero.name hero)
                    | None => false
                    end)
          active_heroes.

(** [main], from the point where the input file is read: [data] is the
    content of the file named on the command line. *)
Definition main (data : bytes) (stdin : list keyboard) : main_result :=
  match SaveGame.from_file data with
  | Raise _ => Main_exit 1
  | Ok savegame =>
      (* Get active group from metadata *)
      match nth_error (SaveGame.metadata savegame) 1 with
      | None => Main_exit 1
      | Some b =>
          let num_active_group := Z_of_byte b in
          (* Find heroes in active group *)
          let active_heroes :=
            active_positions num_active_group (SaveGame.heroes savegame) in
          (* List heroes *)
          if negb (list_heroes (SaveGame.heroes savegame) active_heroes)
          then Main_exit 1 else
          (* Hero selection loop *)
          match select_loop (S (length stdin)) stdin
                  (SaveGame.heroes savegame) active_heroes with
          | Select_save heroes' =>
              (* Save changes *)
              match SaveGame.save_to_file
                      {| SaveGame.version_header :=
                           SaveGame.version_header savegame;
                         SaveGame.chr_offset := SaveGame.chr_offset savegame;
                         SaveGame.metadata := SaveGame.metadata savegame;
                         SaveGame.pre_hero_data :=
                           SaveGame.pre_hero_data savegame;
                         SaveGame.heroes := heroes' |} with
              | Ok written => Main_saved written
              | Raise _ => Main_exit 1
              end
          | Select_exit => Main_exit 0
          | Select_error => Main_exit 1
          | Select_fuel => Main_fuel
          end
      end
  end.

End Editor.

(** ** Notions used to state the properties *)

(** The null bytes of [bytearray(CHR_SIZE)] from offset [i] on. *)
Definition zeros_after (i : nat) : bytes := repeat x00 (CHR_SIZE - i).

(** Every byte after the first null byte is null. *)
Fixpoint nul_padded (bs : bytes) : bool :=
  match bs with
  | [] => true
  | b :: bs' =>
      if Byte.eqb b x00 then forallb (Byte.eqb x00) bs' else nul_padded bs'
  end.

(** A 16-byte name field as [to_bytes] writes it back. *)
Definition canonical_name (field : bytes) : bytes :=
  ljust 16 (split_nul_head field).

(** The record [B] with both name fields null-padded and bytes 40..43
    replaced by [pe]. *)
Definition reencoded (B : bytes) (pe : bytes) : bytes :=
  canonical_name (firstn 16 B)
  ++ canonical_name (firstn 16 (skipn 16 B))
  ++ firstn 8 (skipn 32 B) ++ pe ++ skipn 44 B.

(** The record [B] with both name fields null-padded. *)
Definition canonical (B : bytes) : bytes :=
  canonical_name (firstn 16 B)
  ++ canonical_name (firstn 16 (skipn 16 B))
  ++ skipn 32 B.

(** A write succeeds on the fresh bytearray. *)
Definition stmt_ok (s : stmt) : bool := is_ok (s (bytearray CHR_SIZE)).

(** What a write may do to a bytearray of at least [CHR_SIZE] bytes. *)
Definition respects (R : bytes -> bytes -> Prop) (s : stmt) : Prop :=
  forall d d', (CHR_SIZE <= length d)%nat -> s d = Ok d' -> R d d'.

(** The bytearray does not shrink. *)
Definition grows (d d' : bytes) : Prop := (length d <= length d')%nat.

(** The first [a] bytes are left alone and the bytearray does not shrink. *)
Definition same_prefix (a : nat) (d d' : bytes) : Prop :=
  firstn a d' = firstn a d /\ (length d <= length d')%nat.

(** The bytes from [b] on are left alone and the length is unchanged. *)
Definition same_suffix (b : nat) (d d' : bytes) : Prop :=
  skipn b d' = skipn b d /\ length d' = length d.

(** Whether a write succeeds does not depend on the bytearray it is applied
    to, as long as that has at least [CHR_SIZE] bytes. *)
Definition uniform (s : stmt) : Prop :=
  forall d, (CHR_SIZE <= length d)%nat -> is_ok (s d) = stmt_ok s.

(** The last two steps of [to_bytes] applied to the bytearray [d]. *)
Definition finish (self : Hero.t) (d : bytes) : bytes :=
  let d1 := if (length (Hero.portrait self) =? 1024)%nat
            then setslice d 139 (139 + 1024) (Hero.portrait self)
            else d in
  setslice d1 (139 + 1024)
    (139 + 1024 + Z.of_nat (length (Hero.unknown_tail self)))
    (Hero.unknown_tail self).

(** A hero whose numeric fields are all null. *)
Definition blank_hero (name_ name2_ : pystr) (portrait_ unknown_tail_ : bytes)
  : Hero.t :=
  let trait := {| normal := 0; current := 0; modifier := 0 |} in
  {| Hero.name := name_; Hero.name2 := name2_; Hero.slots_used := 0;
     Hero.typus := 0; Hero.gender := 0; Hero.size := 0; Hero.weight := 0;
     Hero.god := 0; Hero.level := 0; Hero.exp := 0; Hero.money := 0;
     Hero.rs_bonus1 := 0; Hero.rs_bonus2 := 0; Hero.rs_handycap := 0;
     Hero.remaining_bp := 0; Hero.courage := trait;
     Hero.intelligence := trait; Hero.charisma := trait;
     Hero.dexterity := trait; Hero.agility := trait; Hero.intuition := trait;
     Hero.strength := trait; Hero.superstition := trait;
     Hero.vertigo := trait; Hero.claustrophobia := trait;
     Hero.greed := trait; Hero.necrophobia := trait;
     Hero.curiosity := trait; Hero.temper := trait;
     Hero.vital_energy_current := 0; Hero.vital_energy_max := 0;
     Hero.astral_energy_current := 0; Hero.astral_energy_max := 0;
     Hero.magic_resistance := 0; Hero.basis_attack_parade := 0;
     Hero.att_vals := AttackValues_of [];
     Hero.par_vals := ParadeValues_of [];
     Hero.att_bon_weapon := 0; Hero.par_bon_weapon := 0;
     Hero.weapon_type := 0; Hero.curr_attack_modifier := 0;
     Hero.perm_vit_energ_loss := 0; Hero.unknown1 := 0; Hero.unknown2 := 0;
     Hero.unknown3 := 0; Hero.unknown4 := 0; Hero.hunger := 0;
     Hero.thirst := 0; Hero.unknown5 := 0; Hero.view_direction := 0;
     Hero.num_left_actions_per_fight_round := 0; Hero.unknown6 := 0;
     Hero.unknown7 := 0; Hero.fight_id_last_enemy := 0;
     Hero.idx_heroes_group := 0; Hero.unknown8 := 0; Hero.unknown9 := 0;
     Hero.pos_in_heroes_group := 0;
     Hero.portrait := portrait_; Hero.unknown_tail := unknown_tail_ |}.

(** A record named "AB", null elsewhere. *)
Definition sample_record : bytes := [x41; x42] ++ repeat x00 1752.

(** A record whose name field is "A", a null byte, then "B": the byte after
    the terminator is not a padding byte. *)
Definition unpadded_record : bytes := [x41; x00; x42] ++ repeat x00 1751.

(** The results of [f] on the elements of [xs], in order, up to the first
    exception. *)
Fixpoint traverse {A B : Type} (f : A -> result B) (xs : list A)
  : result (list B) :=
  match xs with
  | [] => Ok []
  | x :: xs' => y <- f x ;; ys <- traverse f xs' ;; Ok (y :: ys)
  end.

(** The window that [from_file] slices for hero number [i]. *)
Definition hero_window (data : bytes) (chr_offset : Z) (i : Z) : bytes :=
  getslice data (chr_offset + i * Z.of_nat CHR_SIZE)
    (chr_offset + i * Z.of_nat CHR_SIZE + Z.of_nat CHR_SIZE).

(** The [CHR_SIZE] bytes of [data] at offset [o + k * CHR_SIZE]. *)
Definition record_at (data : bytes) (o k : nat) : bytes :=
  firstn CHR_SIZE (skipn (o + k * CHR_SIZE) data).

(** A save file: a null version header, [chr_offset = 20], no pre-hero
    data, the record [sample_record], and two trailing bytes. *)
Definition sample_file : bytes :=
  repeat x00 16 ++ [x14; x00; x00; x00] ++ sample_record ++ [xab; xcd].

(** Both name fields of a record are null after their first null byte. *)
Definition names_padded (record : bytes) : bool :=
  nul_padded (firstn 16 record) && nul_padded (firstn 16 (skipn 16 record)).

(** The record [B] with both name fields null-padded, bytes 39..47
    replaced by [X] and bytes 94..101 replaced by [Y]. *)
Definition patched (B X Y : bytes) : bytes :=
  canonical_name (firstn 16 B)
  ++ canonical_name (firstn 16 (skipn 16 B))
  ++ firstn 7 (skipn 32 B) ++ X ++ firstn 46 (skipn 48 B) ++ Y
  ++ skipn 102 B.

(** The value fits an unsigned byte. *)
Definition fits_u8 (v : Z) : bool := (0 <=? v) && (v <? 256).

(** The value fits the signed integer format [f]. *)
Definition fits (f : fmt) (v : Z) : bool :=
  (- (modulus f / 2) <=? v) && (v <? modulus f / 2).

(** The offsets, within a record, of the attributes that the editor
    changes: [level] at 39, [exp] and [money] at 40..47, the four energy
    values at 94..101. *)
Definition editable_offset (j : nat) : bool :=
  ((39 <=? j) && (j <? 48))%nat || ((94 <=? j) && (j <? 102))%nat.

(** [h'] is [h] up to the seven attributes that the editor assigns. *)
Definition same_fixed (h h' : Hero.t) : Prop :=
  exists lv e m vc vm ac am, h' = Hero.with_editable h lv e m vc vm ac am.

(** [h'] is [h] up to the editable attributes, and is [h] itself when [h]
    is not in group [g]. *)
Definition edited_in_group (g : Z) (h h' : Hero.t) : Prop :=
  same_fixed h h' /\ (Hero.idx_heroes_group h <> g -> h' = h).

(** Stand-ins for the built-in functions on ASCII text, for running the
    editor on examples: decimal digits with an optional minus sign, and the
    letters A to Z. *)
Definition ascii_isdigit (s : pystr) : bool :=
  negb (Nat.eqb (length s) 0) && forallb (fun c => (48 <=? c) && (c <=? 57))%N s.

Definition ascii_digits_value (s : pystr) : Z :=
  fold_left (fun acc c => 10 * acc + (Z.of_N c - 48)) s 0.

Definition ascii_int (s : pystr) : option Z :=
  match s with
  | 45%N :: s' =>
      if ascii_isdigit s' then Some (- ascii_digits_value s') else None
  | _ => if ascii_isdigit s then Some (ascii_digits_value s) else None
  end.

Definition ascii_lower (s : pystr) : pystr :=
  map (fun c => if (65 <=? c) && (c <=? 90) then c + 32 else c)%N s.

(** A standard output that encodes ASCII only. *)
Definition ascii_printable (s : pystr) : bool :=
  forallb (fun c => c <? 128)%N s.

(** The name that [from_bytes] reads from a record. *)
Definition record_name (record : bytes) : pystr :=
  decode_latin1 (split_nul_head (getslice record 0 16)).

(** A record whose first name byte is [nm] and whose [idx_heroes_group]
    byte, at offset 135, is [g]; null elsewhere. *)
Definition group_record (nm g : byte) : bytes :=
  [nm] ++ repeat x00 134 ++ [g] ++ repeat x00 1618.

(** A save file with [chr_offset = 30], active group 2 in [metadata[1]],
    a hero in group 2 and a hero in group 1. *)
Definition party_file : bytes :=
  repeat x00 16 ++ [x1e; x00; x00; x00] ++ [x00; x02] ++ repeat x00 8
  ++ group_record x41 x02 ++ group_record x42 x01.

(** Typed at the keyboard: hero 1, experience 500, level 9, done, save. *)
Definition party_session : list keyboard :=
  [ Line str_1; Line str_1; Line [53; 48; 48]%N; Line str_3; Line [57%N];
    Line str_6; Line str_save ].

(** * Properties *)

(** ** The Python primitives on small inputs *)

Example unpack_minus_one : unpack Fmt_h [xff; xff] = -1.
Proof. reflexivity. Qed.

Example pack_minus_two : pack Fmt_i (-2) = Ok [xfe; xff; xff; xff].
Proof. reflexivity. Qed.

Example pack_out_of_range : pack Fmt_h 32768 = Raise StructError.
Proof. reflexivity. Qed.

Example getslice_negative_bound :
  getslice [x01; x02; x03; x04; x05] (-2) 10 = [x04; x05].
Proof. reflexivity. Qed.

Example getslice_crossed_bounds :
  getslice [x01; x02; x03; x04; x05] 3 1 = [].
Proof. reflexivity. Qed.

Example setslice_longer_value :
  setslice (bytearray 4) 0 2 [x01; x02; x03] = [x01; x02; x03; x00; x00].
Proof. reflexivity. Qed.

Example setitem_out_of_range :
  setitem 0 256 (bytearray 1) = Raise ValueError_ByteRange.
Proof. reflexivity. Qed.

Example range_of_negative_count : py_range ((20 - 100) / 1754) = [].
Proof. reflexivity. Qed.

Example name_up_to_first_nul :
  decode_latin1 (split_nul_head [x41; x00; x42]) = [65%N].
Proof. reflexivity. Qed.

Example encode_beyond_latin1 :
  encode_latin1 [65%N; 8364%N] = Raise UnicodeEncodeError.
Proof. reflexivity. Qed.

(** ** Bytes and integers *)

Lemma Z_of_byte_range (b : byte) : 0 <= Z_of_byte b < 256.
Proof.
  unfold Z_of_byte. pose proof (Byte.to_N_bounded b). lia.
Qed.

Lemma byte_of_Z_of_byte (b : byte) : byte_of_Z (Z_of_byte b) = Some b.
Proof.
  unfold byte_of_Z. pose proof (Z_of_byte_range b) as Hr.
  destruct (Z.ltb_spec (Z_of_byte b) 0) as [Hlt | _]; [lia |].
  unfold Z_of_byte. rewrite N2Z.id. apply Byte.of_to_N.
Qed.

Lemma low_byte_cons (b : byte) (r : Z) : low_byte (Z_of_byte b + 256 * r) = b.
Proof.
  unfold low_byte. pose proof (Z_of_byte_range b) as Hr.
  replace ((Z_of_byte b + 256 * r) mod 256) with (Z_of_byte b).
  - unfold Z_of_byte. rewrite N2Z.id, Byte.of_to_N. reflexivity.
  - rewrite (Z.mul_comm 256 r), Z.mod_add by lia.
    symmetry. apply Z.mod_small. exact Hr.
Qed.

Lemma le_decode_range (bs : bytes) :
  0 <= le_decode bs < 256 ^ Z.of_nat (length bs).
Proof.
  induction bs as [| b bs IH].
  - simpl. lia.
  - cbn [le_decode length]. rewrite Nat2Z.inj_succ, Z.pow_succ_r by lia.
    pose proof (Z_of_byte_range b). lia.
Qed.

Lemma le_encode_decode (bs : bytes) : le_encode (length bs) (le_decode bs) = bs.
Proof.
  induction bs as [| b bs IH]; [reflexivity |].
  cbn [le_decode length le_encode]. rewrite low_byte_cons. f_equal.
  replace ((Z_of_byte b + 256 * le_decode bs) / 256) with (le_decode bs);
    [exact IH |].
  pose proof (Z_of_byte_range b).
  rewrite (Z.mul_comm 256 (le_decode bs)), Z.div_add by lia.
  rewrite (Z.div_small (Z_of_byte b)) by lia. lia.
Qed.

Lemma le_encode_length (n : nat) (v : Z) : length (le_encode n v) = n.
Proof.
  revert v. induction n as [| n IH]; intros v; [reflexivity |].
  cbn [le_encode length]. now rewrite IH.
Qed.

Lemma modulus_pow (f : fmt) : modulus f = 256 ^ Z.of_nat (calcsize f).
Proof. destruct f; reflexivity. Qed.

Lemma modulus_even (f : fmt) : modulus f = 2 * (modulus f / 2) /\ 0 < modulus f.
Proof. destruct f; split; reflexivity. Qed.

Lemma unpack_range (f : fmt) (bs : bytes) :
  length bs = calcsize f ->
  - (modulus f / 2) <= unpack f bs < modulus f / 2.
Proof.
  intros Hlen. unfold unpack. pose proof (le_decode_range bs) as Hr.
  rewrite Hlen, <- modulus_pow in Hr.
  destruct (modulus_even f) as [He Hp].
  destruct (Z.ltb_spec (le_decode bs) (modulus f / 2)); lia.
Qed.

Lemma unpack_mod (f : fmt) (bs : bytes) :
  length bs = calcsize f ->
  unpack f bs mod modulus f = le_decode bs.
Proof.
  intros Hlen. unfold unpack. pose proof (le_decode_range bs) as Hr.
  rewrite Hlen, <- modulus_pow in Hr.
  destruct (Z.ltb_spec (le_decode bs) (modulus f / 2)).
  - apply Z.mod_small. lia.
  - replace (le_decode bs - modulus f)
      with (le_decode bs + (-1) * modulus f) by lia.
    rewrite Z.mod_add by lia. apply Z.mod_small. lia.
Qed.

Lemma pack_unpack (f : fmt) (bs : bytes) :
  length bs = calcsize f -> pack f (unpack f bs) = Ok bs.
Proof.
  intros Hlen. unfold pack. pose proof (unpack_range f bs Hlen) as Hr.
  destruct (Z.leb_spec (- (modulus f / 2)) (unpack f bs)); [| lia].
  destruct (Z.ltb_spec (unpack f bs) (modulus f / 2)); [| lia].
  cbn [andb]. rewrite unpack_mod by exact Hlen.
  rewrite <- Hlen. now rewrite le_encode_decode.
Qed.

Lemma pack_length (f : fmt) (v : Z) (bs : bytes) :
  pack f v = Ok bs -> length bs = calcsize f.
Proof.
  unfold pack. destruct (_ && _); [| discriminate].
  intros [= <-]. apply le_encode_length.
Qed.

Lemma pack_ok (f : fmt) (v : Z) :
  - (modulus f / 2) <= v < modulus f / 2 ->
  pack f v = Ok (le_encode (calcsize f) (v mod modulus f)).
Proof.
  intros Hr. unfold pack.
  destruct (Z.leb_spec (- (modulus f / 2)) v); [| lia].
  destruct (Z.ltb_spec v (modulus f / 2)); [| lia].
  reflexivity.
Qed.

Lemma unpack_from_ok (f : fmt) (data : bytes) (off : nat) :
  (off + calcsize f <= length data)%nat ->
  unpack_from f data off = Ok (unpack f (firstn (calcsize f) (skipn off data))).
Proof.
  intros H. unfold unpack_from.
  destruct (Nat.leb_spec (off + calcsize f) (length data)); [reflexivity | lia].
Qed.

(** ** Names *)

Lemma encode_decode_latin1 (bs : bytes) :
  encode_latin1 (decode_latin1 bs) = Ok bs.
Proof.
  induction bs as [| b bs IH]; [reflexivity |].
  cbn [decode_latin1 map encode_latin1]. rewrite Byte.of_to_N.
  fold (decode_latin1 bs). rewrite IH. reflexivity.
Qed.

Lemma split_nul_head_length (bs : bytes) :
  (length (split_nul_head bs) <= length bs)%nat.
Proof.
  induction bs as [| b bs IH]; cbn [split_nul_head length]; [lia |].
  destruct (Byte.eqb b x00); cbn [length]; lia.
Qed.

Lemma split_nul_head_pad (bs : bytes) (k : nat) :
  split_nul_head (split_nul_head bs ++ repeat x00 k) = split_nul_head bs.
Proof.
  induction bs as [| b bs IH]; cbn [split_nul_head].
  - destruct k; reflexivity.
  - destruct (Byte.eqb b x00) eqn:E.
    + destruct k; reflexivity.
    + cbn [app split_nul_head]. rewrite E. now rewrite IH.
Qed.

Lemma ljust_length (n : nat) (bs : bytes) :
  (length bs <= n)%nat -> length (ljust n bs) = n.
Proof.
  intros H. unfold ljust. rewrite length_app, repeat_length. lia.
Qed.
(** ** Slices *)

Lemma Ok_inj {A : Type} (a b : A) : Ok a = Ok b -> a = b.
Proof. now intros [= ->]. Qed.

Lemma bind_Ok {A B : Type} (a : A) (k : A -> result B) : bind (Ok a) k = k a.
Proof. reflexivity. Qed.

Lemma slice_index_nat (n i : nat) : slice_index n (Z.of_nat i) = Nat.min i n.
Proof.
  unfold slice_index. destruct (Z.ltb_spec (Z.of_nat i) 0); [lia |].
  now rewrite Nat2Z.id.
Qed.

Lemma getslice_nat (data : bytes) (a b : nat) :
  (a <= b <= length data)%nat ->
  getslice data (Z.of_nat a) (Z.of_nat b) = firstn (b - a) (skipn a data).
Proof.
  intros H. unfold getslice. rewrite !slice_index_nat.
  now rewrite !Nat.min_l by lia.
Qed.

Lemma getslice_from_nat (data : bytes) (a : nat) :
  (a <= length data)%nat -> getslice_from data (Z.of_nat a) = skipn a data.
Proof.
  intros H. unfold getslice_from. rewrite slice_index_nat.
  now rewrite Nat.min_l by lia.
Qed.

(** Replacing the middle of [pre ++ mid ++ post]. *)
Lemma setslice_middle (pre mid post v : bytes) (lo hi : Z) :
  lo = Z.of_nat (length pre) ->
  hi = Z.of_nat (length pre + length mid) ->
  setslice (pre ++ mid ++ post) lo hi v = pre ++ v ++ post.
Proof.
  intros -> ->. unfold setslice. rewrite !slice_index_nat.
  rewrite !length_app.
  rewrite (Nat.min_l (length pre)) by lia.
  rewrite (Nat.min_l (length pre + length mid)) by lia.
  rewrite Nat.max_r by lia.
  rewrite firstn_app, Nat.sub_diag, firstn_all. cbn [firstn]. rewrite app_nil_r.
  f_equal. f_equal.
  rewrite app_assoc, skipn_app, length_app, Nat.sub_diag.
  rewrite skipn_all2 by (rewrite length_app; lia). reflexivity.
Qed.

(** Replacing everything from [pre] on, when the upper bound reaches the end. *)
Lemma setslice_to_end (pre rest v : bytes) (lo hi : Z) :
  lo = Z.of_nat (length pre) ->
  Z.of_nat (length pre + length rest) <= hi ->
  setslice (pre ++ rest) lo hi v = pre ++ v.
Proof.
  intros -> Hhi. unfold setslice. rewrite slice_index_nat.
  rewrite length_app. rewrite (Nat.min_l (length pre)) by lia.
  assert (Hb : slice_index (length pre + length rest) hi
               = (length pre + length rest)%nat).
  { unfold slice_index. destruct (Z.ltb_spec hi 0); lia. }
  rewrite Hb, Nat.max_r by lia.
  rewrite firstn_app, Nat.sub_diag, firstn_all. cbn [firstn]. rewrite app_nil_r.
  f_equal. rewrite skipn_all2 by (rewrite length_app; lia).
  now rewrite app_nil_r.
Qed.
(** ** Stepping through the writes of [to_bytes]

    The writes go through the record in increasing offset order, so after
    each of them the bytearray is the part written so far followed by the
    null bytes that are left of [bytearray(CHR_SIZE)]. *)

Lemma zeros_after_split (i n : nat) :
  (i + n <= CHR_SIZE)%nat ->
  zeros_after i = repeat x00 n ++ zeros_after (i + n).
Proof.
  intros H. unfold zeros_after. rewrite <- repeat_app. f_equal. lia.
Qed.

Lemma firstn_app_exact {A : Type} (pre l : list A) (n : nat) :
  length pre = n -> firstn n (pre ++ l) = pre.
Proof.
  intros <-. rewrite firstn_app, Nat.sub_diag, firstn_all. cbn [firstn].
  apply app_nil_r.
Qed.

Lemma skipn_app_exact {A : Type} (pre l : list A) (n k : nat) :
  length pre = n -> skipn (n + k) (pre ++ l) = skipn k l.
Proof.
  intros <-. rewrite skipn_app, skipn_all2 by lia. cbn [app].
  f_equal. lia.
Qed.

Lemma step_setitem (pre : bytes) (i : nat) (b : byte) (ss : list stmt)
      (R : result bytes) :
  length pre = i -> (i <? CHR_SIZE)%nat = true ->
  (forall pre', pre' = pre ++ [b] -> length pre' = S i ->
                run ss (pre' ++ zeros_after (S i)) = R) ->
  run (setitem i (Z_of_byte b) :: ss) (pre ++ zeros_after i) = R.
Proof.
  intros Hlen Hi K. apply Nat.ltb_lt in Hi.
  cbn [run]. unfold setitem. rewrite byte_of_Z_of_byte.
  rewrite (zeros_after_split i 1) by lia.
  rewrite length_app. cbn [repeat length app].
  destruct (Nat.ltb_spec i (length pre + S (length (zeros_after (i + 1)))));
    [| lia].
  cbn [bind]. rewrite (firstn_app_exact pre _ i Hlen).
  replace (S i) with (i + 1)%nat by lia.
  rewrite (skipn_app_exact pre _ i 1 Hlen). cbn [skipn].
  replace (pre ++ b :: zeros_after (i + 1))
    with ((pre ++ [b]) ++ zeros_after (i + 1))
    by (now rewrite <- app_assoc).
  replace (i + 1)%nat with (S i) by lia.
  apply K; [reflexivity |]. rewrite length_app. cbn [length]. lia.
Qed.

Lemma step_pack_into (f : fmt) (pre : bytes) (i j : nat) (v : Z) (bs : bytes)
      (ss : list stmt) (R : result bytes) :
  length pre = i -> (i + calcsize f)%nat = j -> (j <=? CHR_SIZE)%nat = true ->
  pack f v = Ok bs ->
  (forall pre', pre' = pre ++ bs -> length pre' = j ->
                run ss (pre' ++ zeros_after j) = R) ->
  run (pack_into f i v :: ss) (pre ++ zeros_after i) = R.
Proof.
  intros Hlen Hj Hle Hp K. apply Nat.leb_le in Hle. subst j.
  cbn [run]. unfold pack_into. rewrite Hp.
  pose proof (pack_length f v bs Hp) as Hbs.
  rewrite (zeros_after_split i (calcsize f)) by lia.
  rewrite !length_app, repeat_length.
  destruct (Nat.leb_spec
              (i + calcsize f)
              (length pre
               + (calcsize f + length (zeros_after (i + calcsize f)))));
    [| lia].
  cbn [bind]. rewrite (firstn_app_exact pre _ i Hlen).
  rewrite (skipn_app_exact pre _ i _ Hlen).
  rewrite <- (repeat_length x00 (calcsize f)) at 1.
  rewrite skipn_app, skipn_all, Nat.sub_diag. cbn [skipn app].
  rewrite app_assoc.
  apply K; [reflexivity |]. rewrite length_app. lia.
Qed.

Lemma step_name (pre : bytes) (i j : nat) (nm : bytes) (lo hi : Z)
      (ss : list stmt) (R : result bytes) :
  length pre = i -> (i + 16)%nat = j -> (j <=? CHR_SIZE)%nat = true ->
  lo = Z.of_nat i -> hi = Z.of_nat j ->
  (forall pre', pre' = pre ++ ljust 16 nm -> 
                run ss (pre' ++ zeros_after j) = R) ->
  run (setslice_stmt lo hi
         (bs <- encode_latin1 (decode_latin1 nm) ;; Ok (ljust 16 bs)) :: ss)
      (pre ++ zeros_after i) = R.
Proof.
  intros Hlen Hj Hle -> -> K. apply Nat.leb_le in Hle. subst j.
  cbn [run]. unfold setslice_stmt. rewrite encode_decode_latin1.
  cbn [bind]. rewrite (zeros_after_split i 16) by lia.
  rewrite setslice_middle; [| lia | rewrite repeat_length; lia].
  rewrite app_assoc. apply K. reflexivity.
Qed.

Lemma run_pack_trait (offset : nat) (t : CharacterTrait) (ss : list stmt)
      (data : bytes) :
  run (Hero.pack_trait offset t :: ss) data
  = run (setitem offset (normal t) :: setitem (offset + 1) (current t)
           :: setitem (offset + 2) (modifier t) :: ss) data.
Proof.
  cbn [run]. unfold Hero.pack_trait. cbn [run].
  destruct (setitem offset (normal t) data) as [d1 |]; [| reflexivity].
  cbn [bind].
  destruct (setitem (offset + 1) (current t) d1) as [d2 |]; [| reflexivity].
  cbn [bind].
  destruct (setitem (offset + 2) (modifier t) d2) as [d3 |]; reflexivity.
Qed.

(** ** Encoding a decoded hero *)

Lemma skipn_cons_nth {A : Type} (l : list A) (d : A) (a : nat) :
  (a < length l)%nat -> skipn a l = nth a l d :: skipn (S a) l.
Proof.
  revert l. induction a as [| a IHa]; intros l H.
  - destruct l; [cbn in H; lia | reflexivity].
  - destruct l as [| x l]; [cbn in H; lia |].
    cbn [skipn nth]. apply IHa. cbn [length] in H. lia.
Qed.

Lemma skipn_as_nths {A : Type} (l : list A) (d : A) (n a : nat) :
  (a + n <= length l)%nat ->
  skipn a l = map (fun i => nth i l d) (seq a n) ++ skipn (a + n) l.
Proof.
  revert a. induction n as [| n IH]; intros a H.
  - cbn [seq map app]. f_equal. lia.
  - cbn [seq map app].
    replace (a + S n)%nat with (S a + n)%nat by lia.
    rewrite <- IH by lia. apply skipn_cons_nth. lia.
Qed.

Lemma getslice_at (data : bytes) (lo hi : Z) (a b : nat) :
  lo = Z.of_nat a -> hi = Z.of_nat b -> (a <= b <= length data)%nat ->
  getslice data lo hi = firstn (b - a) (skipn a data).
Proof. intros -> ->. apply getslice_nat. Qed.

Lemma getslice_from_at (data : bytes) (lo : Z) (a : nat) :
  lo = Z.of_nat a -> (a <= length data)%nat ->
  getslice_from data lo = skipn a data.
Proof. intros ->. apply getslice_from_nat. Qed.

Lemma AttackValues_of_unpack (data : bytes) :
  AttackValues_of (Hero.unpack_att_par data 104)
  = {| att1 := getitem data 104; att2 := getitem data 105;
       att3 := getitem data 106; att4 := getitem data 107;
       att5 := getitem data 108; att6 := getitem data 109;
       att7 := getitem data 110 |}.
Proof. reflexivity. Qed.

Lemma ParadeValues_of_unpack (data : bytes) :
  ParadeValues_of (Hero.unpack_att_par data 111)
  = {| par1 := getitem data 111; par2 := getitem data 112;
       par3 := getitem data 113; par4 := getitem data 114;
       par5 := getitem data 115; par6 := getitem data 116;
       par7 := getitem data 117 |}.
Proof. reflexivity. Qed.

Ltac hero_projections :=
  cbv beta iota delta
    [Hero.set_exp
     Hero.name Hero.name2 Hero.slots_used Hero.typus Hero.gender Hero.size
     Hero.weight Hero.god Hero.level Hero.exp Hero.money Hero.rs_bonus1
     Hero.rs_bonus2 Hero.rs_handycap Hero.remaining_bp Hero.courage
     Hero.intelligence Hero.charisma Hero.dexterity Hero.agility
     Hero.intuition Hero.strength Hero.superstition Hero.vertigo
     Hero.claustrophobia Hero.greed Hero.necrophobia Hero.curiosity
     Hero.temper Hero.vital_energy_current Hero.vital_energy_max
     Hero.astral_energy_current Hero.astral_energy_max Hero.magic_resistance
     Hero.basis_attack_parade Hero.att_vals Hero.par_vals Hero.att_bon_weapon
     Hero.par_bon_weapon Hero.weapon_type Hero.curr_attack_modifier
     Hero.perm_vit_energ_loss Hero.unknown1 Hero.unknown2 Hero.unknown3
     Hero.unknown4 Hero.hunger Hero.thirst Hero.unknown5 Hero.view_direction
     Hero.num_left_actions_per_fight_round Hero.unknown6 Hero.unknown7
     Hero.fight_id_last_enemy Hero.idx_heroes_group Hero.unknown8
     Hero.unknown9 Hero.pos_in_heroes_group Hero.portrait Hero.unknown_tail
     Hero.unpack_trait normal current modifier
     att1 att2 att3 att4 att5 att6 att7 par1 par2 par3 par4 par5 par6 par7].

(** One write of [to_bytes] on a decoded hero. *)
Ltac step_write :=
  lazymatch goal with
  | |- run (Hero.pack_trait _ _ :: _) _ = _ =>
      rewrite run_pack_trait; hero_projections
  | |- run (setitem ?i _ :: _) (?pre ++ zeros_after _) = _ =>
      let i' := eval cbv in i in
      apply (step_setitem pre i'); [ assumption | reflexivity | ];
      match goal with L : length pre = _ |- _ => clear L end;
      intros ? ? ?
  | |- run (pack_into ?f ?i _ :: _) (?pre ++ zeros_after _) = _ =>
      let j := eval cbv in (i + calcsize f)%nat in
      eapply (step_pack_into f pre i j);
      [ assumption | reflexivity | reflexivity
      | first [ eassumption
              | apply pack_unpack; rewrite length_firstn, length_skipn;
                cbn [calcsize]; lia ]
      | ];
      match goal with L : length pre = _ |- _ => clear L end;
      intros ? ? ?
  end.

Lemma firstn_skipn_nths {A : Type} (l : list A) (d : A) (n a : nat) :
  (a + n <= length l)%nat ->
  firstn n (skipn a l) = map (fun i => nth i l d) (seq a n).
Proof.
  intros H. rewrite (skipn_as_nths l d n a H).
  apply firstn_app_exact. now rewrite length_map, length_seq.
Qed.

Lemma to_bytes_set_exp_decoded (B : bytes) (h : Hero.t) (e : Z) (pe : bytes) :
  (CHR_SIZE <= length B)%nat ->
  Hero.from_bytes B = Ok h ->
  pack Fmt_i e = Ok pe ->
  Hero.to_bytes (Hero.set_exp h e) = Ok (reencoded B pe).
Proof.
  intros HB H Hpe. unfold Hero.from_bytes in H.
  destruct (Nat.ltb_spec (length B) CHR_SIZE) as [Hlt | _]; [lia |].
  unfold CHR_SIZE in HB.
  rewrite !unpack_from_ok in H by (cbn [calcsize]; lia).
  rewrite !bind_Ok in H. apply Ok_inj in H. subst h.
  rewrite AttackValues_of_unpack, ParadeValues_of_unpack.
  unfold Hero.to_bytes, Hero.field_stmts. hero_projections.
  cbn [app]. unfold getitem.
  change (bytearray CHR_SIZE) with ([] ++ zeros_after 0).
  assert (H0 : length (@nil byte) = 0%nat) by reflexivity.
  change (Z.add 139 1024) with 1163.
  rewrite (getslice_at B 0 16 0 16 eq_refl eq_refl),
    (getslice_at B 16 32 16 32 eq_refl eq_refl),
    (getslice_at B 139 1163 139 1163 eq_refl eq_refl) by lia.
  rewrite (getslice_from_at B 1163 1163 eq_refl) by lia.
  change (16 - 0)%nat with 16%nat. change (32 - 16)%nat with 16%nat.
  change (1163 - 139)%nat with 1024%nat. change (skipn 0 B) with B.
  apply (step_name [] 0 16); [assumption | reflexivity .. |]. intros p16 E16.
  assert (L16 : length p16 = 16%nat).
  { subst p16. cbn [app]. apply ljust_length.
    etransitivity; [apply split_nul_head_length |].
    rewrite length_firstn. lia. }
  clear H0.
  apply (step_name p16 16 32); [assumption | reflexivity .. |]. intros p32 E32.
  assert (L32 : length p32 = 32%nat).
  { subst p32. rewrite length_app, L16, ljust_length; [reflexivity |].
    etransitivity; [apply split_nul_head_length |].
    rewrite length_firstn, length_skipn. lia. }
  clear L16.
  repeat step_write.
  cbn [run]. unfold Hero.portrait_stmt, Hero.tail_stmt. hero_projections.
  assert (Lp : length (firstn 1024 (skipn 139 B)) = 1024%nat)
    by (rewrite length_firstn, length_skipn; lia).
  rewrite Lp. cbn [Nat.eqb bind].
  rewrite (zeros_after_split 139 1024) by (unfold CHR_SIZE; lia).
  rewrite setslice_middle;
    [| lia | rewrite repeat_length; lia].
  rewrite app_assoc.
  rewrite setslice_to_end.
  2:{ rewrite length_app. lia. }
  2:{ rewrite !length_app, length_skipn. unfold zeros_after.
      rewrite repeat_length. unfold CHR_SIZE. lia. }
  f_equal. unfold reencoded, canonical_name.
  match goal with L : length _ = 139%nat |- _ => clear L end.
  clear Lp. subst.
  rewrite <- !app_assoc. cbn [app calcsize Nat.add].
  rewrite (firstn_skipn_nths B x00 2 35), (firstn_skipn_nths B x00 4 44),
    (firstn_skipn_nths B x00 2 94), (firstn_skipn_nths B x00 2 96),
    (firstn_skipn_nths B x00 2 98), (firstn_skipn_nths B x00 2 100),
    (firstn_skipn_nths B x00 8 32) by lia.
  rewrite (skipn_as_nths B x00 95 44) by lia.
  rewrite <- (firstn_skipn 1024 (skipn (44 + 95) B)), skipn_skipn.
  cbn [seq map app Nat.add]. reflexivity.
Qed.
(** ** Decoding depends on the name views and on the bytes from 32 on *)

Lemma nth_from_32 (D D' : bytes) (i : nat) (d : byte) :
  skipn 32 D = skipn 32 D' -> (32 <= i)%nat -> nth i D d = nth i D' d.
Proof.
  intros Hs Hi. replace i with (32 + (i - 32))%nat by lia.
  rewrite <- !nth_skipn. now rewrite Hs.
Qed.

Lemma skipn_from_32 (D D' : bytes) (k : nat) :
  skipn 32 D = skipn 32 D' -> (32 <= k)%nat -> skipn k D = skipn k D'.
Proof.
  intros Hs Hk. replace k with ((k - 32) + 32)%nat by lia.
  rewrite <- !skipn_skipn. now rewrite Hs.
Qed.

Lemma getitem_from_32 (D D' : bytes) (i : nat) :
  skipn 32 D = skipn 32 D' -> (32 <=? i)%nat = true ->
  getitem D i = getitem D' i.
Proof.
  intros Hs Hi. apply Nat.leb_le in Hi. unfold getitem.
  now rewrite (nth_from_32 D D' i x00 Hs Hi).
Qed.

Lemma unpack_from_from_32 (f : fmt) (D D' : bytes) (off : nat) :
  skipn 32 D = skipn 32 D' -> length D = length D' ->
  (32 <=? off)%nat = true ->
  unpack_from f D off = unpack_from f D' off.
Proof.
  intros Hs Hl Ho. apply Nat.leb_le in Ho. unfold unpack_from.
  now rewrite Hl, (skipn_from_32 D D' off Hs Ho).
Qed.

Lemma from_bytes_ext (D D' : bytes) :
  length D = length D' ->
  split_nul_head (getslice D 0 16) = split_nul_head (getslice D' 0 16) ->
  split_nul_head (getslice D 16 32) = split_nul_head (getslice D' 16 32) ->
  skipn 32 D = skipn 32 D' ->
  Hero.from_bytes D = Hero.from_bytes D'.
Proof.
  intros Hl Hn1 Hn2 Hs. unfold Hero.from_bytes.
  rewrite Hl, Hn1, Hn2.
  destruct (length D' <? CHR_SIZE)%nat eqn:Hg; [reflexivity |].
  apply Nat.ltb_ge in Hg. unfold CHR_SIZE in Hg.
  rewrite !AttackValues_of_unpack, !ParadeValues_of_unpack.
  unfold Hero.unpack_trait.
  repeat match goal with
         | |- context [unpack_from ?f D ?o] =>
             rewrite (unpack_from_from_32 f D D' o Hs Hl eq_refl)
         end.
  repeat match goal with
         | |- context [getitem D ?i] =>
             rewrite (getitem_from_32 D D' i Hs eq_refl)
         end.
  change (Z.add 139 1024) with 1163.
  rewrite (getslice_at D 139 1163 139 1163 eq_refl eq_refl),
    (getslice_at D' 139 1163 139 1163 eq_refl eq_refl) by lia.
  rewrite (getslice_from_at D 1163 1163 eq_refl),
    (getslice_from_at D' 1163 1163 eq_refl) by lia.
  rewrite (skipn_from_32 D D' 139 Hs), (skipn_from_32 D D' 1163 Hs) by lia.
  reflexivity.
Qed.

Lemma set_exp_same (h : Hero.t) : Hero.set_exp h (Hero.exp h) = h.
Proof. destruct h. reflexivity. Qed.

Lemma from_bytes_total (B : bytes) :
  (CHR_SIZE <= length B)%nat -> exists h, Hero.from_bytes B = Ok h.
Proof.
  intros HB. unfold Hero.from_bytes.
  destruct (Nat.ltb_spec (length B) CHR_SIZE) as [Hlt | _]; [lia |].
  unfold CHR_SIZE in HB.
  rewrite !unpack_from_ok by (cbn [calcsize]; lia).
  rewrite !bind_Ok. eexists. reflexivity.
Qed.

Lemma from_bytes_exp (B : bytes) (h : Hero.t) :
  Hero.from_bytes B = Ok h ->
  Hero.exp h = unpack Fmt_i (firstn 4 (skipn 40 B)).
Proof.
  unfold Hero.from_bytes.
  destruct (length B <? CHR_SIZE)%nat eqn:Hg; [discriminate |].
  apply Nat.ltb_ge in Hg. unfold CHR_SIZE in Hg.
  rewrite !unpack_from_ok by (cbn [calcsize]; lia).
  rewrite !bind_Ok. intros H. apply Ok_inj in H. subst h. reflexivity.
Qed.

Lemma from_bytes_blobs (B : bytes) (h : Hero.t) :
  Hero.from_bytes B = Ok h ->
  (CHR_SIZE <= length B)%nat
  /\ Hero.portrait h = firstn 1024 (skipn 139 B)
  /\ Hero.unknown_tail h = skipn 1163 B.
Proof.
  unfold Hero.from_bytes.
  destruct (length B <? CHR_SIZE)%nat eqn:Hg; [discriminate |].
  apply Nat.ltb_ge in Hg. intros H. split; [exact Hg |].
  unfold CHR_SIZE in Hg.
  rewrite !unpack_from_ok in H by (cbn [calcsize]; lia).
  rewrite !bind_Ok in H. apply Ok_inj in H. subst h.
  cbv beta iota delta [Hero.portrait Hero.unknown_tail].
  change (Z.add 139 1024) with 1163.
  rewrite (getslice_at B 139 1163 139 1163 eq_refl eq_refl) by lia.
  rewrite (getslice_from_at B 1163 1163 eq_refl) by lia.
  split; reflexivity.
Qed.

Lemma reencoded_same (B : bytes) :
  (44 <= length B)%nat -> reencoded B (firstn 4 (skipn 40 B)) = canonical B.
Proof.
  intros HB. unfold reencoded, canonical. do 2 f_equal.
  symmetry. rewrite <- (firstn_skipn 8 (skipn 32 B)) at 1. f_equal.
  rewrite skipn_skipn. change (8 + 32)%nat with 40%nat.
  rewrite <- (firstn_skipn 4 (skipn 40 B)) at 1. f_equal.
  now rewrite skipn_skipn.
Qed.

Lemma to_bytes_decoded (B : bytes) (h : Hero.t) :
  Hero.from_bytes B = Ok h -> Hero.to_bytes h = Ok (canonical B).
Proof.
  intros H. destruct (from_bytes_blobs B h H) as (HB & _).
  rewrite <- (set_exp_same h), (from_bytes_exp B h H).
  rewrite (to_bytes_set_exp_decoded B h _ (firstn 4 (skipn 40 B)) HB H).
  - rewrite reencoded_same; [reflexivity | unfold CHR_SIZE in HB; lia].
  - apply pack_unpack. rewrite length_firstn, length_skipn.
    unfold CHR_SIZE in HB. cbn [calcsize]. lia.
Qed.
(** ** Name fields and the canonical record *)

Lemma forallb_nul_repeat (bs : bytes) :
  forallb (Byte.eqb x00) bs = true -> bs = repeat x00 (length bs).
Proof.
  induction bs as [| b bs IH]; [reflexivity |].
  cbn [forallb length repeat]. intros H. apply andb_prop in H as [Hb Hbs].
  apply Byte.byte_dec_bl in Hb. subst b. f_equal. now apply IH.
Qed.

Lemma nul_padded_ljust (bs : bytes) :
  nul_padded bs = true -> ljust (length bs) (split_nul_head bs) = bs.
Proof.
  unfold ljust. induction bs as [| b bs IH]; [reflexivity |].
  cbn [nul_padded split_nul_head]. destruct (Byte.eqb b x00) eqn:E.
  - intros H. apply Byte.byte_dec_bl in E. subst b.
    cbn [length app Nat.sub repeat]. f_equal.
    symmetry. now apply forallb_nul_repeat.
  - intros H. cbn [length app Nat.sub]. f_equal. now apply IH.
Qed.

Lemma canonical_name_padded (field : bytes) :
  length field = 16%nat -> nul_padded field = true ->
  canonical_name field = field.
Proof.
  intros Hl Hp. unfold canonical_name. rewrite <- Hl at 1.
  now apply nul_padded_ljust.
Qed.

Lemma canonical_name_length (field : bytes) :
  (length field <= 16)%nat -> length (canonical_name field) = 16%nat.
Proof.
  intros H. apply ljust_length.
  etransitivity; [apply split_nul_head_length | exact H].
Qed.

Lemma canonical_name_head (field : bytes) :
  split_nul_head (canonical_name field) = split_nul_head field.
Proof. apply split_nul_head_pad. Qed.

Lemma record_split (B : bytes) :
  B = firstn 16 B ++ firstn 16 (skipn 16 B) ++ skipn 32 B.
Proof.
  rewrite <- (firstn_skipn 16 B) at 1. f_equal.
  rewrite <- (firstn_skipn 16 (skipn 16 B)) at 1. f_equal.
  now rewrite skipn_skipn.
Qed.

Lemma canonical_padded (B : bytes) :
  (32 <= length B)%nat ->
  nul_padded (firstn 16 B) = true ->
  nul_padded (firstn 16 (skipn 16 B)) = true ->
  canonical B = B.
Proof.
  intros HB H1 H2. unfold canonical.
  rewrite !canonical_name_padded; try assumption.
  - symmetry. apply record_split.
  - rewrite length_firstn, length_skipn. lia.
  - rewrite length_firstn. lia.
Qed.

Lemma canonical_length (B : bytes) :
  (32 <= length B)%nat -> length (canonical B) = length B.
Proof.
  intros HB. unfold canonical.
  rewrite !length_app, !canonical_name_length, length_skipn;
    [lia | rewrite length_firstn, length_skipn; lia
    | rewrite length_firstn; lia].
Qed.

Lemma from_bytes_canonical (B : bytes) :
  (32 <= length B)%nat ->
  Hero.from_bytes (canonical B) = Hero.from_bytes B.
Proof.
  intros HB.
  assert (L1 : length (canonical_name (firstn 16 B)) = 16%nat)
    by (apply canonical_name_length; rewrite length_firstn; lia).
  assert (L2 : length (canonical_name (firstn 16 (skipn 16 B))) = 16%nat)
    by (apply canonical_name_length; rewrite length_firstn, length_skipn; lia).
  pose proof (canonical_length B HB) as Hl.
  apply from_bytes_ext.
  - exact Hl.
  - rewrite (getslice_at (canonical B) 0 16 0 16 eq_refl eq_refl) by lia.
    rewrite (getslice_at B 0 16 0 16 eq_refl eq_refl) by lia.
    unfold canonical. cbn [skipn Nat.sub].
    rewrite (firstn_app_exact _ _ 16 L1). apply canonical_name_head.
  - rewrite (getslice_at (canonical B) 16 32 16 32 eq_refl eq_refl) by lia.
    rewrite (getslice_at B 16 32 16 32 eq_refl eq_refl) by lia.
    unfold canonical. change (32 - 16)%nat with 16%nat.
    rewrite <- (Nat.add_0_r 16) at 1.
    rewrite (skipn_app_exact _ _ 16 0 L1). cbn [skipn].
    rewrite (firstn_app_exact _ _ 16 L2). apply canonical_name_head.
  - unfold canonical. rewrite app_assoc.
    replace 32%nat with (32 + 0)%nat at 1 by reflexivity.
    rewrite skipn_app_exact; [reflexivity |].
    rewrite length_app. lia.
Qed.

(** ** The hero codec *)

(** C1 (as amended): a 1754-byte record whose two name fields hold only
    null bytes after their first null byte is reproduced byte for byte by
    decoding it with [Hero.from_bytes] and encoding the result with
    [Hero.to_bytes]. *)
Theorem hero_round_trip_padded (B : bytes) :
  length B = CHR_SIZE ->
  nul_padded (firstn 16 B) = true ->
  nul_padded (firstn 16 (skipn 16 B)) = true ->
  (h <- Hero.from_bytes B ;; Hero.to_bytes h) = Ok B.
Proof.
  intros HB H1 H2.
  destruct (from_bytes_total B) as [h Hh]; [lia |].
  rewrite Hh. cbn [bind]. rewrite (to_bytes_decoded B h Hh).
  f_equal. apply canonical_padded; [unfold CHR_SIZE in HB; lia | assumption ..].
Qed.

Lemma hero_round_trip_padded_witness :
  (h <- Hero.from_bytes sample_record ;; Hero.to_bytes h) = Ok sample_record.
Proof.
  apply (hero_round_trip_padded sample_record); reflexivity.
Defined.

(** C1 as stated fails: the record [unpadded_record] has 1754 bytes, and
    decoding then encoding it clears the byte after the name terminator. *)
Lemma hero_round_trip_unpadded :
  length unpadded_record = CHR_SIZE
  /\ (h <- Hero.from_bytes unpadded_record ;; Hero.to_bytes h)
     = Ok ([x41] ++ repeat x00 1753)
  /\ (h <- Hero.from_bytes unpadded_record ;; Hero.to_bytes h)
     <> Ok unpadded_record.
Proof.
  split; [reflexivity |].
  assert (E : (h <- Hero.from_bytes unpadded_record ;; Hero.to_bytes h)
              = Ok ([x41] ++ repeat x00 1753)) by (vm_compute; reflexivity).
  split; [exact E |]. rewrite E. intros H. apply Ok_inj in H.
  apply (f_equal (fun l => nth 2 l x00)) in H. vm_compute in H. discriminate H.
Qed.

(** C2: a hero decoded from a buffer of at least 1754 bytes is encoded by
    [Hero.to_bytes] into a buffer that [Hero.from_bytes] decodes to the same
    hero, field for field. *)
Theorem hero_decode_encode_decode (B : bytes) (h : Hero.t) :
  (CHR_SIZE <= length B)%nat ->
  Hero.from_bytes B = Ok h ->
  (B' <- Hero.to_bytes h ;; Hero.from_bytes B') = Ok h.
Proof.
  intros HB Hh. rewrite (to_bytes_decoded B h Hh). cbn [bind].
  rewrite from_bytes_canonical; [exact Hh | unfold CHR_SIZE in HB; lia].
Qed.

Lemma hero_decode_encode_decode_witness :
  exists h, Hero.from_bytes (unpadded_record ++ [x07]) = Ok h
            /\ (B' <- Hero.to_bytes h ;; Hero.from_bytes B') = Ok h.
Proof.
  eexists. split; [vm_compute; reflexivity |].
  apply (hero_decode_encode_decode (unpadded_record ++ [x07]));
    [vm_compute; lia | vm_compute; reflexivity].
Defined.

Lemma reencoded_padded (B pe : bytes) :
  (44 <= length B)%nat ->
  nul_padded (firstn 16 B) = true ->
  nul_padded (firstn 16 (skipn 16 B)) = true ->
  reencoded B pe = firstn 40 B ++ pe ++ skipn 44 B.
Proof.
  intros HB H1 H2. unfold reencoded.
  rewrite !canonical_name_padded; try assumption.
  - rewrite !app_assoc. do 2 f_equal. rewrite <- app_assoc.
    rewrite <- (firstn_skipn 16 (firstn 40 B)).
    rewrite firstn_firstn. change (Nat.min 16 40) with 16%nat. f_equal.
    rewrite <- (firstn_skipn 16 (skipn 16 (firstn 40 B))).
    rewrite skipn_skipn. change (16 + 16)%nat with 32%nat.
    rewrite !skipn_firstn_comm, firstn_firstn.
    change (40 - 16)%nat with 24%nat. change (40 - 32)%nat with 8%nat.
    reflexivity.
  - rewrite length_firstn, length_skipn. lia.
  - rewrite length_firstn. lia.
Qed.

Lemma splice_nth_error (B pe : bytes) (a : nat) (i : nat) :
  (a + length pe <= length B)%nat ->
  (i < a \/ a + length pe <= i)%nat ->
  nth_error (firstn a B ++ pe ++ skipn (a + length pe) B) i = nth_error B i.
Proof.
  intros HB Hi.
  assert (La : length (firstn a B) = a) by (rewrite length_firstn; lia).
  destruct Hi as [Hi | Hi].
  - rewrite nth_error_app1 by lia. rewrite nth_error_firstn.
    destruct (Nat.ltb_spec i a); [reflexivity | lia].
  - rewrite nth_error_app2 by lia. rewrite nth_error_app2 by lia.
    rewrite nth_error_skipn, La. f_equal. lia.
Qed.

(** C8 (as amended): for a hero decoded from a 1754-byte record whose two
    name fields hold only null bytes after their first null byte, assigning
    a signed 32-bit value to [exp] and encoding gives the original record
    with bytes 40..43 replaced by the little-endian encoding of the new
    value; every byte outside 40..43 is the original one. *)
Theorem exp_field_isolation (B : bytes) (h : Hero.t) (e : Z) :
  length B = CHR_SIZE ->
  nul_padded (firstn 16 B) = true ->
  nul_padded (firstn 16 (skipn 16 B)) = true ->
  Hero.from_bytes B = Ok h ->
  - 2 ^ 31 <= e < 2 ^ 31 ->
  exists out,
    Hero.to_bytes (Hero.set_exp h e) = Ok out
    /\ out = firstn 40 B ++ le_encode 4 (e mod 2 ^ 32) ++ skipn 44 B
    /\ length out = CHR_SIZE
    /\ forall i, (i < 40 \/ 44 <= i)%nat -> nth_error out i = nth_error B i.
Proof.
  intros HB H1 H2 Hh He.
  assert (Hp : pack Fmt_i e = Ok (le_encode 4 (e mod 2 ^ 32)))
    by (apply (pack_ok Fmt_i); exact He).
  exists (firstn 40 B ++ le_encode 4 (e mod 2 ^ 32) ++ skipn 44 B).
  unfold CHR_SIZE in HB.
  split; [| split; [reflexivity | split]].
  - rewrite (to_bytes_set_exp_decoded B h e _
               ltac:(unfold CHR_SIZE; lia) Hh Hp).
    f_equal. apply reencoded_padded; [lia | assumption ..].
  - rewrite !length_app, length_firstn, length_skipn, le_encode_length.
    unfold CHR_SIZE. lia.
  - intros i Hi.
    apply (splice_nth_error B (le_encode 4 (e mod 2 ^ 32)) 40 i);
      rewrite le_encode_length; lia.
Qed.

Lemma exp_field_isolation_witness :
  exists h out,
    Hero.from_bytes sample_record = Ok h
    /\ Hero.to_bytes (Hero.set_exp h 4660) = Ok out
    /\ out = firstn 40 sample_record ++ le_encode 4 (4660 mod 2 ^ 32)
             ++ skipn 44 sample_record
    /\ length out = CHR_SIZE
    /\ forall i, (i < 40 \/ 44 <= i)%nat ->
                 nth_error out i = nth_error sample_record i.
Proof.
  destruct (Hero.from_bytes sample_record) as [h |] eqn:Hh;
    [| vm_compute in Hh; discriminate Hh].
  destruct (exp_field_isolation sample_record h 4660) as (out & H);
    [reflexivity | reflexivity | reflexivity | exact Hh | lia |].
  exists h, out. split; [reflexivity | exact H].
Defined.

(** C8 as stated fails: the hero decoded from [unpadded_record], with [exp]
    set to 1, encodes to a buffer whose byte 2 differs from the original
    record, outside bytes 40..43. *)
Lemma exp_field_isolation_unpadded :
  let h := blank_hero [65%N] [] (repeat x00 1024) (repeat x00 591) in
  let out := [x41] ++ repeat x00 39 ++ [x01] ++ repeat x00 1713 in
  length unpadded_record = CHR_SIZE
  /\ Hero.from_bytes unpadded_record = Ok h
  /\ Hero.to_bytes (Hero.set_exp h 1) = Ok out
  /\ nth_error out 2 = Some x00
  /\ nth_error unpadded_record 2 = Some x42.
Proof.
  repeat split; vm_compute; reflexivity.
Qed.

(** The length guard of [from_bytes]. *)
Lemma from_bytes_short (data : bytes) :
  (length data < CHR_SIZE)%nat ->
  Hero.from_bytes data = Raise (ValueError_HeroDataTooSmall (length data)).
Proof.
  intros H. unfold Hero.from_bytes.
  destruct (Nat.ltb_spec (length data) CHR_SIZE); [reflexivity | lia].
Qed.

Lemma from_bytes_lengths (B : bytes) (h : Hero.t) :
  Hero.from_bytes B = Ok h ->
  length (Hero.portrait h) = 1024%nat
  /\ length (Hero.unknown_tail h) = (length B - 1163)%nat.
Proof.
  intros H. destruct (from_bytes_blobs B h H) as (HB & -> & ->).
  unfold CHR_SIZE in HB. rewrite length_firstn, !length_skipn. lia.
Qed.
(** ** Sequences of writes *)

Lemma run_cons (s : stmt) (ss : list stmt) (d : bytes) :
  run (s :: ss) d = (d' <- s d ;; run ss d').
Proof. reflexivity. Qed.

Lemma run_app (ss1 ss2 : list stmt) (d : bytes) :
  run (ss1 ++ ss2) d = (d' <- run ss1 d ;; run ss2 d').
Proof.
  revert d. induction ss1 as [| s ss1 IH]; intros d; [reflexivity |].
  cbn [app run]. destruct (s d) as [d1 |]; [apply IH | reflexivity].
Qed.

(** A relation between the bytearray before and after a write that is
    reflexive, transitive and never lets the bytearray shrink is respected
    by a sequence of writes as soon as each write respects it. *)
Section RunRespects.

Variable R : bytes -> bytes -> Prop.
Hypothesis R_refl : forall d, R d d.
Hypothesis R_trans : forall d1 d2 d3, R d1 d2 -> R d2 d3 -> R d1 d3.
Hypothesis R_grows : forall d d', R d d' -> grows d d'.

Lemma run_respects (ss : list stmt) :
  Forall (respects R) ss -> respects R (run ss).
Proof.
  induction 1 as [| s ss Hs _ IH]; intros d d' Hd Hrun.
  - cbn [run] in Hrun. apply Ok_inj in Hrun. subst d'. apply R_refl.
  - rewrite run_cons in Hrun. destruct (s d) as [d1 |] eqn:E;
      [| discriminate Hrun].
    cbn [bind] in Hrun. pose proof (Hs d d1 Hd E) as H1.
    apply (R_trans d d1 d'); [exact H1 |].
    apply IH; [| exact Hrun]. apply R_grows in H1. unfold grows in H1. lia.
Qed.

End RunRespects.

Lemma run_grows (ss : list stmt) :
  Forall (respects grows) ss -> respects grows (run ss).
Proof.
  apply run_respects; unfold grows; intros; lia.
Qed.

Lemma run_same_prefix (a : nat) (ss : list stmt) :
  Forall (respects (same_prefix a)) ss -> respects (same_prefix a) (run ss).
Proof.
  apply run_respects; unfold same_prefix, grows.
  - intros d. split; [reflexivity | lia].
  - intros d1 d2 d3 [E1 L1] [E2 L2]. split; [congruence | lia].
  - intros d d' [_ L]. exact L.
Qed.

Lemma run_same_suffix (b : nat) (ss : list stmt) :
  Forall (respects (same_suffix b)) ss -> respects (same_suffix b) (run ss).
Proof.
  apply run_respects; unfold same_suffix, grows.
  - intros d. split; reflexivity.
  - intros d1 d2 d3 [E1 L1] [E2 L2]. split; congruence.
  - intros d d' [_ L]. lia.
Qed.

Lemma run_uniform_ok (ss : list stmt) :
  Forall uniform ss -> Forall (respects grows) ss ->
  forall d, (CHR_SIZE <= length d)%nat ->
            is_ok (run ss d) = forallb stmt_ok ss.
Proof.
  induction ss as [| s ss IH]; intros Hu Hg d Hd; [reflexivity |].
  inversion Hu as [| ? ? Hus Huss]; subst.
  inversion Hg as [| ? ? Hgs Hgss]; subst.
  rewrite run_cons. cbn [forallb]. rewrite <- (Hus d Hd).
  destruct (s d) as [d1 |] eqn:E; [| reflexivity].
  cbn [bind is_ok andb]. apply IH; [assumption .. |].
  pose proof (Hgs d d1 Hd E) as H1. unfold grows in H1. lia.
Qed.

Lemma bytearray_length (n : nat) : length (bytearray n) = n.
Proof. apply repeat_length. Qed.

Lemma run_uniform (ss : list stmt) :
  Forall uniform ss -> Forall (respects grows) ss -> uniform (run ss).
Proof.
  intros Hu Hg d Hd. unfold stmt_ok.
  rewrite (run_uniform_ok ss Hu Hg d Hd).
  rewrite (run_uniform_ok ss Hu Hg (bytearray CHR_SIZE));
    [reflexivity | rewrite bytearray_length; lia].
Qed.

(** ** What one write does *)

(** Replacing the bytes [lo..hi) of [d] by [X]. *)
Lemma splice_same_prefix (d X : bytes) (lo hi a : nat) :
  (lo <= hi <= length d)%nat -> (hi - lo <= length X)%nat -> (a <= lo)%nat ->
  same_prefix a d (firstn lo d ++ X ++ skipn hi d).
Proof.
  intros H HX Ha. split.
  - rewrite firstn_app, length_firstn, Nat.min_l by lia.
    replace (a - lo)%nat with 0%nat by lia. cbn [firstn].
    rewrite app_nil_r, firstn_firstn. f_equal. lia.
  - rewrite !length_app, length_firstn, length_skipn. lia.
Qed.

Lemma splice_same_suffix (d X : bytes) (lo hi b : nat) :
  (lo <= hi <= length d)%nat -> length X = (hi - lo)%nat -> (hi <= b)%nat ->
  same_suffix b d (firstn lo d ++ X ++ skipn hi d).
Proof.
  intros H HX Hb. split.
  - rewrite app_assoc, skipn_app.
    rewrite skipn_all2 by (rewrite length_app, length_firstn; lia).
    cbn [app]. rewrite skipn_skipn, length_app, length_firstn. f_equal. lia.
  - rewrite !length_app, length_firstn, length_skipn. lia.
Qed.

Lemma same_prefix_grows (a : nat) (d d' : bytes) :
  same_prefix a d d' -> grows d d'.
Proof. intros [_ H]. exact H. Qed.

Lemma setitem_inv (i : nat) (v : Z) (d d' : bytes) :
  setitem i v d = Ok d' ->
  exists b, (i < length d)%nat /\ d' = firstn i d ++ [b] ++ skipn (S i) d.
Proof.
  unfold setitem. destruct (byte_of_Z v) as [b |]; [| discriminate].
  destruct (Nat.ltb_spec i (length d)) as [Hi | Hi]; [| discriminate].
  intros H. apply Ok_inj in H. exists b. split; [assumption | now subst d'].
Qed.

Lemma pack_into_inv (f : fmt) (off : nat) (v : Z) (d d' : bytes) :
  pack_into f off v d = Ok d' ->
  exists bs, (off + calcsize f <= length d)%nat /\ length bs = calcsize f
             /\ d' = firstn off d ++ bs ++ skipn (off + calcsize f) d.
Proof.
  unfold pack_into.
  destruct (Nat.leb_spec (off + calcsize f) (length d)) as [Hi | Hi];
    [| discriminate].
  destruct (pack f v) as [bs |] eqn:E; [| discriminate].
  cbn [bind]. intros H. apply Ok_inj in H. exists bs.
  split; [assumption | split; [apply (pack_length f v bs E) | now subst d']].
Qed.

Lemma setslice_stmt_inv (lo hi : Z) (rhs : result bytes) (a b : nat)
      (d d' : bytes) :
  lo = Z.of_nat a -> hi = Z.of_nat b -> (a <= b <= length d)%nat ->
  setslice_stmt lo hi rhs d = Ok d' ->
  exists v, rhs = Ok v /\ d' = firstn a d ++ v ++ skipn b d.
Proof.
  intros -> -> H. unfold setslice_stmt. destruct rhs as [v |]; [| discriminate].
  cbn [bind]. intros E. apply Ok_inj in E. exists v. split; [reflexivity |].
  subst d'. unfold setslice. rewrite !slice_index_nat.
  rewrite !Nat.min_l, Nat.max_r by lia. reflexivity.
Qed.

Lemma setitem_same_prefix (a i : nat) (v : Z) :
  (a <=? i)%nat = true -> respects (same_prefix a) (setitem i v).
Proof.
  intros Ha d d' Hd H. apply Nat.leb_le in Ha.
  destruct (setitem_inv i v d d' H) as (b & Hi & ->).
  apply splice_same_prefix; cbn [length]; lia.
Qed.

Lemma setitem_same_suffix (b i : nat) (v : Z) :
  (i <? b)%nat = true -> respects (same_suffix b) (setitem i v).
Proof.
  intros Hb d d' Hd H. apply Nat.ltb_lt in Hb.
  destruct (setitem_inv i v d d' H) as (x & Hi & ->).
  apply splice_same_suffix; cbn [length]; lia.
Qed.

Lemma setitem_uniform (i : nat) (v : Z) :
  (i <? CHR_SIZE)%nat = true -> uniform (setitem i v).
Proof.
  intros Hi d Hd. apply Nat.ltb_lt in Hi. unfold stmt_ok, setitem.
  destruct (byte_of_Z v); [| reflexivity].
  rewrite bytearray_length.
  destruct (Nat.ltb_spec i (length d)); [| lia].
  destruct (Nat.ltb_spec i CHR_SIZE); [reflexivity | lia].
Qed.

Lemma pack_into_same_prefix (a : nat) (f : fmt) (off : nat) (v : Z) :
  (a <=? off)%nat = true -> respects (same_prefix a) (pack_into f off v).
Proof.
  intros Ha d d' Hd H. apply Nat.leb_le in Ha.
  destruct (pack_into_inv f off v d d' H) as (bs & Hi & Hl & ->).
  apply splice_same_prefix; lia.
Qed.

Lemma pack_into_same_suffix (b : nat) (f : fmt) (off : nat) (v : Z) :
  (off + calcsize f <=? b)%nat = true ->
  respects (same_suffix b) (pack_into f off v).
Proof.
  intros Hb d d' Hd H. apply Nat.leb_le in Hb.
  destruct (pack_into_inv f off v d d' H) as (bs & Hi & Hl & ->).
  apply splice_same_suffix; lia.
Qed.

Lemma pack_into_uniform (f : fmt) (off : nat) (v : Z) :
  (off + calcsize f <=? CHR_SIZE)%nat = true -> uniform (pack_into f off v).
Proof.
  intros Hi d Hd. apply Nat.leb_le in Hi. unfold stmt_ok, pack_into.
  rewrite bytearray_length.
  destruct (Nat.leb_spec (off + calcsize f) (length d)); [| lia].
  destruct (Nat.leb_spec (off + calcsize f) CHR_SIZE); [| lia].
  destruct (pack f v); reflexivity.
Qed.

Lemma setslice_stmt_uniform (lo hi : Z) (rhs : result bytes) :
  uniform (setslice_stmt lo hi rhs).
Proof.
  intros d Hd. unfold stmt_ok, setslice_stmt. destruct rhs; reflexivity.
Qed.

Lemma encode_latin1_length (s : pystr) (bs : bytes) :
  encode_latin1 s = Ok bs -> length bs = length s.
Proof.
  revert bs. induction s as [| c s IH]; intros bs H.
  - cbn in H. apply Ok_inj in H. now subst bs.
  - cbn [encode_latin1] in H. destruct (Byte.of_N c) as [b |]; [| discriminate].
    destruct (encode_latin1 s) as [bs' |]; [| discriminate].
    cbn [bind] in H. apply Ok_inj in H. subst bs. cbn [length].
    f_equal. now apply IH.
Qed.

Lemma ljust_length_ge (n : nat) (bs : bytes) : (n <= length (ljust n bs))%nat.
Proof. unfold ljust. rewrite length_app, repeat_length. lia. Qed.

Lemma name_rhs_inv (s : pystr) (v : bytes) :
  (bs <- encode_latin1 s ;; Ok (ljust 16 bs)) = Ok v ->
  exists bs, encode_latin1 s = Ok bs /\ v = ljust 16 bs.
Proof.
  destruct (encode_latin1 s) as [bs |]; [| discriminate].
  cbn [bind]. intros H. apply Ok_inj in H. now exists bs.
Qed.

Lemma name_stmt_same_prefix (a lo_ hi_ : nat) (lo hi : Z) (s : pystr) :
  lo = Z.of_nat lo_ -> hi = Z.of_nat hi_ ->
  (a <=? lo_)%nat = true -> (lo_ + 16 =? hi_)%nat = true ->
  (hi_ <=? CHR_SIZE)%nat = true ->
  respects (same_prefix a)
    (setslice_stmt lo hi (bs <- encode_latin1 s ;; Ok (ljust 16 bs))).
Proof.
  intros Hlo Hhi Ha Hw Hc d d' Hd H.
  apply Nat.leb_le in Ha. apply Nat.eqb_eq in Hw. apply Nat.leb_le in Hc.
  destruct (setslice_stmt_inv lo hi _ lo_ hi_ d d' Hlo Hhi ltac:(lia) H)
    as (v & Hv & ->).
  destruct (name_rhs_inv s v Hv) as (bs & _ & ->).
  apply splice_same_prefix; [lia | | lia].
  pose proof (ljust_length_ge 16 bs). lia.
Qed.

Lemma name_stmt_same_suffix (b lo_ hi_ : nat) (lo hi : Z) (s : pystr) :
  lo = Z.of_nat lo_ -> hi = Z.of_nat hi_ ->
  (hi_ <=? b)%nat = true -> (lo_ + 16 =? hi_)%nat = true ->
  (hi_ <=? CHR_SIZE)%nat = true ->
  (length s <= 16)%nat ->
  respects (same_suffix b)
    (setslice_stmt lo hi (bs <- encode_latin1 s ;; Ok (ljust 16 bs))).
Proof.
  intros Hlo Hhi Hb Hw Hc Hs d d' Hd H.
  apply Nat.leb_le in Hb. apply Nat.eqb_eq in Hw. apply Nat.leb_le in Hc.
  destruct (setslice_stmt_inv lo hi _ lo_ hi_ d d' Hlo Hhi ltac:(lia) H)
    as (v & Hv & ->).
  destruct (name_rhs_inv s v Hv) as (bs & Hbs & ->).
  apply splice_same_suffix; [lia | | lia].
  rewrite ljust_length; [lia |]. rewrite (encode_latin1_length s bs Hbs). lia.
Qed.

Lemma respects_prefix_grows (a : nat) (s : stmt) :
  respects (same_prefix a) s -> respects grows s.
Proof.
  intros H d d' Hd E. exact (same_prefix_grows a d d' (H d d' Hd E)).
Qed.

(** Prove [Forall P [s1; ...; sn]] by running [tac] on each [P si]. *)
Ltac each_stmt tac :=
  repeat first [ apply Forall_nil | apply Forall_cons; [ solve [tac] | ] ].

Lemma pack_trait_same_prefix (a offset : nat) (t : CharacterTrait) :
  (a <=? offset)%nat = true ->
  respects (same_prefix a) (Hero.pack_trait offset t).
Proof.
  intros Ha. apply Nat.leb_le in Ha. unfold Hero.pack_trait.
  apply run_same_prefix.
  each_stmt ltac:(apply setitem_same_prefix; apply Nat.leb_le; lia).
Qed.

Lemma pack_trait_same_suffix (b offset : nat) (t : CharacterTrait) :
  (offset + 3 <=? b)%nat = true ->
  respects (same_suffix b) (Hero.pack_trait offset t).
Proof.
  intros Hb. apply Nat.leb_le in Hb. unfold Hero.pack_trait.
  apply run_same_suffix.
  each_stmt ltac:(apply setitem_same_suffix; apply Nat.ltb_lt; lia).
Qed.

Lemma pack_trait_uniform (offset : nat) (t : CharacterTrait) :
  (offset + 3 <=? CHR_SIZE)%nat = true ->
  uniform (Hero.pack_trait offset t).
Proof.
  intros Hb. apply Nat.leb_le in Hb. unfold Hero.pack_trait.
  apply run_uniform.
  - each_stmt ltac:(apply setitem_uniform; apply Nat.ltb_lt; lia).
  - each_stmt ltac:(apply (respects_prefix_grows 0);
                    apply setitem_same_prefix; reflexivity).
Qed.
(** ** The field writes of [to_bytes] on an arbitrary hero *)

Lemma field_stmts_same_prefix_0 (h : Hero.t) :
  Forall (respects (same_prefix 0)) (Hero.field_stmts h).
Proof.
  unfold Hero.field_stmts.
  each_stmt ltac:(first
    [ apply setitem_same_prefix; reflexivity
    | apply pack_into_same_prefix; reflexivity
    | apply pack_trait_same_prefix; reflexivity
    | apply (name_stmt_same_prefix 0 0 16); reflexivity
    | apply (name_stmt_same_prefix 0 16 32); reflexivity ]).
Qed.

Lemma field_stmts_grows (h : Hero.t) :
  Forall (respects grows) (Hero.field_stmts h).
Proof.
  eapply Forall_impl; [| apply field_stmts_same_prefix_0].
  intros s. apply respects_prefix_grows.
Qed.

Lemma field_stmts_uniform (h : Hero.t) :
  Forall uniform (Hero.field_stmts h).
Proof.
  unfold Hero.field_stmts.
  each_stmt ltac:(first
    [ apply setitem_uniform; reflexivity
    | apply pack_into_uniform; reflexivity
    | apply pack_trait_uniform; reflexivity
    | apply setslice_stmt_uniform ]).
Qed.

Lemma field_stmts_after_name (h : Hero.t) :
  Forall (respects (same_prefix 16)) (tl (Hero.field_stmts h)).
Proof.
  unfold Hero.field_stmts. cbn [tl].
  each_stmt ltac:(first
    [ apply setitem_same_prefix; reflexivity
    | apply pack_into_same_prefix; reflexivity
    | apply pack_trait_same_prefix; reflexivity
    | apply (name_stmt_same_prefix 16 16 32); reflexivity ]).
Qed.

Lemma field_stmts_below_portrait (h : Hero.t) :
  (length (Hero.name h) <= 16)%nat -> (length (Hero.name2 h) <= 16)%nat ->
  Forall (respects (same_suffix 139)) (Hero.field_stmts h).
Proof.
  intros H1 H2. unfold Hero.field_stmts.
  each_stmt ltac:(first
    [ apply setitem_same_suffix; reflexivity
    | apply pack_into_same_suffix; reflexivity
    | apply pack_trait_same_suffix; reflexivity
    | apply (name_stmt_same_suffix 139 0 16); try reflexivity; assumption
    | apply (name_stmt_same_suffix 139 16 32); try reflexivity; assumption ]).
Qed.

Lemma to_bytes_run (h : Hero.t) :
  Hero.to_bytes h
  = (d <- run (Hero.field_stmts h) (bytearray CHR_SIZE) ;; Ok (finish h d)).
Proof.
  unfold Hero.to_bytes. rewrite run_app.
  destruct (run (Hero.field_stmts h) (bytearray CHR_SIZE)) as [d |];
    [| reflexivity].
  cbn [bind run]. unfold Hero.portrait_stmt, Hero.tail_stmt, finish.
  destruct (length (Hero.portrait h) =? 1024)%nat; reflexivity.
Qed.

(** [to_bytes] succeeds exactly when each field write, taken alone,
    succeeds. *)
Lemma to_bytes_is_ok (h : Hero.t) :
  is_ok (Hero.to_bytes h) = forallb stmt_ok (Hero.field_stmts h).
Proof.
  rewrite to_bytes_run.
  rewrite <- (run_uniform_ok _ (field_stmts_uniform h) (field_stmts_grows h)
                (bytearray CHR_SIZE))
    by (rewrite bytearray_length; lia).
  destruct (run (Hero.field_stmts h) (bytearray CHR_SIZE)); reflexivity.
Qed.

Lemma to_bytes_fields_ok (h : Hero.t) :
  forallb stmt_ok (Hero.field_stmts h) = true ->
  exists d, run (Hero.field_stmts h) (bytearray CHR_SIZE) = Ok d
            /\ (CHR_SIZE <= length d)%nat
            /\ Hero.to_bytes h = Ok (finish h d).
Proof.
  intros Hok. rewrite <- to_bytes_is_ok, to_bytes_run in Hok.
  destruct (run (Hero.field_stmts h) (bytearray CHR_SIZE)) as [d |] eqn:E;
    [| discriminate Hok].
  exists d. split; [reflexivity |]. split.
  - pose proof (run_grows _ (field_stmts_grows h) (bytearray CHR_SIZE) d) as G.
    rewrite bytearray_length in G. apply G; [lia | exact E].
  - rewrite to_bytes_run, E. reflexivity.
Qed.

(** ** The portrait and tail writes *)

Lemma setslice_portrait (d p : bytes) :
  (1163 <= length d)%nat ->
  setslice d 139 (139 + 1024) p = firstn 139 d ++ p ++ skipn 1163 d.
Proof.
  intros Hd. change 139 with (Z.of_nat 139) at 1.
  change (139 + 1024) with (Z.of_nat 1163).
  unfold setslice. rewrite !slice_index_nat.
  rewrite !Nat.min_l, Nat.max_r by lia. reflexivity.
Qed.

Lemma setslice_tail (d t : bytes) :
  (1163 <= length d)%nat ->
  setslice d (139 + 1024) (139 + 1024 + Z.of_nat (length t)) t
  = firstn 1163 d ++ t ++ skipn (1163 + length t) d.
Proof.
  intros Hd. change (139 + 1024) with (Z.of_nat 1163).
  rewrite <- Nat2Z.inj_add.
  unfold setslice. rewrite !slice_index_nat.
  rewrite (Nat.min_l 1163) by lia. do 2 f_equal.
  destruct (Nat.le_ge_cases (1163 + length t) (length d)).
  - rewrite Nat.min_l, Nat.max_r by lia. reflexivity.
  - rewrite Nat.min_r, Nat.max_r by lia. now rewrite !skipn_all2 by lia.
Qed.

Lemma after_portrait (h : Hero.t) (d : bytes) :
  (1163 <= length d)%nat ->
  let d1 := if (length (Hero.portrait h) =? 1024)%nat
            then setslice d 139 (139 + 1024) (Hero.portrait h)
            else d in
  length d1 = length d /\ firstn 139 d1 = firstn 139 d.
Proof.
  intros Hd. cbv zeta.
  destruct (Nat.eqb_spec (length (Hero.portrait h)) 1024) as [E | E];
    [| split; reflexivity].
  rewrite setslice_portrait by exact Hd. split.
  - rewrite !length_app, length_firstn, length_skipn. lia.
  - apply firstn_app_exact. rewrite length_firstn. lia.
Qed.

Lemma finish_length (h : Hero.t) (d : bytes) :
  (1163 <= length d)%nat ->
  length (finish h d)
  = Nat.max (length d) (1163 + length (Hero.unknown_tail h)).
Proof.
  intros Hd. unfold finish.
  destruct (after_portrait h d Hd) as [L _]. cbv zeta in L.
  rewrite setslice_tail by lia.
  rewrite !length_app, length_firstn, length_skipn. lia.
Qed.

Lemma finish_tail (h : Hero.t) (d : bytes) :
  (1163 <= length d)%nat ->
  firstn (length (Hero.unknown_tail h)) (skipn 1163 (finish h d))
  = Hero.unknown_tail h.
Proof.
  intros Hd. unfold finish.
  destruct (after_portrait h d Hd) as [L _]. cbv zeta in L.
  rewrite setslice_tail by lia.
  replace 1163%nat with (1163 + 0)%nat at 1 by reflexivity.
  rewrite skipn_app_exact by (rewrite length_firstn; lia).
  cbn [skipn]. now apply firstn_app_exact.
Qed.

Lemma finish_prefix (h : Hero.t) (d : bytes) (a : nat) :
  (1163 <= length d)%nat -> (a <= 139)%nat ->
  firstn a (finish h d) = firstn a d.
Proof.
  intros Hd Ha. unfold finish.
  destruct (after_portrait h d Hd) as [L P]. cbv zeta in L, P.
  rewrite setslice_tail by lia.
  rewrite firstn_app, length_firstn, Nat.min_l by lia.
  replace (a - 1163)%nat with 0%nat by lia. rewrite firstn_O, app_nil_r.
  rewrite firstn_firstn, Nat.min_l by lia.
  transitivity (firstn a (firstn 139 d)).
  - rewrite <- P. rewrite firstn_firstn. f_equal. lia.
  - rewrite firstn_firstn. f_equal. lia.
Qed.

Lemma finish_portrait_skipped (h : Hero.t) (d : bytes) :
  (1163 <= length d)%nat ->
  length (Hero.portrait h) <> 1024%nat ->
  firstn 1024 (skipn 139 (finish h d)) = firstn 1024 (skipn 139 d).
Proof.
  intros Hd Hp. unfold finish.
  destruct (Nat.eqb_spec (length (Hero.portrait h)) 1024) as [E | _];
    [contradiction |].
  rewrite setslice_tail by exact Hd.
  rewrite skipn_app, length_firstn, Nat.min_l by lia.
  change (139 - 1163)%nat with 0%nat. rewrite skipn_O.
  rewrite firstn_app, length_skipn, length_firstn, Nat.min_l by lia.
  change (1024 - (1163 - 139))%nat with 0%nat. rewrite firstn_O.
  rewrite app_nil_r, skipn_firstn_comm, firstn_firstn.
  reflexivity.
Qed.
(** ** Encoding heroes that no record decodes to *)

(** C3 (as amended): [Hero.to_bytes] does not reject a portrait that is not
    exactly 1024 bytes long; it skips the portrait write.  When each field
    write succeeds and both names have at most 16 characters, it returns a
    buffer whose bytes 139..1162 are null. *)
Theorem portrait_size_not_checked (h : Hero.t) :
  length (Hero.portrait h) <> 1024%nat ->
  (length (Hero.name h) <= 16)%nat ->
  (length (Hero.name2 h) <= 16)%nat ->
  forallb stmt_ok (Hero.field_stmts h) = true ->
  exists out,
    Hero.to_bytes h = Ok out
    /\ firstn 1024 (skipn 139 out) = repeat x00 1024.
Proof.
  intros Hp Hn1 Hn2 Hok.
  destruct (to_bytes_fields_ok h Hok) as (d & Hd & Hlen & Hto).
  exists (finish h d). split; [exact Hto |].
  pose proof (run_same_suffix 139 _ (field_stmts_below_portrait h Hn1 Hn2)
                (bytearray CHR_SIZE) d) as S.
  rewrite bytearray_length in S. destruct (S (Nat.le_refl _) Hd) as [Hs Hl].
  unfold CHR_SIZE in Hlen.
  rewrite finish_portrait_skipped by (assumption || lia).
  rewrite Hs. reflexivity.
Qed.

Lemma portrait_size_not_checked_witness :
  exists out,
    Hero.to_bytes (blank_hero [] [] [x01; x02] (repeat x00 591)) = Ok out
    /\ firstn 1024 (skipn 139 out) = repeat x00 1024.
Proof.
  apply (portrait_size_not_checked
           (blank_hero [] [] [x01; x02] (repeat x00 591))).
  - cbn. lia.
  - cbn. lia.
  - cbn. lia.
  - vm_compute. reflexivity.
Defined.

(** C3 as stated fails: a hero with a two-byte portrait is encoded, with
    no error, into 1754 null bytes. *)
Lemma portrait_size_accepted :
  length (Hero.portrait (blank_hero [] [] [x01; x02] (repeat x00 591)))
  <> 1024%nat
  /\ Hero.to_bytes (blank_hero [] [] [x01; x02] (repeat x00 591))
     = Ok (repeat x00 1754).
Proof.
  split; [cbn; lia | vm_compute; reflexivity].
Qed.

Lemma field_stmts_head (h : Hero.t) :
  Hero.field_stmts h
  = setslice_stmt 0 16
      (bs <- encode_latin1 (Hero.name h) ;; Ok (ljust 16 bs))
      :: tl (Hero.field_stmts h).
Proof. reflexivity. Qed.

Lemma name_stmt_ok (h : Hero.t) (bs : bytes) :
  encode_latin1 (Hero.name h) = Ok bs ->
  forallb stmt_ok (tl (Hero.field_stmts h)) = true ->
  forallb stmt_ok (Hero.field_stmts h) = true.
Proof.
  intros Hbs Hok. rewrite field_stmts_head. cbn [forallb].
  rewrite Hok, andb_true_r.
  unfold stmt_ok, setslice_stmt. rewrite Hbs. reflexivity.
Qed.

(** C4 (as amended): [Hero.to_bytes] does not reject a name that encodes
    to more than 16 bytes: it has no length check.  When each of the other
    writes succeeds, it returns a buffer, whose first 16 bytes are the
    first 16 bytes of the encoded name. *)
Theorem long_name_not_rejected (h : Hero.t) (bs : bytes) :
  encode_latin1 (Hero.name h) = Ok bs ->
  (16 < length bs)%nat ->
  forallb stmt_ok (tl (Hero.field_stmts h)) = true ->
  exists out,
    Hero.to_bytes h = Ok out
    /\ firstn 16 out = firstn 16 bs.
Proof.
  intros Hbs Hlong Hrest.
  pose proof (name_stmt_ok h bs Hbs Hrest) as Hok.
  destruct (to_bytes_fields_ok h Hok) as (d & Hd & Hlen & Hto).
  exists (finish h d). split; [exact Hto |].
  rewrite field_stmts_head, run_cons in Hd.
  unfold setslice_stmt at 1 in Hd. rewrite Hbs in Hd. cbn [bind] in Hd.
  assert (Hl : ljust 16 bs = bs).
  { unfold ljust. replace (16 - length bs)%nat with 0%nat by lia.
    apply app_nil_r. }
  rewrite Hl in Hd.
  assert (Hd1 : setslice (bytearray CHR_SIZE) 0 16 bs
                = bs ++ skipn 16 (bytearray CHR_SIZE)) by reflexivity.
  rewrite Hd1 in Hd.
  assert (L1 : length (bs ++ skipn 16 (bytearray CHR_SIZE))
               = (CHR_SIZE + (length bs - 16))%nat).
  { rewrite length_app, length_skipn, bytearray_length. unfold CHR_SIZE. lia. }
  destruct (run_same_prefix 16 _ (field_stmts_after_name h) _ d
              ltac:(rewrite L1; lia) Hd) as [P G].
  unfold CHR_SIZE in *.
  rewrite finish_prefix by lia.
  rewrite P, firstn_app. replace (16 - length bs)%nat with 0%nat by lia.
  rewrite firstn_O. apply app_nil_r.
Qed.

Lemma long_name_not_rejected_witness :
  exists out,
    Hero.to_bytes
      (blank_hero (repeat 65%N 17) [] (repeat x00 1024) (repeat x00 591))
    = Ok out
    /\ firstn 16 out = firstn 16 (repeat x41 17).
Proof.
  apply (long_name_not_rejected
           (blank_hero (repeat 65%N 17) [] (repeat x00 1024) (repeat x00 591))
           (repeat x41 17)).
  - reflexivity.
  - cbn. lia.
  - vm_compute. reflexivity.
Defined.

(** C4 as stated fails: a hero whose name is seventeen letters "A" is
    encoded, with no error, into 1755 bytes that hold only sixteen of
    them. *)
Lemma long_name_accepted :
  encode_latin1 (repeat 65%N 17) = Ok (repeat x41 17)
  /\ Hero.to_bytes
       (blank_hero (repeat 65%N 17) [] (repeat x00 1024) (repeat x00 591))
     = Ok (repeat x41 16 ++ repeat x00 1739).
Proof.
  split; vm_compute; reflexivity.
Qed.

Lemma skipn_bytearray (n k : nat) :
  skipn k (bytearray n) = repeat x00 (n - k).
Proof.
  unfold bytearray. revert k. induction n as [| n IH]; intros k.
  - now rewrite skipn_nil.
  - destruct k as [| k]; [reflexivity |]. cbn [repeat skipn]. apply IH.
Qed.

Lemma finish_after_tail (h : Hero.t) (d : bytes) :
  (1163 <= length d)%nat ->
  skipn (1163 + length (Hero.unknown_tail h)) (finish h d)
  = skipn (1163 + length (Hero.unknown_tail h)) d.
Proof.
  intros Hd. unfold finish.
  destruct (after_portrait h d Hd) as [L _]. cbv zeta in L.
  rewrite setslice_tail by lia.
  rewrite skipn_app_exact by (rewrite length_firstn; lia).
  rewrite <- (Nat.add_0_r (length (Hero.unknown_tail h))) at 1.
  rewrite skipn_app_exact by reflexivity. rewrite skipn_O.
  destruct (Nat.eqb_spec (length (Hero.portrait h)) 1024) as [E | _];
    [| reflexivity].
  rewrite setslice_portrait by exact Hd.
  rewrite (Nat.add_comm 1163), <- !skipn_skipn. f_equal.
  change 1163%nat with (139 + 1024)%nat at 1.
  rewrite skipn_app_exact by (rewrite length_firstn; lia).
  rewrite <- (Nat.add_0_r 1024) at 1.
  rewrite skipn_app_exact by exact E. apply skipn_O.
Qed.

(** C5 (as amended): [Hero.to_bytes] does not check the length of
    [unknown_tail].  When each field write succeeds it returns a buffer
    that holds [unknown_tail] verbatim from offset 1163 on; with names of at
    most 16 characters the buffer has 1754 bytes when the tail has at most
    591, and ends with the tail otherwise, and the bytes that follow a
    shorter tail are null. *)
Theorem unknown_tail_length_not_checked (h : Hero.t) :
  forallb stmt_ok (Hero.field_stmts h) = true ->
  exists out,
    Hero.to_bytes h = Ok out
    /\ firstn (length (Hero.unknown_tail h)) (skipn 1163 out)
       = Hero.unknown_tail h
    /\ ((length (Hero.name h) <= 16)%nat ->
        (length (Hero.name2 h) <= 16)%nat ->
        length out
        = Nat.max CHR_SIZE (1163 + length (Hero.unknown_tail h))
        /\ skipn (1163 + length (Hero.unknown_tail h)) out
           = repeat x00 (CHR_SIZE - (1163 + length (Hero.unknown_tail h)))).
Proof.
  intros Hok.
  destruct (to_bytes_fields_ok h Hok) as (d & Hd & Hlen & Hto).
  exists (finish h d). split; [exact Hto |].
  unfold CHR_SIZE in Hlen. split.
  - apply finish_tail. lia.
  - intros Hn1 Hn2.
    pose proof (run_same_suffix 139 _ (field_stmts_below_portrait h Hn1 Hn2)
                  (bytearray CHR_SIZE) d) as S.
    rewrite bytearray_length in S. destruct (S (Nat.le_refl _) Hd) as [Hs Hl].
    split.
    + rewrite finish_length by lia. now rewrite Hl.
    + rewrite finish_after_tail by lia.
      replace (1163 + length (Hero.unknown_tail h))%nat
        with (1024 + length (Hero.unknown_tail h) + 139)%nat by lia.
      rewrite <- skipn_skipn, Hs, skipn_skipn. apply skipn_bytearray.
Qed.

Lemma unknown_tail_length_not_checked_witness :
  exists out,
    Hero.to_bytes (blank_hero [] [] (repeat x00 1024) [x07]) = Ok out
    /\ firstn 1 (skipn 1163 out) = [x07]
    /\ ((0 <= 16)%nat -> (0 <= 16)%nat ->
        length out = Nat.max CHR_SIZE (1163 + 1)
        /\ skipn (1163 + 1) out = repeat x00 (CHR_SIZE - (1163 + 1))).
Proof.
  apply (unknown_tail_length_not_checked
           (blank_hero [] [] (repeat x00 1024) [x07])).
  vm_compute. reflexivity.
Defined.

(** C5 as stated fails: a hero whose [unknown_tail] is the single byte 7 is
    encoded with no error; the byte lands at offset 1163 and null bytes
    follow it. *)
Lemma short_tail_accepted :
  length (Hero.unknown_tail (blank_hero [] [] (repeat x00 1024) [x07]))
  <> 591%nat
  /\ Hero.to_bytes (blank_hero [] [] (repeat x00 1024) [x07])
     = Ok (repeat x00 1163 ++ [x07] ++ repeat x00 590).
Proof.
  split; [cbn; lia | vm_compute; reflexivity].
Qed.

(** ** The container codec *)

Lemma for_in_collect {A B : Type} (f : A -> result B) (xs : list A)
      (acc : list B) :
  for_in xs (fun x ys => y <- f x ;; Ok (ys ++ [y])) acc
  = (ys <- traverse f xs ;; Ok (acc ++ ys)).
Proof.
  revert acc. induction xs as [| x xs IH]; intros acc.
  - cbn [for_in traverse bind]. now rewrite app_nil_r.
  - cbn [for_in traverse]. destruct (f x) as [y |]; [| reflexivity].
    cbn [bind]. rewrite IH. destruct (traverse f xs) as [ys |]; [| reflexivity].
    cbn [bind]. now rewrite <- app_assoc.
Qed.

Lemma traverse_ok {A B : Type} (f : A -> result B) (xs : list A)
      (ys : list B) :
  traverse f xs = Ok ys -> Forall2 (fun x y => f x = Ok y) xs ys.
Proof.
  revert ys. induction xs as [| x xs IH]; intros ys H.
  - cbn in H. apply Ok_inj in H. subst ys. constructor.
  - cbn [traverse] in H. destruct (f x) as [y |] eqn:E; [| discriminate H].
    destruct (traverse f xs) as [ys' |]; [| discriminate H].
    cbn [bind] in H. apply Ok_inj in H. subst ys.
    constructor; [exact E | now apply IH].
Qed.

Lemma traverse_raise {A B : Type} (f : A -> result B) (xs : list A) (e : exn) :
  traverse f xs = Raise e -> exists x, In x xs /\ f x = Raise e.
Proof.
  induction xs as [| x xs IH]; [discriminate |].
  cbn [traverse]. destruct (f x) as [y |] eqn:E.
  - cbn [bind]. destruct (traverse f xs) as [ys |]; [discriminate |].
    cbn [bind]. intros H. destruct (IH H) as (x' & Hin & Hx').
    exists x'. split; [now right | exact Hx'].
  - cbn [bind]. intros H. exists x. split; [now left | congruence].
Qed.

Lemma traverse_ext {A B : Type} (f g : A -> result B) (xs : list A) :
  Forall (fun x => f x = g x) xs -> traverse f xs = traverse g xs.
Proof.
  induction 1 as [| x xs Hx _ IH]; [reflexivity |].
  cbn [traverse]. now rewrite Hx, IH.
Qed.

Lemma traverse_map {A B C : Type} (g : A -> B) (f : B -> result C)
      (xs : list A) :
  traverse f (map g xs) = traverse (fun x => f (g x)) xs.
Proof.
  induction xs as [| x xs IH]; [reflexivity |].
  cbn [map traverse]. now rewrite IH.
Qed.

(** [from_file] in terms of the windows it decodes. *)
Lemma from_file_windows (data : bytes) :
  SaveGame.from_file data
  = (off <- unpack_from Fmt_i data 16 ;;
     hs <- traverse (fun i => Hero.from_bytes (hero_window data off i))
             (py_range ((Z.of_nat (length data) - off) / Z.of_nat CHR_SIZE)) ;;
     Ok {| SaveGame.version_header := getslice data 0 16;
           SaveGame.chr_offset := off;
           SaveGame.metadata := getslice data 20 30;
           SaveGame.pre_hero_data := getslice data 20 off;
           SaveGame.heroes := hs |}).
Proof.
  unfold SaveGame.from_file.
  destruct (unpack_from Fmt_i data 16) as [off |]; [| reflexivity].
  cbn [bind]. rewrite for_in_collect. unfold hero_window.
  destruct (traverse _ _); reflexivity.
Qed.

Lemma getslice_length_le (data : bytes) (lo : Z) (n : nat) :
  (length (getslice data lo (lo + Z.of_nat n)) <= n)%nat.
Proof.
  unfold getslice, slice_index. rewrite length_firstn, length_skipn.
  destruct (Z.ltb_spec lo 0), (Z.ltb_spec (lo + Z.of_nat n) 0); lia.
Qed.

Lemma hero_window_decoded (data : bytes) (off i : Z) (h : Hero.t) :
  Hero.from_bytes (hero_window data off i) = Ok h ->
  length (hero_window data off i) = CHR_SIZE
  /\ length (Hero.portrait h) = 1024%nat
  /\ length (Hero.unknown_tail h) = 591%nat.
Proof.
  intros H. destruct (from_bytes_lengths _ h H) as [Hp Ht].
  destruct (from_bytes_blobs _ h H) as (Hge & _).
  pose proof (getslice_length_le data (off + i * Z.of_nat CHR_SIZE) CHR_SIZE)
    as Hle.
  fold (hero_window data off i) in Hle.
  assert (E : length (hero_window data off i) = CHR_SIZE) by lia.
  rewrite E in Ht. split; [exact E | split; [exact Hp | exact Ht]].
Qed.

Lemma from_file_heroes (data : bytes) (sg : SaveGame.t) :
  SaveGame.from_file data = Ok sg ->
  Forall (fun h => length (Hero.portrait h) = 1024%nat
                   /\ length (Hero.unknown_tail h) = 591%nat)
         (SaveGame.heroes sg).
Proof.
  rewrite from_file_windows.
  destruct (unpack_from Fmt_i data 16) as [off |]; [| discriminate].
  cbn [bind]. destruct (traverse _ _) as [hs |] eqn:E; [| discriminate].
  cbn [bind]. intros H. apply Ok_inj in H. subst sg. cbn [SaveGame.heroes].
  apply traverse_ok in E.
  induction E as [| i h is_ hs Hi _ IH]; constructor; [| exact IH].
  destruct (hero_window_decoded data off i h Hi) as (_ & Hp & Ht). now split.
Qed.

(** C10: [Hero.from_bytes] succeeds on every buffer of at least 1754
    bytes, whatever the bytes are, and the decoded hero has a portrait of
    1024 bytes and an [unknown_tail] of [len(buffer) - 1163] bytes; every
    hero that [SaveGame.from_file] decodes has a portrait of 1024 bytes and
    an [unknown_tail] of 591 bytes. *)
Theorem decode_total_with_lengths (B data : bytes) (sg : SaveGame.t) :
  (CHR_SIZE <= length B)%nat ->
  SaveGame.from_file data = Ok sg ->
  (exists h, Hero.from_bytes B = Ok h
             /\ length (Hero.portrait h) = 1024%nat
             /\ length (Hero.unknown_tail h) = (length B - 1163)%nat)
  /\ Forall (fun h => length (Hero.portrait h) = 1024%nat
                      /\ length (Hero.unknown_tail h) = 591%nat)
            (SaveGame.heroes sg).
Proof.
  intros HB Hsg. split.
  - destruct (from_bytes_total B HB) as [h Hh]. exists h.
    split; [exact Hh | exact (from_bytes_lengths B h Hh)].
  - exact (from_file_heroes data sg Hsg).
Qed.
Lemma decode_total_with_lengths_witness :
  exists sg,
    SaveGame.from_file sample_file = Ok sg
    /\ (exists h, Hero.from_bytes (sample_record ++ [x07]) = Ok h
                  /\ length (Hero.portrait h) = 1024%nat
                  /\ length (Hero.unknown_tail h)
                     = (length (sample_record ++ [x07]) - 1163)%nat)
    /\ Forall (fun h => length (Hero.portrait h) = 1024%nat
                        /\ length (Hero.unknown_tail h) = 591%nat)
              (SaveGame.heroes sg).
Proof.
  destruct (SaveGame.from_file sample_file) as [sg |] eqn:E;
    [| vm_compute in E; discriminate E].
  exists sg. split; [reflexivity |].
  apply (decode_total_with_lengths (sample_record ++ [x07]) sample_file sg);
    [vm_compute; lia | exact E].
Defined.

(** C6: [Hero.from_bytes] raises its "Hero data too small" [ValueError] on
    every buffer shorter than 1754 bytes, and [SaveGame.from_file] raises
    [struct.error], from reading [chr_offset] at byte 16, on every file
    shorter than 20 bytes. *)
Theorem truncation_detected (record file : bytes) :
  (length record < CHR_SIZE)%nat ->
  (length file < 20)%nat ->
  Hero.from_bytes record = Raise (ValueError_HeroDataTooSmall (length record))
  /\ SaveGame.from_file file = Raise StructError.
Proof.
  intros Hr Hf. split; [exact (from_bytes_short record Hr) |].
  unfold SaveGame.from_file, unpack_from. cbn [calcsize].
  destruct (Nat.leb_spec (16 + 4) (length file)); [lia | reflexivity].
Qed.

Lemma truncation_detected_witness :
  Hero.from_bytes (repeat x01 1000)
  = Raise (ValueError_HeroDataTooSmall (length (repeat x01 1000)))
  /\ SaveGame.from_file (repeat x01 10) = Raise StructError.
Proof.
  apply (truncation_detected (repeat x01 1000) (repeat x01 10));
    vm_compute; lia.
Defined.
(** ** Files whose [chr_offset] lies inside the file *)

Lemma from_bytes_raise (data : bytes) (e : exn) :
  Hero.from_bytes data = Raise e ->
  e = ValueError_HeroDataTooSmall (length data).
Proof.
  intros H. destruct (Nat.lt_ge_cases (length data) CHR_SIZE) as [Hlt | Hge].
  - rewrite (from_bytes_short data Hlt) in H. congruence.
  - destruct (from_bytes_total data Hge) as [h Hh]. congruence.
Qed.

Lemma hero_window_record_at (data : bytes) (o k : nat) :
  (o + (k + 1) * CHR_SIZE <= length data)%nat ->
  hero_window data (Z.of_nat o) (Z.of_nat k) = record_at data o k.
Proof.
  intros H. unfold hero_window, record_at.
  rewrite (getslice_at data _ _ (o + k * CHR_SIZE)
             (o + k * CHR_SIZE + CHR_SIZE)); [| lia | lia | lia].
  f_equal. lia.
Qed.

Lemma record_at_length (data : bytes) (o k : nat) :
  (o + (k + 1) * CHR_SIZE <= length data)%nat ->
  length (record_at data o k) = CHR_SIZE.
Proof.
  intros H. unfold record_at. rewrite length_firstn, length_skipn. lia.
Qed.

Lemma record_at_firstn (data : bytes) (o k m : nat) :
  (o + (k + 1) * CHR_SIZE <= m)%nat ->
  record_at (firstn m data) o k = record_at data o k.
Proof.
  intros H. unfold record_at.
  rewrite skipn_firstn_comm, firstn_firstn. f_equal. lia.
Qed.

Lemma windows_decode (data : bytes) (o n : nat) :
  (o + n * CHR_SIZE <= length data)%nat ->
  exists hs,
    traverse Hero.from_bytes (map (record_at data o) (seq 0 n)) = Ok hs
    /\ Forall2 (fun w h => length w = CHR_SIZE /\ Hero.from_bytes w = Ok h)
               (map (record_at data o) (seq 0 n)) hs.
Proof.
  intros H.
  assert (Hall : Forall (fun w => length w = CHR_SIZE)
                        (map (record_at data o) (seq 0 n))).
  { apply Forall_forall. intros w Hw. apply in_map_iff in Hw.
    destruct Hw as (k & <- & Hk). apply in_seq in Hk.
    apply record_at_length. nia. }
  revert Hall. generalize (map (record_at data o) (seq 0 n)) as ws.
  induction ws as [| w ws IH]; intros Hall.
  - exists []. split; [reflexivity | constructor].
  - inversion Hall as [| ? ? Hw Hws]; subst.
    destruct (IH Hws) as (hs & Ht & Hf).
    destruct (from_bytes_total w) as [h Hh]; [lia |].
    exists (h :: hs). split.
    + cbn [traverse]. now rewrite Hh, Ht.
    + constructor; [now split | exact Hf].
Qed.

Lemma record_count (len o : nat) :
  (o <= len)%nat ->
  let n := Z.to_nat ((Z.of_nat len - Z.of_nat o) / Z.of_nat CHR_SIZE) in
  (o + n * CHR_SIZE <= len)%nat /\ (len < o + (n + 1) * CHR_SIZE)%nat.
Proof.
  intros H n.
  assert (Hc : 0 < Z.of_nat CHR_SIZE) by (unfold CHR_SIZE; lia).
  pose proof (Z.mul_div_le (Z.of_nat len - Z.of_nat o) _ Hc) as H1.
  pose proof (Z.mul_succ_div_gt (Z.of_nat len - Z.of_nat o) _ Hc) as H2.
  assert (H0 : 0 <= (Z.of_nat len - Z.of_nat o) / Z.of_nat CHR_SIZE)
    by (apply Z.div_pos; lia).
  subst n. unfold CHR_SIZE in *. split; nia.
Qed.

Lemma from_file_inside (data : bytes) (off : Z) (o : nat) :
  unpack_from Fmt_i data 16 = Ok off ->
  off = Z.of_nat o -> (o <= length data)%nat ->
  let n := Z.to_nat ((Z.of_nat (length data) - off) / Z.of_nat CHR_SIZE) in
  exists hs,
    SaveGame.from_file data
    = Ok {| SaveGame.version_header := getslice data 0 16;
            SaveGame.chr_offset := off;
            SaveGame.metadata := getslice data 20 30;
            SaveGame.pre_hero_data := getslice data 20 off;
            SaveGame.heroes := hs |}
    /\ Forall2 (fun w h => length w = CHR_SIZE /\ Hero.from_bytes w = Ok h)
               (map (record_at data o) (seq 0 n)) hs.
Proof.
  intros Hu -> Ho n.
  destruct (record_count (length data) o Ho) as [Hn _]. fold n in Hn.
  destruct (windows_decode data o n Hn) as (hs & Ht & Hf).
  exists hs. split; [| exact Hf].
  rewrite from_file_windows, Hu. cbn [bind].
  unfold py_range. fold n. rewrite traverse_map.
  rewrite (traverse_ext _ (fun k => Hero.from_bytes (record_at data o k))).
  - rewrite <- (traverse_map (record_at data o) Hero.from_bytes), Ht.
    reflexivity.
  - apply Forall_forall. intros k Hk. apply in_seq in Hk.
    rewrite hero_window_record_at; [reflexivity | nia].
Qed.
Lemma getslice_header (data : bytes) :
  (16 <= length data)%nat -> getslice data 0 16 = firstn 16 data.
Proof.
  intros H. now rewrite (getslice_at data 0 16 0 16 eq_refl eq_refl) by lia.
Qed.

Lemma py_range_length (n : Z) : Z.of_nat (length (py_range n)) = Z.max 0 n.
Proof. unfold py_range. rewrite length_map, length_seq. lia. Qed.

Lemma from_file_nonneg_offset (data : bytes) (off : Z) :
  unpack_from Fmt_i data 16 = Ok off -> 0 <= off ->
  exists sg, SaveGame.from_file data = Ok sg.
Proof.
  intros Hu Hoff.
  destruct (Z.le_gt_cases off (Z.of_nat (length data))) as [Hle | Hgt].
  - destruct (from_file_inside data off (Z.to_nat off) Hu) as (hs & Hf & _);
      [lia | lia |].
    eexists. exact Hf.
  - rewrite from_file_windows, Hu. cbn [bind].
    assert (Hneg : (Z.of_nat (length data) - off) / Z.of_nat CHR_SIZE < 0)
      by (apply Z.div_lt_upper_bound; unfold CHR_SIZE; lia).
    unfold py_range.
    replace (Z.to_nat ((Z.of_nat (length data) - off) / Z.of_nat CHR_SIZE))
      with 0%nat by lia.
    cbn [seq map traverse bind]. eexists. reflexivity.
Qed.

Lemma pre_hero_data_out_of_bounds (data : bytes) (off : Z) :
  0 <= off -> off < 20 \/ Z.of_nat (length data) < off ->
  getslice data 20 off = if off <? 20 then [] else skipn 20 data.
Proof.
  intros H0 Hoff. unfold getslice. change 20 with (Z.of_nat 20) at 1 2.
  rewrite slice_index_nat.
  destruct (Z.ltb_spec off 20) as [Hlt | Hge].
  - replace off with (Z.of_nat (Z.to_nat off)) by lia.
    rewrite slice_index_nat.
    replace (Nat.min (Z.to_nat off) (length data)
             - Nat.min 20 (length data))%nat with 0%nat by lia.
    reflexivity.
  - assert (Hs : slice_index (length data) off = length data)
      by (unfold slice_index; destruct (Z.ltb_spec off 0); lia).
    rewrite Hs. destruct (Nat.le_ge_cases 20 (length data)).
    + rewrite Nat.min_l by lia. apply firstn_all2. rewrite length_skipn. lia.
    + rewrite Nat.min_r, Nat.sub_diag by lia. cbn [firstn].
      symmetry. apply skipn_all2. lia.
Qed.

(** C7 (as amended): [SaveGame.from_file] checks no bound on [chr_offset].
    On a file of at least 20 bytes whose [chr_offset] is below 20 or beyond
    the file length, it fails only when [chr_offset] is negative, and then
    with the "Hero data too small" [ValueError] of [Hero.from_bytes].
    Otherwise it returns a SaveGame with [max 0 ((len - chr_offset) div
    1754)] heroes, whose [pre_hero_data] is the slice [data[20:chr_offset]]:
    empty when [0 <= chr_offset < 20], every byte from 20 on when
    [chr_offset] exceeds the file length. *)
Theorem chr_offset_not_checked (data : bytes) (off : Z) :
  (20 <= length data)%nat ->
  unpack_from Fmt_i data 16 = Ok off ->
  off < 20 \/ Z.of_nat (length data) < off ->
  match SaveGame.from_file data with
  | Ok sg =>
      SaveGame.version_header sg = firstn 16 data
      /\ SaveGame.chr_offset sg = off
      /\ SaveGame.metadata sg = getslice data 20 30
      /\ SaveGame.pre_hero_data sg
         = (if off <? 0 then getslice data 20 off
            else if off <? 20 then [] else skipn 20 data)
      /\ Z.of_nat (length (SaveGame.heroes sg))
         = Z.max 0 ((Z.of_nat (length data) - off) / Z.of_nat CHR_SIZE)
  | Raise e =>
      off < 0 /\ exists n, e = ValueError_HeroDataTooSmall n
  end.
Proof.
  intros Hlen Hu Hoff.
  destruct (SaveGame.from_file data) as [sg | e] eqn:Hf.
  - rewrite from_file_windows, Hu in Hf. cbn [bind] in Hf.
    destruct (traverse _ _) as [hs |] eqn:E; [| discriminate Hf].
    cbn [bind] in Hf. apply Ok_inj in Hf. subst sg.
    cbn [SaveGame.version_header SaveGame.chr_offset SaveGame.metadata
         SaveGame.pre_hero_data SaveGame.heroes].
    split; [apply getslice_header; lia |].
    split; [reflexivity |]. split; [reflexivity |]. split.
    + destruct (Z.ltb_spec off 0) as [Hneg | Hpos]; [reflexivity |].
      now apply pre_hero_data_out_of_bounds.
    + apply traverse_ok, Forall2_length in E. rewrite <- E.
      apply py_range_length.
  - assert (Hneg : off < 0).
    { destruct (Z.lt_ge_cases off 0) as [Hneg | Hpos]; [exact Hneg |].
      destruct (from_file_nonneg_offset data off Hu Hpos) as [sg Hsg].
      congruence. }
    split; [exact Hneg |].
    rewrite from_file_windows, Hu in Hf. cbn [bind] in Hf.
    destruct (traverse _ _) as [hs | e'] eqn:E; [discriminate Hf |].
    cbn [bind] in Hf. assert (e' = e) by congruence. subst e'.
    apply traverse_raise in E. destruct E as (i & _ & Hi).
    apply from_bytes_raise in Hi. eexists. exact Hi.
Qed.

Lemma chr_offset_not_checked_witness :
  match SaveGame.from_file (repeat x00 16 ++ [x64; x00; x00; x00; x2a]) with
  | Ok sg =>
      SaveGame.version_header sg
      = firstn 16 (repeat x00 16 ++ [x64; x00; x00; x00; x2a])
      /\ SaveGame.chr_offset sg = 100
      /\ SaveGame.metadata sg
         = getslice (repeat x00 16 ++ [x64; x00; x00; x00; x2a]) 20 30
      /\ SaveGame.pre_hero_data sg
         = (if 100 <? 0
            then getslice (repeat x00 16 ++ [x64; x00; x00; x00; x2a]) 20 100
            else if 100 <? 20 then []
                 else skipn 20 (repeat x00 16 ++ [x64; x00; x00; x00; x2a]))
      /\ Z.of_nat (length (SaveGame.heroes sg))
         = Z.max 0
             ((Z.of_nat (length (repeat x00 16 ++ [x64; x00; x00; x00; x2a]))
               - 100) / Z.of_nat CHR_SIZE)
  | Raise e =>
      100 < 0 /\ exists n, e = ValueError_HeroDataTooSmall n
  end.
Proof.
  apply (chr_offset_not_checked
           (repeat x00 16 ++ [x64; x00; x00; x00; x2a]) 100);
    [vm_compute; lia | reflexivity | right; vm_compute; reflexivity].
Defined.

(** C7 as stated fails: a 20-byte file whose [chr_offset] is 0, below 20,
    and a 20-byte file whose [chr_offset] is 100, beyond the end of the
    file, are both decoded with no error. *)
Lemma chr_offset_out_of_bounds_accepted :
  SaveGame.from_file (repeat x00 20)
  = Ok {| SaveGame.version_header := repeat x00 16;
          SaveGame.chr_offset := 0;
          SaveGame.metadata := [];
          SaveGame.pre_hero_data := [];
          SaveGame.heroes := [] |}
  /\ SaveGame.from_file (repeat x00 16 ++ [x64; x00; x00; x00])
     = Ok {| SaveGame.version_header := repeat x00 16;
             SaveGame.chr_offset := 100;
             SaveGame.metadata := [];
             SaveGame.pre_hero_data := [];
             SaveGame.heroes := [] |}.
Proof.
  split; vm_compute; reflexivity.
Qed.
(** ** Writing a decoded container back *)

Lemma save_heroes (ws : list bytes) (hs : list Hero.t) (file_data : bytes) :
  Forall2 (fun w h => length w = CHR_SIZE /\ Hero.from_bytes w = Ok h) ws hs ->
  for_in hs (fun hero fd => bs <- Hero.to_bytes hero ;; Ok (fd ++ bs)) file_data
  = Ok (file_data ++ concat (map canonical ws)).
Proof.
  intros H. revert file_data.
  induction H as [| w h ws hs [_ Hw] _ IH]; intros file_data.
  - cbn [for_in map concat]. now rewrite app_nil_r.
  - cbn [for_in map concat]. rewrite (to_bytes_decoded w h Hw). cbn [bind].
    rewrite IH. now rewrite <- app_assoc.
Qed.

Lemma canonical_windows_length (ws : list bytes) :
  Forall (fun w => length w = CHR_SIZE) ws ->
  length (concat (map canonical ws)) = (length ws * CHR_SIZE)%nat.
Proof.
  induction 1 as [| w ws Hw _ IH]; [reflexivity |].
  cbn [map concat length]. rewrite length_app, IH, canonical_length;
    [lia | unfold CHR_SIZE in Hw; lia].
Qed.

Lemma decoded_unique (ws : list bytes) (hs hs' : list Hero.t) :
  Forall2 (fun w h => length w = CHR_SIZE /\ Hero.from_bytes w = Ok h) ws hs ->
  Forall2 (fun w h => length w = CHR_SIZE /\ Hero.from_bytes w = Ok h) ws hs' ->
  hs = hs'.
Proof.
  intros H. revert hs'. induction H as [| w h ws hs [_ Hw] _ IH]; intros hs' H'.
  - now inversion H'.
  - inversion H' as [| ? h' ? hs'' [_ Hw'] Hrest]; subst.
    f_equal; [congruence | now apply IH].
Qed.

Lemma unpack_from_inv (f : fmt) (data : bytes) (off : nat) (v : Z) :
  unpack_from f data off = Ok v ->
  (off + calcsize f <= length data)%nat
  /\ v = unpack f (firstn (calcsize f) (skipn off data)).
Proof.
  unfold unpack_from.
  destruct (Nat.leb_spec (off + calcsize f) (length data)) as [Hle | Hgt];
    [| discriminate].
  intros H. apply Ok_inj in H. now split.
Qed.

Lemma unpack_from_firstn (f : fmt) (data : bytes) (off m : nat) :
  (off + calcsize f <= m <= length data)%nat ->
  unpack_from f (firstn m data) off = unpack_from f data off.
Proof.
  intros H. rewrite !unpack_from_ok by (rewrite ?length_firstn; lia).
  do 2 f_equal. rewrite skipn_firstn_comm, firstn_firstn. f_equal. lia.
Qed.

Lemma getslice_firstn (data : bytes) (a b m : nat) :
  (a <= b <= m)%nat -> (m <= length data)%nat ->
  getslice (firstn m data) (Z.of_nat a) (Z.of_nat b)
  = getslice data (Z.of_nat a) (Z.of_nat b).
Proof.
  intros H Hm. rewrite !getslice_nat by (rewrite ?length_firstn; lia).
  rewrite skipn_firstn_comm, firstn_firstn. f_equal. lia.
Qed.

Lemma header_split (data : bytes) (o : nat) :
  (20 <= o)%nat ->
  firstn 16 data ++ firstn 4 (skipn 16 data)
  ++ firstn (o - 20) (skipn 20 data)
  = firstn o data.
Proof.
  intros Ho.
  rewrite <- (firstn_skipn 16 (firstn o data)), firstn_firstn.
  f_equal; [f_equal; lia |].
  rewrite <- (firstn_skipn 4 (skipn 16 (firstn o data))).
  rewrite skipn_skipn, !skipn_firstn_comm, firstn_firstn.
  f_equal; f_equal; lia.
Qed.

(** C9 (as amended): on a file of at least 20 bytes whose [chr_offset]
    lies between 20 and the file length, [SaveGame.from_file] succeeds and
    decodes exactly [(len - chr_offset) div 1754] heroes, from the
    successive 1754-byte windows that start at [chr_offset], in file order.
    Bytes after the last full window are kept in none of [version_header],
    [chr_offset], [pre_hero_data] and [heroes]: decoding the file cut after
    the last full window gives the same four fields (and the same
    [metadata] too when that cut lies at byte 30 or later).
    [SaveGame.save_to_file] on the decoded SaveGame writes the file up to
    [chr_offset] followed by the re-encoded windows, which is as long as the
    file without its remainder. *)
Theorem trailing_remainder_dropped (data : bytes) (off : Z) :
  unpack_from Fmt_i data 16 = Ok off ->
  20 <= off <= Z.of_nat (length data) ->
  let o := Z.to_nat off in
  let n := Z.to_nat ((Z.of_nat (length data) - off) / Z.of_nat CHR_SIZE) in
  let windows := map (record_at data o) (seq 0 n) in
  let kept := (o + n * CHR_SIZE)%nat in
  exists sg,
    SaveGame.from_file data = Ok sg
    /\ Forall2 (fun w h => length w = CHR_SIZE /\ Hero.from_bytes w = Ok h)
               windows (SaveGame.heroes sg)
    /\ length (SaveGame.heroes sg) = n
    /\ (kept <= length data < kept + CHR_SIZE)%nat
    /\ SaveGame.from_file (firstn kept data)
       = Ok {| SaveGame.version_header := SaveGame.version_header sg;
               SaveGame.chr_offset := SaveGame.chr_offset sg;
               SaveGame.metadata := getslice (firstn kept data) 20 30;
               SaveGame.pre_hero_data := SaveGame.pre_hero_data sg;
               SaveGame.heroes := SaveGame.heroes sg |}
    /\ ((30 <= kept)%nat ->
        getslice (firstn kept data) 20 30 = SaveGame.metadata sg)
    /\ SaveGame.save_to_file sg
       = Ok (firstn o data ++ concat (map canonical windows))
    /\ length (firstn o data ++ concat (map canonical windows)) = kept.
Proof.
  intros Hu Hoff o n windows kept.
  assert (Ho : off = Z.of_nat o) by (subst o; lia).
  assert (Hol : (20 <= o <= length data)%nat) by lia.
  destruct (record_count (length data) o ltac:(lia)) as [Hn1 Hn2].
  rewrite <- Ho in Hn1, Hn2. fold n in Hn1, Hn2. fold kept in Hn1.
  destruct (from_file_inside data off o Hu Ho ltac:(lia)) as (hs & Hf & H2).
  fold n in H2. fold windows in H2.
  destruct (unpack_from_inv _ _ _ _ Hu) as [_ Hv]. cbn [calcsize] in Hv.
  assert (Hlen : length hs = n).
  { apply Forall2_length in H2. subst windows.
    now rewrite length_map, length_seq in H2. }
  assert (Hws : Forall (fun w => length w = CHR_SIZE) windows).
  { clear - H2. induction H2 as [| w h ws hs [Hw _] _ IH]; constructor;
      assumption. }
  eexists. split; [exact Hf |]. cbn [SaveGame.heroes SaveGame.version_header
    SaveGame.chr_offset SaveGame.pre_hero_data SaveGame.metadata].
  split; [exact H2 |]. split; [exact Hlen |].
  split; [subst kept; lia |].
  assert (Hk : (20 <= kept <= length data)%nat) by (subst kept; lia).
  split; [| split; [| split]].
  - assert (Hu' : unpack_from Fmt_i (firstn kept data) 16 = Ok off)
      by (rewrite unpack_from_firstn; [exact Hu | cbn [calcsize]; lia]).
    destruct (from_file_inside (firstn kept data) off o Hu' Ho
                ltac:(rewrite length_firstn; subst kept; lia))
      as (hs' & Hf' & H2').
    assert (Hn' : Z.to_nat ((Z.of_nat (length (firstn kept data)) - off)
                            / Z.of_nat CHR_SIZE) = n).
    { rewrite length_firstn, Nat.min_l by lia. subst kept.
      replace (Z.of_nat (o + n * CHR_SIZE) - off)
        with (Z.of_nat n * Z.of_nat CHR_SIZE) by lia.
      rewrite Z.div_mul by (unfold CHR_SIZE; lia). lia. }
    rewrite Hn' in H2'.
    assert (Hw' : map (record_at (firstn kept data) o) (seq 0 n) = windows).
    { subst windows. apply map_ext_in. intros k Hk'. apply in_seq in Hk'.
      apply record_at_firstn. subst kept. nia. }
    rewrite Hw' in H2'. rewrite (decoded_unique windows hs' hs H2' H2) in Hf'.
    assert (E1 : getslice (firstn kept data) 0 16 = getslice data 0 16)
      by (apply (getslice_firstn data 0 16 kept); lia).
    assert (E2 : getslice (firstn kept data) 20 off = getslice data 20 off)
      by (rewrite Ho; apply (getslice_firstn data 20 o kept); lia).
    rewrite Hf', E1, E2. reflexivity.
  - intros H30. change 20 with (Z.of_nat 20). change 30 with (Z.of_nat 30).
    apply getslice_firstn; lia.
  - unfold SaveGame.save_to_file. cbn [SaveGame.heroes SaveGame.version_header
      SaveGame.chr_offset SaveGame.pre_hero_data app].
    assert (Hp : pack Fmt_i off = Ok (firstn 4 (skipn 16 data))).
    { pose proof (pack_unpack Fmt_i (firstn 4 (skipn 16 data))) as P.
      rewrite <- Hv in P. apply P.
      rewrite length_firstn, length_skipn. cbn [calcsize]. lia. }
    rewrite Hp. cbn [bind]. rewrite (save_heroes windows hs _ H2). do 2 f_equal.
    rewrite getslice_header by lia.
    rewrite Ho, (getslice_at data 20 (Z.of_nat o) 20 o eq_refl eq_refl) by lia.
    rewrite <- app_assoc. apply header_split. lia.
  - rewrite length_app, canonical_windows_length by exact Hws.
    rewrite length_firstn, Nat.min_l by lia.
    subst windows kept. now rewrite length_map, length_seq.
Qed.

Lemma trailing_remainder_dropped_witness :
  let windows := map (record_at sample_file 20) (seq 0 1) in
  exists sg,
    SaveGame.from_file sample_file = Ok sg
    /\ Forall2 (fun w h => length w = CHR_SIZE /\ Hero.from_bytes w = Ok h)
               windows (SaveGame.heroes sg)
    /\ length (SaveGame.heroes sg) = 1%nat
    /\ (1774 <= length sample_file < 1774 + CHR_SIZE)%nat
    /\ SaveGame.from_file (firstn 1774 sample_file)
       = Ok {| SaveGame.version_header := SaveGame.version_header sg;
               SaveGame.chr_offset := SaveGame.chr_offset sg;
               SaveGame.metadata := getslice (firstn 1774 sample_file) 20 30;
               SaveGame.pre_hero_data := SaveGame.pre_hero_data sg;
               SaveGame.heroes := SaveGame.heroes sg |}
    /\ ((30 <= 1774)%nat ->
        getslice (firstn 1774 sample_file) 20 30 = SaveGame.metadata sg)
    /\ SaveGame.save_to_file sg
       = Ok (firstn 20 sample_file ++ concat (map canonical windows))
    /\ length (firstn 20 sample_file ++ concat (map canonical windows))
       = 1774%nat.
Proof.
  apply (trailing_remainder_dropped sample_file 20);
    [reflexivity | vm_compute; split; discriminate].
Defined.

(** C9 as stated fails: in a 21-byte file whose [chr_offset] is 20, the
    byte after the header is a remainder byte, no hero is decoded, and the
    decoded SaveGame holds that byte in [metadata]. *)
Lemma remainder_kept_in_metadata :
  let file := repeat x00 16 ++ [x14; x00; x00; x00] ++ [xab] in
  SaveGame.from_file file
  = Ok {| SaveGame.version_header := repeat x00 16;
          SaveGame.chr_offset := 20;
          SaveGame.metadata := [xab];
          SaveGame.pre_hero_data := [];
          SaveGame.heroes := [] |}
  /\ skipn 20 file = [xab].
Proof.
  split; vm_compute; reflexivity.
Qed.

(** ** Loading a file and saving it again *)

Lemma record_at_succ (data : bytes) (o k : nat) :
  record_at data o (S k) = record_at data (o + CHR_SIZE) k.
Proof. unfold record_at. do 2 f_equal. lia. Qed.

Lemma concat_records (data : bytes) (n o : nat) :
  (o + n * CHR_SIZE <= length data)%nat ->
  concat (map (record_at data o) (seq 0 n))
  = firstn (n * CHR_SIZE) (skipn o data).
Proof.
  revert o. induction n as [| n IH]; intros o H; [reflexivity |].
  cbn [seq map concat]. rewrite <- seq_shift, map_map.
  rewrite (map_ext _ (record_at data (o + CHR_SIZE)))
    by (intros k; apply record_at_succ).
  rewrite IH by lia. unfold record_at.
  replace (o + 0 * CHR_SIZE)%nat with o by lia.
  replace (S n * CHR_SIZE)%nat with (CHR_SIZE + n * CHR_SIZE)%nat by lia.
  rewrite <- (firstn_skipn CHR_SIZE (firstn (CHR_SIZE + n * CHR_SIZE)
                                        (skipn o data))).
  rewrite firstn_firstn, Nat.min_l by lia. f_equal.
  rewrite skipn_firstn_comm, skipn_skipn. f_equal; [lia | f_equal; lia].
Qed.

(** The bytes [save_to_file] writes for the SaveGame decoded from a file
    whose [chr_offset] lies between 20 and the file length. *)
Lemma save_after_load (data : bytes) (off : Z) (o : nat) :
  unpack_from Fmt_i data 16 = Ok off ->
  off = Z.of_nat o -> (20 <= o <= length data)%nat ->
  let n := Z.to_nat ((Z.of_nat (length data) - off) / Z.of_nat CHR_SIZE) in
  exists hs,
    SaveGame.from_file data
    = Ok {| SaveGame.version_header := getslice data 0 16;
            SaveGame.chr_offset := off;
            SaveGame.metadata := getslice data 20 30;
            SaveGame.pre_hero_data := getslice data 20 off;
            SaveGame.heroes := hs |}
    /\ Forall2 (fun w h => length w = CHR_SIZE /\ Hero.from_bytes w = Ok h)
               (map (record_at data o) (seq 0 n)) hs
    /\ forall md,
        SaveGame.save_to_file
          {| SaveGame.version_header := getslice data 0 16;
             SaveGame.chr_offset := off;
             SaveGame.metadata := md;
             SaveGame.pre_hero_data := getslice data 20 off;
             SaveGame.heroes := hs |}
        = Ok (firstn o data
              ++ concat (map canonical (map (record_at data o) (seq 0 n)))).
Proof.
  intros Hu Ho Hol n.
  destruct (from_file_inside data off o Hu Ho ltac:(lia)) as (hs & Hf & H2).
  fold n in H2. exists hs. split; [exact Hf |]. split; [exact H2 |].
  intros md. destruct (unpack_from_inv _ _ _ _ Hu) as [_ Hv].
  cbn [calcsize] in Hv.
  assert (Hp : pack Fmt_i off = Ok (firstn 4 (skipn 16 data))).
  { pose proof (pack_unpack Fmt_i (firstn 4 (skipn 16 data))) as P.
    rewrite <- Hv in P. apply P.
    rewrite length_firstn, length_skipn. cbn [calcsize]. lia. }
  unfold SaveGame.save_to_file.
  cbn [SaveGame.heroes SaveGame.version_header SaveGame.chr_offset
       SaveGame.pre_hero_data app].
  rewrite Hp. cbn [bind]. rewrite (save_heroes _ hs _ H2). do 2 f_equal.
  rewrite getslice_header by lia.
  rewrite Ho, (getslice_at data 20 (Z.of_nat o) 20 o eq_refl eq_refl) by lia.
  rewrite <- app_assoc. apply header_split. lia.
Qed.

Lemma canonical_all_padded (ws : list bytes) :
  Forall (fun w => length w = CHR_SIZE) ws ->
  forallb names_padded ws = true ->
  map canonical ws = ws.
Proof.
  induction 1 as [| w ws Hw _ IH]; [reflexivity |].
  cbn [forallb map]. intros H. apply andb_prop in H as [Hp Hps].
  apply andb_prop in Hp as [H1 H2].
  rewrite IH by exact Hps. f_equal.
  apply canonical_padded; [unfold CHR_SIZE in Hw; lia | assumption ..].
Qed.

(** What [from_file] and [save_to_file] do on a file made of whole
    records with null-padded names. *)
Lemma save_after_load_padded (data : bytes) (off : Z) :
  unpack_from Fmt_i data 16 = Ok off ->
  20 <= off <= Z.of_nat (length data) ->
  (Z.of_nat (length data) - off) mod Z.of_nat CHR_SIZE = 0 ->
  forallb names_padded
    (map (record_at data (Z.to_nat off))
         (seq 0 (Z.to_nat ((Z.of_nat (length data) - off)
                           / Z.of_nat CHR_SIZE)))) = true ->
  exists hs,
    SaveGame.from_file data
    = Ok {| SaveGame.version_header := getslice data 0 16;
            SaveGame.chr_offset := off;
            SaveGame.metadata := getslice data 20 30;
            SaveGame.pre_hero_data := getslice data 20 off;
            SaveGame.heroes := hs |}
    /\ forall md,
        SaveGame.save_to_file
          {| SaveGame.version_header := getslice data 0 16;
             SaveGame.chr_offset := off;
             SaveGame.metadata := md;
             SaveGame.pre_hero_data := getslice data 20 off;
             SaveGame.heroes := hs |}
        = Ok data.
Proof.
  intros Hu Hoff Hrem Hpad.
  set (o := Z.to_nat off) in *.
  set (n := Z.to_nat ((Z.of_nat (length data) - off) / Z.of_nat CHR_SIZE)) in *.
  assert (Ho : off = Z.of_nat o) by (subst o; lia).
  destruct (save_after_load data off o Hu Ho ltac:(lia)) as (hs & Hf & H2 & Hs).
  fold n in H2, Hs. exists hs. split; [exact Hf |].
  intros md. rewrite Hs. f_equal.
  assert (Hws : Forall (fun w => length w = CHR_SIZE)
                       (map (record_at data o) (seq 0 n))).
  { clear - H2. induction H2 as [| w h ws hs [Hw _] _ IH]; constructor;
      assumption. }
  rewrite (canonical_all_padded _ Hws Hpad).
  assert (Hlen : (o + n * CHR_SIZE = length data)%nat).
  { assert (Hc : Z.of_nat CHR_SIZE <> 0) by (unfold CHR_SIZE; lia).
    pose proof (Z.div_mod (Z.of_nat (length data) - off) _ Hc) as D.
    rewrite Hrem in D.
    assert (0 <= (Z.of_nat (length data) - off) / Z.of_nat CHR_SIZE)
      by (apply Z.div_pos; unfold CHR_SIZE; lia).
    subst n. nia. }
  rewrite concat_records by lia.
  rewrite (firstn_all2 (skipn o data)) by (rewrite length_skipn; lia).
  now rewrite firstn_skipn.
Qed.

(** X1: a file whose [chr_offset] lies between 20 and its length, whose
    bytes after [chr_offset] are a whole number of 1754-byte records, and
    whose records all have null-padded name fields, is written back byte for
    byte by [save_to_file] after [from_file]. *)
Theorem container_round_trip (data : bytes) (off : Z) :
  unpack_from Fmt_i data 16 = Ok off ->
  20 <= off <= Z.of_nat (length data) ->
  (Z.of_nat (length data) - off) mod Z.of_nat CHR_SIZE = 0 ->
  forallb names_padded
    (map (record_at data (Z.to_nat off))
         (seq 0 (Z.to_nat ((Z.of_nat (length data) - off)
                           / Z.of_nat CHR_SIZE)))) = true ->
  (sg <- SaveGame.from_file data ;; SaveGame.save_to_file sg) = Ok data.
Proof.
  intros Hu Hoff Hrem Hpad.
  destruct (save_after_load_padded data off Hu Hoff Hrem Hpad)
    as (hs & Hf & Hs).
  rewrite Hf. cbn [bind]. apply Hs.
Qed.

Lemma container_round_trip_witness :
  (sg <- SaveGame.from_file (firstn 1774 sample_file) ;;
   SaveGame.save_to_file sg)
  = Ok (firstn 1774 sample_file).
Proof.
  apply (container_round_trip (firstn 1774 sample_file) 20);
    [ reflexivity | vm_compute; split; discriminate
    | vm_compute; reflexivity | vm_compute; reflexivity ].
Defined.

Lemma record_at_concat (ws : list bytes) (pre : bytes) (o k : nat) :
  length pre = o ->
  Forall (fun w => length w = CHR_SIZE) ws ->
  (k < length ws)%nat ->
  record_at (pre ++ concat ws) o k = nth k ws [].
Proof.
  intros Hpre Hws. revert pre o k Hpre.
  induction Hws as [| w ws Hw _ IH]; intros pre o k Hpre Hk;
    [cbn in Hk; lia |].
  destruct k as [| k].
  - unfold record_at. replace (o + 0 * CHR_SIZE)%nat with (o + 0)%nat by lia.
    rewrite (skipn_app_exact pre _ o 0 Hpre). cbn [skipn concat nth].
    now apply firstn_app_exact.
  - rewrite record_at_succ. cbn [concat nth]. rewrite app_assoc.
    apply IH; [rewrite length_app; lia | cbn [length] in Hk; lia].
Qed.

Lemma decoded_canonical (ws : list bytes) (hs hs' : list Hero.t) :
  Forall2 (fun w h => length w = CHR_SIZE /\ Hero.from_bytes w = Ok h) ws hs ->
  Forall2 (fun w h => length w = CHR_SIZE /\ Hero.from_bytes w = Ok h)
          (map canonical ws) hs' ->
  hs = hs'.
Proof.
  intros H. revert hs'.
  induction H as [| w h ws hs [Hl Hw] _ IH]; intros hs' H'.
  - now inversion H'.
  - cbn [map] in H'. inversion H' as [| ? h' ? hs'' [_ Hw'] Hrest]; subst.
    rewrite from_bytes_canonical in Hw' by (unfold CHR_SIZE in Hl; lia).
    f_equal; [congruence | now apply IH].
Qed.

Lemma getslice_app_prefix (pre rest : bytes) (a b : nat) :
  (a <= b <= length pre)%nat ->
  getslice (pre ++ rest) (Z.of_nat a) (Z.of_nat b)
  = getslice pre (Z.of_nat a) (Z.of_nat b).
Proof.
  intros H. rewrite !getslice_nat by (rewrite ?length_app; lia).
  rewrite skipn_app, firstn_app, length_skipn.
  replace (a - length pre)%nat with 0%nat by lia.
  replace (b - a - (length pre - a))%nat with 0%nat by lia.
  rewrite firstn_O. apply app_nil_r.
Qed.

Lemma getslice_saved (data rest : bytes) (o a b : nat) :
  (a <= b <= o)%nat -> (o <= length data)%nat ->
  getslice (firstn o data ++ rest) (Z.of_nat a) (Z.of_nat b)
  = getslice data (Z.of_nat a) (Z.of_nat b).
Proof.
  intros H Ho.
  rewrite getslice_app_prefix by (rewrite length_firstn; lia).
  apply getslice_firstn; lia.
Qed.

(** Decoding what [save_to_file] wrote for a decoded SaveGame gives the
    same SaveGame again, up to [metadata], which is read from bytes 20..29
    of the written file. *)
Lemma load_after_save (data : bytes) (off : Z) (o : nat) :
  unpack_from Fmt_i data 16 = Ok off ->
  off = Z.of_nat o -> (20 <= o <= length data)%nat ->
  exists hs out,
    SaveGame.from_file data
    = Ok {| SaveGame.version_header := getslice data 0 16;
            SaveGame.chr_offset := off;
            SaveGame.metadata := getslice data 20 30;
            SaveGame.pre_hero_data := getslice data 20 off;
            SaveGame.heroes := hs |}
    /\ (forall md,
          SaveGame.save_to_file
            {| SaveGame.version_header := getslice data 0 16;
               SaveGame.chr_offset := off;
               SaveGame.metadata := md;
               SaveGame.pre_hero_data := getslice data 20 off;
               SaveGame.heroes := hs |}
          = Ok out)
    /\ SaveGame.from_file out
       = Ok {| SaveGame.version_header := getslice data 0 16;
               SaveGame.chr_offset := off;
               SaveGame.metadata := getslice out 20 30;
               SaveGame.pre_hero_data := getslice data 20 off;
               SaveGame.heroes := hs |}
    /\ ((30 <= o)%nat -> getslice out 20 30 = getslice data 20 30).
Proof.
  intros Hu Ho Hol.
  destruct (save_after_load data off o Hu Ho Hol) as (hs & Hf & H2 & Hs).
  set (n := Z.to_nat ((Z.of_nat (length data) - off) / Z.of_nat CHR_SIZE)) in *.
  set (ws := map (record_at data o) (seq 0 n)) in *.
  set (out := firstn o data ++ concat (map canonical ws)) in *.
  exists hs, out. split; [exact Hf |]. split; [exact Hs |].
  assert (Hws : Forall (fun w => length w = CHR_SIZE) ws).
  { clear - H2. induction H2 as [| w h ws hs [Hw _] _ IH]; constructor;
      assumption. }
  assert (Hcws : Forall (fun w => length w = CHR_SIZE) (map canonical ws)).
  { clear - Hws. induction Hws as [| w ws Hw _ IH]; constructor; [| exact IH].
    rewrite canonical_length; [exact Hw | unfold CHR_SIZE in Hw; lia]. }
  assert (Hn : length ws = n) by (subst ws; now rewrite length_map, length_seq).
  assert (Lpre : length (firstn o data) = o)
    by (rewrite length_firstn; lia).
  assert (Lout : length out = (o + n * CHR_SIZE)%nat).
  { subst out. rewrite length_app, Lpre, canonical_windows_length, Hn
      by exact Hws. reflexivity. }
  assert (Hu' : unpack_from Fmt_i out 16 = Ok off).
  { rewrite <- Hu. rewrite !unpack_from_ok by (cbn [calcsize]; lia).
    do 2 f_equal. cbn [calcsize].
    pose proof (getslice_saved data (concat (map canonical ws)) o 16 20
                  ltac:(lia) ltac:(lia)) as G.
    fold out in G. rewrite !getslice_nat in G by lia. exact G. }
  destruct (from_file_inside out off o Hu' Ho ltac:(lia)) as (hs' & Hf' & H2').
  assert (Hn' : Z.to_nat ((Z.of_nat (length out) - off) / Z.of_nat CHR_SIZE)
                = n).
  { rewrite Lout, Ho.
    replace (Z.of_nat (o + n * CHR_SIZE) - Z.of_nat o)
      with (Z.of_nat n * Z.of_nat CHR_SIZE) by lia.
    rewrite Z.div_mul by (unfold CHR_SIZE; lia). lia. }
  rewrite Hn' in H2'.
  assert (Hw' : map (record_at out o) (seq 0 n) = map canonical ws).
  { apply nth_ext with (d := []) (d' := []);
      [now rewrite !length_map, length_seq, Hn |].
    intros k Hk. rewrite length_map, length_seq in Hk.
    rewrite (nth_indep _ [] (record_at out o 0))
      by (now rewrite length_map, length_seq).
    rewrite map_nth, seq_nth by exact Hk. cbn [Nat.add].
    subst out. apply record_at_concat; [exact Lpre | exact Hcws |].
    now rewrite length_map, Hn. }
  rewrite Hw' in H2'. rewrite <- (decoded_canonical ws hs hs' H2 H2') in Hf'.
  split.
  - rewrite Hf'. f_equal.
    assert (E1 : getslice out 0 16 = getslice data 0 16)
      by (apply (getslice_saved data _ o 0 16); lia).
    assert (E2 : getslice out 20 off = getslice data 20 off)
      by (rewrite Ho; apply (getslice_saved data _ o 20 o); lia).
    now rewrite E1, E2.
  - intros H30. apply (getslice_saved data _ o 20 30); lia.
Qed.

(** X2: for a file whose [chr_offset] lies between 30 and its length,
    decoding what [save_to_file] wrote for the decoded SaveGame gives that
    SaveGame again. *)
Theorem container_decode_encode_decode (data : bytes) (off : Z) :
  unpack_from Fmt_i data 16 = Ok off ->
  30 <= off <= Z.of_nat (length data) ->
  (sg <- SaveGame.from_file data ;;
   out <- SaveGame.save_to_file sg ;;
   SaveGame.from_file out)
  = SaveGame.from_file data.
Proof.
  intros Hu Hoff.
  destruct (load_after_save data off (Z.to_nat off) Hu)
    as (hs & out & Hf & Hs & Hf' & Hm); [lia | lia |].
  rewrite Hf. cbn [bind]. rewrite Hs. cbn [bind].
  rewrite Hf', Hm by lia. reflexivity.
Qed.

Lemma container_decode_encode_decode_witness :
  (sg <- SaveGame.from_file party_file ;;
   out <- SaveGame.save_to_file sg ;;
   SaveGame.from_file out)
  = SaveGame.from_file party_file.
Proof.
  apply (container_decode_encode_decode party_file 30).
  - reflexivity.
  - vm_compute. split; discriminate.
Defined.

(** X3: for a file whose [chr_offset] lies between 20 and its length,
    loading and saving is idempotent: loading the saved file and saving
    again writes the same bytes. *)
Theorem load_save_idempotent (data : bytes) (off : Z) :
  unpack_from Fmt_i data 16 = Ok off ->
  20 <= off <= Z.of_nat (length data) ->
  exists out,
    (sg <- SaveGame.from_file data ;; SaveGame.save_to_file sg) = Ok out
    /\ (sg <- SaveGame.from_file out ;; SaveGame.save_to_file sg) = Ok out.
Proof.
  intros Hu Hoff.
  destruct (load_after_save data off (Z.to_nat off) Hu)
    as (hs & out & Hf & Hs & Hf' & _); [lia | lia |].
  exists out. split.
  - rewrite Hf. cbn [bind]. apply Hs.
  - rewrite Hf'. cbn [bind]. apply Hs.
Qed.

Lemma load_save_idempotent_witness :
  exists out,
    (sg <- SaveGame.from_file sample_file ;; SaveGame.save_to_file sg) = Ok out
    /\ (sg <- SaveGame.from_file out ;; SaveGame.save_to_file sg) = Ok out.
Proof.
  apply (load_save_idempotent sample_file 20);
    [reflexivity | vm_compute; split; discriminate].
Defined.

(** ** Encoding an edited hero *)

Lemma byte_of_Z_inv (v : Z) (b : byte) :
  byte_of_Z v = Some b -> v = Z_of_byte b.
Proof.
  unfold byte_of_Z, Z_of_byte.
  destruct (Z.ltb_spec v 0) as [Hneg | Hpos]; [discriminate |].
  intros H. apply Byte.to_of_N in H. lia.
Qed.

Lemma byte_of_Z_fits (v : Z) :
  fits_u8 v = true -> exists b, byte_of_Z v = Some b.
Proof.
  unfold fits_u8, byte_of_Z. intros H. apply andb_prop in H as [H0 H1].
  apply Z.leb_le in H0. apply Z.ltb_lt in H1.
  destruct (Z.ltb_spec v 0) as [Hneg | Hpos]; [lia |].
  destruct (Byte.of_N (Z.to_N v)) as [b |] eqn:E; [now exists b |].
  apply Byte.of_N_None_iff in E. lia.
Qed.

Lemma byte_of_Z_unfit (v : Z) : fits_u8 v = false -> byte_of_Z v = None.
Proof.
  unfold fits_u8, byte_of_Z. intros H.
  destruct (Z.ltb_spec v 0) as [Hneg | Hpos]; [reflexivity |].
  apply Byte.of_N_None_iff.
  destruct (Z.leb_spec 0 v) as [_ | Hlt]; [| lia]. cbn [andb] in H.
  apply Z.ltb_ge in H. lia.
Qed.

Lemma pack_fits (f : fmt) (v : Z) :
  fits f v = true -> exists bs, pack f v = Ok bs /\ length bs = calcsize f.
Proof.
  unfold fits, pack. intros ->. eexists. split; [reflexivity |].
  apply le_encode_length.
Qed.

Lemma pack_unfit (f : fmt) (v : Z) :
  fits f v = false -> pack f v = Raise StructError.
Proof. unfold fits, pack. now intros ->. Qed.

Lemma set_exp_with_editable (h : Hero.t) (v : Z) :
  Hero.set_exp h v
  = Hero.with_editable h (Hero.level h) v (Hero.money h)
      (Hero.vital_energy_current h) (Hero.vital_energy_max h)
      (Hero.astral_energy_current h) (Hero.astral_energy_max h).
Proof. reflexivity. Qed.

Lemma to_bytes_with_editable_decoded (B : bytes) (h : Hero.t)
      (lv e m vc vm ac am : Z) (blv : byte) (pe pm pvc pvm pac pam : bytes) :
  Hero.from_bytes B = Ok h ->
  byte_of_Z lv = Some blv ->
  pack Fmt_i e = Ok pe -> pack Fmt_i m = Ok pm ->
  pack Fmt_h vc = Ok pvc -> pack Fmt_h vm = Ok pvm ->
  pack Fmt_h ac = Ok pac -> pack Fmt_h am = Ok pam ->
  Hero.to_bytes (Hero.with_editable h lv e m vc vm ac am)
  = Ok (patched B ([blv] ++ pe ++ pm) (pvc ++ pvm ++ pac ++ pam)).
Proof.
  intros H Hlv Hpe Hpm Hpvc Hpvm Hpac Hpam.
  destruct (from_bytes_blobs B h H) as (HB & _).
  apply byte_of_Z_inv in Hlv. subst lv.
  unfold Hero.from_bytes in H.
  destruct (Nat.ltb_spec (length B) CHR_SIZE) as [Hlt | _]; [lia |].
  unfold CHR_SIZE in HB.
  rewrite !unpack_from_ok in H by (cbn [calcsize]; lia).
  rewrite !bind_Ok in H. apply Ok_inj in H. subst h.
  rewrite AttackValues_of_unpack, ParadeValues_of_unpack.
  unfold Hero.to_bytes, Hero.field_stmts, Hero.with_editable.
  hero_projections. cbn [app]. unfold getitem.
  change (bytearray CHR_SIZE) with ([] ++ zeros_after 0).
  assert (H0 : length (@nil byte) = 0%nat) by reflexivity.
  change (Z.add 139 1024) with 1163.
  rewrite (getslice_at B 0 16 0 16 eq_refl eq_refl),
    (getslice_at B 16 32 16 32 eq_refl eq_refl),
    (getslice_at B 139 1163 139 1163 eq_refl eq_refl) by lia.
  rewrite (getslice_from_at B 1163 1163 eq_refl) by lia.
  change (16 - 0)%nat with 16%nat. change (32 - 16)%nat with 16%nat.
  change (1163 - 139)%nat with 1024%nat. change (skipn 0 B) with B.
  apply (step_name [] 0 16); [assumption | reflexivity .. |]. intros p16 E16.
  assert (L16 : length p16 = 16%nat).
  { subst p16. cbn [app]. apply ljust_length.
    etransitivity; [apply split_nul_head_length |].
    rewrite length_firstn. lia. }
  clear H0.
  apply (step_name p16 16 32); [assumption | reflexivity .. |]. intros p32 E32.
  assert (L32 : length p32 = 32%nat).
  { subst p32. rewrite length_app, L16, ljust_length; [reflexivity |].
    etransitivity; [apply split_nul_head_length |].
    rewrite length_firstn, length_skipn. lia. }
  clear L16.
  repeat step_write.
  cbn [run]. unfold Hero.portrait_stmt, Hero.tail_stmt. hero_projections.
  assert (Lp : length (firstn 1024 (skipn 139 B)) = 1024%nat)
    by (rewrite length_firstn, length_skipn; lia).
  rewrite Lp. cbn [Nat.eqb bind].
  rewrite (zeros_after_split 139 1024) by (unfold CHR_SIZE; lia).
  rewrite setslice_middle;
    [| lia | rewrite repeat_length; lia].
  rewrite app_assoc.
  rewrite setslice_to_end.
  2:{ rewrite length_app. lia. }
  2:{ rewrite !length_app, length_skipn. unfold zeros_after.
      rewrite repeat_length. unfold CHR_SIZE. lia. }
  f_equal. unfold patched, canonical_name.
  match goal with L : length _ = 139%nat |- _ => clear L end.
  clear Lp. subst.
  rewrite <- !app_assoc. cbn [app calcsize Nat.add].
  rewrite (firstn_skipn_nths B x00 2 35),
    (firstn_skipn_nths B x00 7 32), (firstn_skipn_nths B x00 46 48) by lia.
  rewrite (skipn_as_nths B x00 37 102) by lia.
  rewrite <- (firstn_skipn 1024 (skipn (102 + 37) B)), skipn_skipn.
  cbn [seq map app Nat.add]. rewrite <- !app_assoc. reflexivity.
Qed.

Lemma to_bytes_fails_on (h : Hero.t) (s : stmt) :
  In s (Hero.field_stmts h) -> stmt_ok s = false ->
  is_ok (Hero.to_bytes h) = false.
Proof.
  intros Hin Hs. rewrite to_bytes_is_ok.
  destruct (forallb stmt_ok (Hero.field_stmts h)) eqn:E; [| reflexivity].
  rewrite forallb_forall in E. rewrite (E s Hin) in Hs. discriminate Hs.
Qed.

Lemma stmt_ok_setitem_unfit (i : nat) (v : Z) :
  fits_u8 v = false -> stmt_ok (setitem i v) = false.
Proof.
  intros H. unfold stmt_ok, setitem. now rewrite (byte_of_Z_unfit v H).
Qed.

Lemma stmt_ok_pack_into_unfit (f : fmt) (off : nat) (v : Z) :
  fits f v = false -> stmt_ok (pack_into f off v) = false.
Proof.
  intros H. unfold stmt_ok, pack_into. rewrite (pack_unfit f v H).
  destruct (_ <=? _)%nat; reflexivity.
Qed.

Lemma to_bytes_edited_is_ok (B : bytes) (h : Hero.t)
      (lv e m vc vm ac am : Z) :
  Hero.from_bytes B = Ok h ->
  is_ok (Hero.to_bytes (Hero.with_editable h lv e m vc vm ac am))
  = fits_u8 lv && fits Fmt_i e && fits Fmt_i m
    && fits Fmt_h vc && fits Fmt_h vm && fits Fmt_h ac && fits Fmt_h am.
Proof.
  intros H.
  destruct (fits_u8 lv) eqn:F1.
  2:{ apply (to_bytes_fails_on _ (setitem 39 lv));
        [do 8 right; left; reflexivity | now apply stmt_ok_setitem_unfit]. }
  destruct (fits Fmt_i e) eqn:F2.
  2:{ apply (to_bytes_fails_on _ (pack_into Fmt_i 40 e));
        [do 9 right; left; reflexivity | now apply stmt_ok_pack_into_unfit]. }
  destruct (fits Fmt_i m) eqn:F3.
  2:{ apply (to_bytes_fails_on _ (pack_into Fmt_i 44 m));
        [do 10 right; left; reflexivity | now apply stmt_ok_pack_into_unfit]. }
  destruct (fits Fmt_h vc) eqn:F4.
  2:{ apply (to_bytes_fails_on _ (pack_into Fmt_h 94 vc));
        [do 29 right; left; reflexivity | now apply stmt_ok_pack_into_unfit]. }
  destruct (fits Fmt_h vm) eqn:F5.
  2:{ apply (to_bytes_fails_on _ (pack_into Fmt_h 96 vm));
        [do 30 right; left; reflexivity | now apply stmt_ok_pack_into_unfit]. }
  destruct (fits Fmt_h ac) eqn:F6.
  2:{ apply (to_bytes_fails_on _ (pack_into Fmt_h 98 ac));
        [do 31 right; left; reflexivity | now apply stmt_ok_pack_into_unfit]. }
  destruct (fits Fmt_h am) eqn:F7.
  2:{ apply (to_bytes_fails_on _ (pack_into Fmt_h 100 am));
        [do 32 right; left; reflexivity | now apply stmt_ok_pack_into_unfit]. }
  destruct (byte_of_Z_fits lv F1) as [blv Hlv].
  destruct (pack_fits _ e F2) as (pe & Hpe & _).
  destruct (pack_fits _ m F3) as (pm & Hpm & _).
  destruct (pack_fits _ vc F4) as (pvc & Hpvc & _).
  destruct (pack_fits _ vm F5) as (pvm & Hpvm & _).
  destruct (pack_fits _ ac F6) as (pac & Hpac & _).
  destruct (pack_fits _ am F7) as (pam & Hpam & _).
  rewrite (to_bytes_with_editable_decoded B h lv e m vc vm ac am
             blv pe pm pvc pvm pac pam); auto.
Qed.

(** X4: a hero decoded from a record and then edited is encoded by
    [to_bytes] exactly when the new values fit their fields: [level] an
    unsigned byte, [exp] and [money] signed 32-bit, the four energy values
    signed 16-bit; otherwise [to_bytes] raises. *)
Theorem edited_hero_encodable (B : bytes) (h : Hero.t)
        (lv e m vc vm ac am : Z) :
  Hero.from_bytes B = Ok h ->
  is_ok (Hero.to_bytes (Hero.with_editable h lv e m vc vm ac am))
  = fits_u8 lv && fits Fmt_i e && fits Fmt_i m
    && fits Fmt_h vc && fits Fmt_h vm && fits Fmt_h ac && fits Fmt_h am.
Proof.
  intros H. exact (to_bytes_edited_is_ok B h lv e m vc vm ac am H).
Qed.

Lemma edited_hero_encodable_witness :
  exists h,
    Hero.from_bytes sample_record = Ok h
    /\ is_ok (Hero.to_bytes (Hero.with_editable h 7 100000 (-5) 40000 1 2 3))
       = fits_u8 7 && fits Fmt_i 100000 && fits Fmt_i (-5)
         && fits Fmt_h 40000 && fits Fmt_h 1 && fits Fmt_h 2 && fits Fmt_h 3.
Proof.
  destruct (Hero.from_bytes sample_record) as [h |] eqn:Hh;
    [| vm_compute in Hh; discriminate Hh].
  exists h. split; [reflexivity |].
  apply (edited_hero_encodable sample_record h). exact Hh.
Defined.

(** What [to_bytes] returns for an edited hero, when it returns. *)
Lemma edited_hero_patched (B : bytes) (h : Hero.t) (lv e m vc vm ac am : Z)
      (out : bytes) :
  Hero.from_bytes B = Ok h ->
  Hero.to_bytes (Hero.with_editable h lv e m vc vm ac am) = Ok out ->
  exists X Y,
    length X = 9%nat /\ length Y = 8%nat /\ out = patched B X Y.
Proof.
  intros H Hout.
  pose proof (to_bytes_edited_is_ok B h lv e m vc vm ac am H) as E.
  rewrite Hout in E. cbn [is_ok] in E. symmetry in E.
  do 6 (apply andb_prop in E as [E ?]).
  destruct (byte_of_Z_fits lv E) as [blv Hlv].
  destruct (pack_fits Fmt_i e) as (pe & Hpe & Le); [assumption |].
  destruct (pack_fits Fmt_i m) as (pm & Hpm & Lm); [assumption |].
  destruct (pack_fits Fmt_h vc) as (pvc & Hpvc & Lvc); [assumption |].
  destruct (pack_fits Fmt_h vm) as (pvm & Hpvm & Lvm); [assumption |].
  destruct (pack_fits Fmt_h ac) as (pac & Hpac & Lac); [assumption |].
  destruct (pack_fits Fmt_h am) as (pam & Hpam & Lam); [assumption |].
  rewrite (to_bytes_with_editable_decoded B h lv e m vc vm ac am
             blv pe pm pvc pvm pac pam) in Hout by assumption.
  apply Ok_inj in Hout. subst out.
  exists ([blv] ++ pe ++ pm), (pvc ++ pvm ++ pac ++ pam).
  cbn [calcsize] in *.
  rewrite !length_app, Le, Lm, Lvc, Lvm, Lac, Lam. cbn [length].
  repeat split; reflexivity.
Qed.

Lemma nth_error_two_patches {A : Type} (P X X' M Y Y' S : list A) (j : nat) :
  length X = length X' -> length Y = length Y' ->
  (j < length P
   \/ length P + length X <= j < length P + length X + length M
   \/ length P + length X + length M + length Y <= j)%nat ->
  nth_error (P ++ X ++ M ++ Y ++ S) j = nth_error (P ++ X' ++ M ++ Y' ++ S) j.
Proof.
  intros HX HY Hj.
  destruct (Nat.lt_ge_cases j (length P)) as [H1 | H1].
  { now rewrite !nth_error_app1 by lia. }
  rewrite !(nth_error_app2 P) by lia.
  destruct (Nat.lt_ge_cases (j - length P) (length X)) as [H2 | H2]; [lia |].
  rewrite (nth_error_app2 X), (nth_error_app2 X') by lia. rewrite <- HX.
  destruct (Nat.lt_ge_cases (j - length P - length X) (length M)) as [H3 | H3].
  { now rewrite !nth_error_app1 by lia. }
  rewrite !(nth_error_app2 M) by lia.
  rewrite (nth_error_app2 Y), (nth_error_app2 Y') by lia.
  now rewrite <- HY.
Qed.

Lemma canonical_as_patched (B : bytes) :
  (102 <= length B)%nat ->
  canonical B
  = patched B (firstn 9 (skipn 39 B)) (firstn 8 (skipn 94 B)).
Proof.
  intros HB. unfold canonical, patched. do 2 f_equal.
  rewrite <- (firstn_skipn 7 (skipn 32 B)) at 1. f_equal.
  rewrite skipn_skipn. change (7 + 32)%nat with 39%nat.
  rewrite <- (firstn_skipn 9 (skipn 39 B)) at 1. f_equal.
  rewrite skipn_skipn. change (9 + 39)%nat with 48%nat.
  rewrite <- (firstn_skipn 46 (skipn 48 B)) at 1. f_equal.
  rewrite skipn_skipn. change (46 + 48)%nat with 94%nat.
  rewrite <- (firstn_skipn 8 (skipn 94 B)) at 1. f_equal.
  now rewrite skipn_skipn.
Qed.

Lemma patched_length (B X Y : bytes) :
  (102 <= length B)%nat -> length X = 9%nat -> length Y = 8%nat ->
  length (patched B X Y) = length B.
Proof.
  intros HB HX HY. unfold patched.
  rewrite !length_app, !canonical_name_length, !length_firstn, !length_skipn,
    HX, HY; [lia | rewrite length_firstn, length_skipn; lia
            | rewrite length_firstn; lia].
Qed.

Lemma patched_nth_error (B X Y : bytes) (j : nat) :
  (102 <= length B)%nat -> length X = 9%nat -> length Y = 8%nat ->
  editable_offset j = false ->
  nth_error (patched B X Y) j = nth_error (canonical B) j.
Proof.
  intros HB HX HY Hj. rewrite canonical_as_patched by exact HB.
  set (P := canonical_name (firstn 16 B)
            ++ canonical_name (firstn 16 (skipn 16 B))
            ++ firstn 7 (skipn 32 B)).
  assert (Sh : forall X0 Y0,
             patched B X0 Y0
             = P ++ X0 ++ firstn 46 (skipn 48 B) ++ Y0 ++ skipn 102 B).
  { intros X0 Y0. unfold patched, P. now rewrite <- !app_assoc. }
  rewrite !Sh.
  assert (LP : length P = 39%nat).
  { unfold P.
    rewrite !length_app, !canonical_name_length, length_firstn, length_skipn;
      [lia | rewrite length_firstn, length_skipn; lia
      | rewrite length_firstn; lia]. }
  assert (LM : length (firstn 46 (skipn 48 B)) = 46%nat)
    by (rewrite length_firstn, length_skipn; lia).
  unfold editable_offset in Hj.
  apply nth_error_two_patches;
    [ rewrite HX, length_firstn, length_skipn; lia
    | rewrite HY, length_firstn, length_skipn; lia |].
  rewrite LP, LM, HX, HY.
  destruct (Nat.leb_spec 39 j), (Nat.ltb_spec j 48), (Nat.leb_spec 94 j),
    (Nat.ltb_spec j 102); cbn in Hj; try discriminate Hj; lia.
Qed.

(** X5: for a hero decoded from a 1754-byte record with null-padded name
    fields, whatever values the seven editable attributes are given, if
    [to_bytes] returns a buffer then it has 1754 bytes and equals the
    original record at every offset outside 39..47 and 94..101. *)
Theorem editable_fields_isolation (B : bytes) (h : Hero.t)
        (lv e m vc vm ac am : Z) (out : bytes) :
  length B = CHR_SIZE ->
  names_padded B = true ->
  Hero.from_bytes B = Ok h ->
  Hero.to_bytes (Hero.with_editable h lv e m vc vm ac am) = Ok out ->
  length out = CHR_SIZE
  /\ forall j, editable_offset j = false -> nth_error out j = nth_error B j.
Proof.
  intros HB Hpad Hh Hout.
  destruct (edited_hero_patched B h lv e m vc vm ac am out Hh Hout)
    as (X & Y & HX & HY & ->).
  unfold CHR_SIZE in HB. apply andb_prop in Hpad as [P1 P2]. split.
  - rewrite patched_length by (assumption || lia). exact HB.
  - intros j Hj. rewrite patched_nth_error by (assumption || lia).
    now rewrite canonical_padded by (assumption || lia).
Qed.

Lemma editable_fields_isolation_witness :
  exists h out,
    Hero.from_bytes sample_record = Ok h
    /\ Hero.to_bytes (Hero.with_editable h 7 100000 (-5) 300 1 2 3) = Ok out
    /\ length out = CHR_SIZE
    /\ forall j, editable_offset j = false ->
                 nth_error out j = nth_error sample_record j.
Proof.
  destruct (Hero.from_bytes sample_record) as [h |] eqn:Hh;
    [| vm_compute in Hh; discriminate Hh].
  destruct (Hero.to_bytes (Hero.with_editable h 7 100000 (-5) 300 1 2 3))
    as [out |] eqn:Ho.
  - exists h, out. split; [reflexivity |]. split; [exact Ho |].
    apply (editable_fields_isolation sample_record h 7 100000 (-5) 300 1 2 3);
      [reflexivity | reflexivity | exact Hh | exact Ho].
  - exfalso. vm_compute in Hh. apply Ok_inj in Hh. subst h.
    vm_compute in Ho. discriminate Ho.
Defined.

(** ** Reading an edited record back *)

Lemma Z_of_low_byte (v : Z) : Z_of_byte (low_byte v) = v mod 256.
Proof.
  unfold low_byte, Z_of_byte.
  pose proof (Z.mod_pos_bound v 256 ltac:(lia)) as Hr.
  destruct (Byte.of_N (Z.to_N (v mod 256))) as [b |] eqn:E.
  - apply Byte.to_of_N in E. rewrite E. lia.
  - apply Byte.of_N_None_iff in E. lia.
Qed.

Lemma le_decode_encode (n : nat) (v : Z) :
  0 <= v < 256 ^ Z.of_nat n -> le_decode (le_encode n v) = v.
Proof.
  revert v. induction n as [| n IH]; intros v Hv.
  - cbn in *. lia.
  - cbn [le_encode le_decode]. rewrite Z_of_low_byte.
    rewrite Nat2Z.inj_succ, Z.pow_succ_r in Hv by lia.
    rewrite IH.
    + pose proof (Z.div_mod v 256 ltac:(lia)). lia.
    + split; [apply Z.div_pos; lia | apply Z.div_lt_upper_bound; lia].
Qed.

Lemma unpack_pack (f : fmt) (v : Z) (bs : bytes) :
  pack f v = Ok bs -> unpack f bs = v.
Proof.
  unfold pack.
  destruct (Z.leb_spec (- (modulus f / 2)) v) as [Hlo |]; [| discriminate].
  destruct (Z.ltb_spec v (modulus f / 2)) as [Hhi |]; [| discriminate].
  cbn [andb]. intros H. apply Ok_inj in H. subst bs.
  destruct (modulus_even f) as [He Hp].
  pose proof (Z.mod_pos_bound v (modulus f) Hp) as Hm.
  unfold unpack. rewrite le_decode_encode by (rewrite <- modulus_pow; exact Hm).
  destruct (Z.le_gt_cases 0 v) as [Hv | Hv].
  - rewrite (Z.mod_small v) by lia.
    destruct (Z.ltb_spec v (modulus f / 2)); lia.
  - assert (E : v mod modulus f = v + modulus f).
    { symmetry. apply (Z.mod_unique v (modulus f) (-1)); lia. }
    rewrite E. destruct (Z.ltb_spec (v + modulus f) (modulus f / 2)); lia.
Qed.

Lemma firstn_skipn_agree {A : Type} (D C : list A) (a k : nat) :
  (forall j, (a <= j < a + k)%nat -> nth_error D j = nth_error C j) ->
  firstn k (skipn a D) = firstn k (skipn a C).
Proof.
  intros H. apply nth_error_ext. intros i.
  rewrite !nth_error_firstn.
  destruct (Nat.ltb_spec i k); [| reflexivity].
  rewrite !nth_error_skipn. apply H. lia.
Qed.

Lemma skipn_agree {A : Type} (D C : list A) (a : nat) :
  (forall j, (a <= j)%nat -> nth_error D j = nth_error C j) ->
  skipn a D = skipn a C.
Proof.
  intros H. apply nth_error_ext. intros i.
  rewrite !nth_error_skipn. apply H. lia.
Qed.

Lemma getitem_agree (D C : bytes) (i : nat) :
  nth_error D i = nth_error C i -> getitem D i = getitem C i.
Proof.
  intros H. unfold getitem. f_equal.
  rewrite <- !nth_default_eq. unfold nth_default. now rewrite H.
Qed.

Lemma editable_offset_outside (j : nat) :
  (j < 39 \/ 48 <= j < 94 \/ 102 <= j)%nat -> editable_offset j = false.
Proof.
  intros H. unfold editable_offset.
  destruct (Nat.leb_spec 39 j), (Nat.ltb_spec j 48), (Nat.leb_spec 94 j),
    (Nat.ltb_spec j 102); try reflexivity; lia.
Qed.

(** Decoding a buffer that differs from a decoded one at the offsets of the
    editable attributes only. *)
Lemma from_bytes_patch (C D : bytes) (h : Hero.t) (lv e m vc vm ac am : Z) :
  length D = length C ->
  (forall j, editable_offset j = false -> nth_error D j = nth_error C j) ->
  Hero.from_bytes C = Ok h ->
  getitem D 39 = lv ->
  unpack Fmt_i (firstn 4 (skipn 40 D)) = e ->
  unpack Fmt_i (firstn 4 (skipn 44 D)) = m ->
  unpack Fmt_h (firstn 2 (skipn 94 D)) = vc ->
  unpack Fmt_h (firstn 2 (skipn 96 D)) = vm ->
  unpack Fmt_h (firstn 2 (skipn 98 D)) = ac ->
  unpack Fmt_h (firstn 2 (skipn 100 D)) = am ->
  Hero.from_bytes D = Ok (Hero.with_editable h lv e m vc vm ac am).
Proof.
  intros Hl Hag H Hlv He Hm Hvc Hvm Hac Ham.
  unfold Hero.from_bytes in *. rewrite Hl.
  destruct (length C <? CHR_SIZE)%nat eqn:Hg; [discriminate H |].
  apply Nat.ltb_ge in Hg. unfold CHR_SIZE in Hg.
  rewrite !unpack_from_ok in H by (cbn [calcsize]; lia).
  rewrite !unpack_from_ok by (cbn [calcsize]; lia).
  rewrite !bind_Ok in *. apply Ok_inj in H. subst h.
  cbn [calcsize].
  rewrite Hlv, He, Hm, Hvc, Hvm, Hac, Ham.
  rewrite !AttackValues_of_unpack, !ParadeValues_of_unpack.
  unfold Hero.with_editable. hero_projections.
  change (Z.add 139 1024) with 1163.
  rewrite (getslice_at D 0 16 0 16 eq_refl eq_refl),
    (getslice_at C 0 16 0 16 eq_refl eq_refl),
    (getslice_at D 16 32 16 32 eq_refl eq_refl),
    (getslice_at C 16 32 16 32 eq_refl eq_refl),
    (getslice_at D 139 1163 139 1163 eq_refl eq_refl),
    (getslice_at C 139 1163 139 1163 eq_refl eq_refl) by lia.
  rewrite (getslice_from_at D 1163 1163 eq_refl),
    (getslice_from_at C 1163 1163 eq_refl) by lia.
  change (16 - 0)%nat with 16%nat. change (32 - 16)%nat with 16%nat.
  change (1163 - 139)%nat with 1024%nat.
  rewrite (firstn_skipn_agree D C 0 16),
    (firstn_skipn_agree D C 16 16),
    (firstn_skipn_agree D C 35 2),
    (firstn_skipn_agree D C 139 1024),
    (skipn_agree D C 1163)
    by (intros j Hj; apply Hag, editable_offset_outside; lia).
  repeat match goal with
         | |- context [getitem D ?i] =>
             rewrite (getitem_agree D C i (Hag i eq_refl))
         end.
  reflexivity.
Qed.

Lemma nth_hd_skipn {A : Type} (l : list A) (i : nat) (d : A) :
  nth i l d = hd d (skipn i l).
Proof.
  revert l. induction i as [| i IH]; intros [| a l]; try reflexivity.
  cbn [nth skipn]. apply IH.
Qed.

Lemma skipn_patched_39 (B X Y : bytes) :
  (39 <= length B)%nat ->
  skipn 39 (patched B X Y)
  = X ++ firstn 46 (skipn 48 B) ++ Y ++ skipn 102 B.
Proof.
  intros HB. unfold patched.
  assert (L1 : length (canonical_name (firstn 16 B)) = 16%nat)
    by (apply canonical_name_length; rewrite length_firstn; lia).
  assert (L2 : length (canonical_name (firstn 16 (skipn 16 B))) = 16%nat)
    by (apply canonical_name_length; rewrite length_firstn, length_skipn; lia).
  assert (L3 : length (firstn 7 (skipn 32 B)) = 7%nat)
    by (rewrite length_firstn, length_skipn; lia).
  change 39%nat with (16 + 23)%nat at 1. rewrite (skipn_app_exact _ _ 16 23 L1).
  change 23%nat with (16 + 7)%nat. rewrite (skipn_app_exact _ _ 16 7 L2).
  rewrite <- (Nat.add_0_r 7) at 1. rewrite (skipn_app_exact _ _ 7 0 L3).
  reflexivity.
Qed.

Lemma skipn_patched_94 (B X Y : bytes) :
  (102 <= length B)%nat -> length X = 9%nat ->
  skipn 94 (patched B X Y) = Y ++ skipn 102 B.
Proof.
  intros HB HX.
  change 94%nat with (55 + 39)%nat. rewrite <- skipn_skipn.
  rewrite skipn_patched_39 by lia.
  assert (L4 : length (firstn 46 (skipn 48 B)) = 46%nat)
    by (rewrite length_firstn, length_skipn; lia).
  change 55%nat with (9 + 46)%nat. rewrite (skipn_app_exact _ _ 9 46 HX).
  rewrite <- (Nat.add_0_r 46) at 1. rewrite (skipn_app_exact _ _ 46 0 L4).
  reflexivity.
Qed.

(** X6: when a hero decoded from a record is edited and [to_bytes] encodes
    it, [from_bytes] decodes the result to the edited hero, field for
    field: every value that [to_bytes] accepts for [level], [exp], [money]
    and the energies is read back unchanged. *)
Theorem edited_hero_read_back (B : bytes) (h : Hero.t)
        (lv e m vc vm ac am : Z) (out : bytes) :
  Hero.from_bytes B = Ok h ->
  Hero.to_bytes (Hero.with_editable h lv e m vc vm ac am) = Ok out ->
  Hero.from_bytes out = Ok (Hero.with_editable h lv e m vc vm ac am).
Proof.
  intros H Hout.
  destruct (from_bytes_blobs B h H) as (HB & _). unfold CHR_SIZE in HB.
  pose proof (to_bytes_edited_is_ok B h lv e m vc vm ac am H) as E.
  rewrite Hout in E. cbn [is_ok] in E. symmetry in E.
  do 6 (apply andb_prop in E as [E ?]).
  destruct (byte_of_Z_fits lv E) as [blv Hlv].
  destruct (pack_fits Fmt_i e) as (pe & Hpe & Le); [assumption |].
  destruct (pack_fits Fmt_i m) as (pm & Hpm & Lm); [assumption |].
  destruct (pack_fits Fmt_h vc) as (pvc & Hpvc & Lvc); [assumption |].
  destruct (pack_fits Fmt_h vm) as (pvm & Hpvm & Lvm); [assumption |].
  destruct (pack_fits Fmt_h ac) as (pac & Hpac & Lac); [assumption |].
  destruct (pack_fits Fmt_h am) as (pam & Hpam & Lam); [assumption |].
  rewrite (to_bytes_with_editable_decoded B h lv e m vc vm ac am
             blv pe pm pvc pvm pac pam) in Hout by assumption.
  apply Ok_inj in Hout. subst out. cbn [calcsize] in *.
  set (X := [blv] ++ pe ++ pm). set (Y := pvc ++ pvm ++ pac ++ pam).
  assert (HX : length X = 9%nat)
    by (subst X; rewrite !length_app, Le, Lm; reflexivity).
  assert (HY : length Y = 8%nat)
    by (subst Y; rewrite !length_app, Lvc, Lvm, Lac, Lam; reflexivity).
  assert (S39 := skipn_patched_39 B X Y ltac:(lia)).
  assert (S94 := skipn_patched_94 B X Y ltac:(lia) HX).
  set (R := firstn 46 (skipn 48 B) ++ Y ++ skipn 102 B) in S39.
  set (T := skipn 102 B) in S94.
  apply (from_bytes_patch (canonical B)).
  - rewrite patched_length, canonical_length by lia. reflexivity.
  - intros j Hj. apply patched_nth_error; assumption || lia.
  - rewrite from_bytes_canonical by lia. exact H.
  - unfold getitem. rewrite nth_hd_skipn, S39. subst X. cbn [app hd].
    symmetry. apply byte_of_Z_inv. exact Hlv.
  - change 40%nat with (1 + 39)%nat. rewrite <- skipn_skipn, S39.
    subst X. rewrite <- !app_assoc.
    change (skipn 1 ([blv] ++ pe ++ pm ++ R)) with (pe ++ pm ++ R).
    rewrite (firstn_app_exact _ _ 4 Le). apply unpack_pack. exact Hpe.
  - change 44%nat with (5 + 39)%nat. rewrite <- skipn_skipn, S39.
    subst X. rewrite <- !app_assoc.
    change (skipn 5 ([blv] ++ pe ++ pm ++ R))
      with (skipn (4 + 0) (pe ++ pm ++ R)).
    rewrite (skipn_app_exact _ _ 4 0 Le).
    rewrite skipn_O, (firstn_app_exact _ _ 4 Lm).
    apply unpack_pack. exact Hpm.
  - rewrite S94. subst Y. rewrite <- !app_assoc.
    rewrite (firstn_app_exact _ _ 2 Lvc). apply unpack_pack. exact Hpvc.
  - change 96%nat with (2 + 94)%nat. rewrite <- skipn_skipn, S94.
    subst Y. rewrite <- !app_assoc.
    rewrite <- (Nat.add_0_r 2) at 1. rewrite (skipn_app_exact _ _ 2 0 Lvc).
    rewrite skipn_O, (firstn_app_exact _ _ 2 Lvm).
    apply unpack_pack. exact Hpvm.
  - change 98%nat with (2 + (2 + 94))%nat. rewrite <- !skipn_skipn, S94.
    subst Y. rewrite <- !app_assoc.
    rewrite <- (Nat.add_0_r 2) at 2. rewrite (skipn_app_exact _ _ 2 0 Lvc).
    rewrite skipn_O.
    rewrite <- (Nat.add_0_r 2) at 1. rewrite (skipn_app_exact _ _ 2 0 Lvm).
    rewrite skipn_O, (firstn_app_exact _ _ 2 Lac).
    apply unpack_pack. exact Hpac.
  - change 100%nat with (2 + (2 + (2 + 94)))%nat.
    rewrite <- !skipn_skipn, S94.
    subst Y. rewrite <- !app_assoc.
    rewrite <- (Nat.add_0_r 2) at 3. rewrite (skipn_app_exact _ _ 2 0 Lvc).
    rewrite skipn_O.
    rewrite <- (Nat.add_0_r 2) at 2. rewrite (skipn_app_exact _ _ 2 0 Lvm).
    rewrite skipn_O.
    rewrite <- (Nat.add_0_r 2) at 1. rewrite (skipn_app_exact _ _ 2 0 Lac).
    rewrite skipn_O, (firstn_app_exact _ _ 2 Lam).
    apply unpack_pack. exact Hpam.
Qed.

Lemma edited_hero_read_back_witness :
  exists h out,
    Hero.from_bytes unpadded_record = Ok h
    /\ Hero.to_bytes
         (Hero.with_editable h 255 (-1) 2147483647 (-32768) 32767 0 (-1))
       = Ok out
    /\ Hero.from_bytes out
       = Ok (Hero.with_editable h 255 (-1) 2147483647 (-32768) 32767 0 (-1)).
Proof.
  destruct (Hero.from_bytes unpadded_record) as [h |] eqn:Hh;
    [| vm_compute in Hh; discriminate Hh].
  destruct (Hero.to_bytes
              (Hero.with_editable h 255 (-1) 2147483647 (-32768) 32767 0 (-1)))
    as [out |] eqn:Ho.
  - exists h, out. split; [reflexivity |]. split; [exact Ho |].
    apply (edited_hero_read_back unpadded_record h
             255 (-1) 2147483647 (-32768) 32767 0 (-1) out);
      [exact Hh | exact Ho].
  - exfalso. vm_compute in Hh. apply Ok_inj in Hh. subst h.
    vm_compute in Ho. discriminate Ho.
Defined.

(** ** The editor *)

Lemma with_editable_same (h : Hero.t) :
  Hero.with_editable h (Hero.level h) (Hero.exp h) (Hero.money h)
    (Hero.vital_energy_current h) (Hero.vital_energy_max h)
    (Hero.astral_energy_current h) (Hero.astral_energy_max h) = h.
Proof. destruct h. reflexivity. Qed.

Lemma same_fixed_refl (h : Hero.t) : same_fixed h h.
Proof.
  exists (Hero.level h), (Hero.exp h), (Hero.money h),
    (Hero.vital_energy_current h), (Hero.vital_energy_max h),
    (Hero.astral_energy_current h), (Hero.astral_energy_max h).
  symmetry. apply with_editable_same.
Qed.

Lemma same_fixed_with_editable (h h1 : Hero.t) (lv e m vc vm ac am : Z) :
  same_fixed h h1 ->
  same_fixed h (Hero.with_editable h1 lv e m vc vm ac am).
Proof.
  intros (lv1 & e1 & m1 & vc1 & vm1 & ac1 & am1 & ->).
  exists lv, e, m, vc, vm, ac, am. reflexivity.
Qed.

Lemma same_fixed_trans (h1 h2 h3 : Hero.t) :
  same_fixed h1 h2 -> same_fixed h2 h3 -> same_fixed h1 h3.
Proof.
  intros H12 (lv & e & m & vc & vm & ac & am & ->).
  now apply same_fixed_with_editable.
Qed.

Section EditorProperties.

Variable printable : pystr -> bool.
Variable py_int : pystr -> option Z.
Variable lower : pystr -> pystr.
Variable isdigit : pystr -> bool.

Lemma edit_hero_done_bounded (n : nat) :
  forall stdin hero hero' rest,
    (length stdin <= n)%nat ->
    edit_hero printable py_int stdin hero = Edit_done hero' rest ->
    same_fixed hero hero' /\ (length rest < length stdin)%nat.
Proof.
  induction n as [| n IH]; intros stdin hero hero' rest Hn H.
  - destruct stdin; [| cbn in Hn; lia].
    cbn [edit_hero] in H. destruct (negb _); discriminate H.
  - destruct stdin as [| [choice |] stdin1]; cbn [edit_hero] in H;
      (destruct (negb (printable (Hero.name hero))); [discriminate H |]);
      [discriminate H | | discriminate H].
    cbn [length] in Hn |- *.
    repeat match type of H with
           | (if ?c then _ else _) = _ => destruct c
           | match ?x with _ => _ end = _ => destruct x
           end;
      try discriminate H;
      try (injection H as <- <-; split; [apply same_fixed_refl | lia]);
      cbn [length] in Hn |- *;
      (apply IH in H; [| lia]; destruct H as [Hs Hl]; split; [| lia];
       eapply same_fixed_trans; [| exact Hs];
       repeat first
         [ apply same_fixed_refl
         | rewrite set_exp_with_editable
         | apply same_fixed_with_editable ]).
Qed.

(** X7: whatever is typed, when [edit_hero] returns, the hero differs from
    the one it was called on in at most the seven attributes [level],
    [exp], [money] and the four energy values, and at least one line of
    input has been read. *)
Theorem edit_hero_changes_only_editable
        (stdin : list keyboard) (hero hero' : Hero.t) (rest : list keyboard) :
  edit_hero printable py_int stdin hero = Edit_done hero' rest ->
  (exists lv e m vc vm ac am,
      hero' = Hero.with_editable hero lv e m vc vm ac am)
  /\ (length rest < length stdin)%nat.
Proof.
  intros H. exact (edit_hero_done_bounded (length stdin) stdin hero hero' rest
                     (Nat.le_refl _) H).
Qed.


Lemma active_positions_in (g : Z) (heroes : list Hero.t) (i : nat) :
  In i (active_positions g heroes) ->
  exists h, nth_error heroes i = Some h /\ Hero.idx_heroes_group h = g.
Proof.
  unfold active_positions. intros H. apply filter_In in H as [_ H].
  destruct (nth_error heroes i) as [h |]; [| discriminate H].
  exists h. split; [reflexivity |]. now apply Z.eqb_eq.
Qed.

Lemma Forall2_replace_hero (R : Hero.t -> Hero.t -> Prop)
      (hs hs1 : list Hero.t) (i : nat) (h h' : Hero.t) :
  Forall2 R hs hs1 -> nth_error hs i = Some h -> R h h' ->
  Forall2 R hs (replace_hero hs1 i h').
Proof.
  intros H. revert i. induction H as [| a b l l1 Hab Hl IH]; intros i Hi Hr.
  - destruct i; discriminate Hi.
  - destruct i as [| i].
    + cbn in Hi. injection Hi as ->. unfold replace_hero. cbn [firstn skipn app].
      constructor; assumption.
    + cbn [nth_error] in Hi. unfold replace_hero. cbn [firstn skipn app].
      constructor; [exact Hab |]. now apply IH.
Qed.

Lemma Forall2_nth_error_r (R : Hero.t -> Hero.t -> Prop)
      (hs hs1 : list Hero.t) (i : nat) (h1 : Hero.t) :
  Forall2 R hs hs1 -> nth_error hs1 i = Some h1 ->
  exists h, nth_error hs i = Some h /\ R h h1.
Proof.
  intros H. revert i. induction H as [| a b l l1 Hab _ IH]; intros i Hi.
  - destruct i; discriminate Hi.
  - destruct i as [| i].
    + cbn in Hi. injection Hi as ->. now exists a.
    + cbn [nth_error] in *. now apply IH.
Qed.

(** The selection loop keeps every hero up to its editable attributes, and
    leaves the heroes outside the active group alone. *)
Lemma select_loop_save (g : Z) (hs0 : list Hero.t) (active : list nat)
      (fuel : nat) :
  (forall i, In i active ->
             exists h, nth_error hs0 i = Some h
                       /\ Hero.idx_heroes_group h = g) ->
  forall stdin hs1 hs',
    Forall2 (edited_in_group g) hs0 hs1 ->
    select_loop printable py_int lower isdigit fuel stdin hs1 active
    = Select_save hs' ->
    Forall2 (edited_in_group g) hs0 hs'.
Proof.
  intros Hact. induction fuel as [| fuel IH]; intros stdin hs1 hs' Hinv H;
    [discriminate H |].
  destruct stdin as [| [s |] stdin1]; [discriminate H | | discriminate H].
  cbn [select_loop] in H. cbv zeta in H.
  destruct (pystr_eqb (lower s) str_exit); [discriminate H |].
  destruct (pystr_eqb (lower s) str_save).
  { injection H as <-. exact Hinv. }
  destruct (isdigit (lower s)); [| now apply (IH stdin1 hs1)].
  destruct (py_int (lower s)) as [v |]; [| discriminate H].
  destruct ((0 <=? v - 1) && (v - 1 <? Z.of_nat (length active))) eqn:Hb;
    [| now apply (IH stdin1 hs1)].
  apply andb_prop in Hb as [Hb0 Hb1].
  apply Z.leb_le in Hb0. apply Z.ltb_lt in Hb1.
  set (i := nth (Z.to_nat (v - 1)) active O) in *.
  assert (Hin : In i active) by (apply nth_In; lia).
  destruct (nth_error hs1 i) as [hero |] eqn:Hi; [| discriminate H].
  destruct (edit_hero printable py_int stdin1 hero)
    as [hero' stdin2 | | |] eqn:He;
    try discriminate H.
  apply (IH stdin2 (replace_hero hs1 i hero')); [| exact H].
  destruct (Hact i Hin) as (h0 & Hh0 & Hg).
  destruct (Forall2_nth_error_r _ _ _ _ _ Hinv Hi) as (h0' & Hh0' & [Hs _]).
  assert (h0' = h0) by congruence. subst h0'.
  apply (Forall2_replace_hero _ hs0 hs1 i h0 hero' Hinv Hh0).
  split; [| intros Hne; contradiction].
  apply (same_fixed_trans h0 hero hero' Hs).
  apply (edit_hero_done_bounded (length stdin1) stdin1 hero hero' stdin2);
    [lia | exact He].
Qed.

(** Every round of the selection loop reads a line, so the fuel that
    [main] gives it is never used up. *)
Lemma select_loop_fuel (active : list nat) (fuel : nat) :
  forall stdin hs,
    (length stdin < fuel)%nat ->
    select_loop printable py_int lower isdigit fuel stdin hs active
    <> Select_fuel.
Proof.
  induction fuel as [| fuel IH]; intros stdin hs Hf; [lia |].
  destruct stdin as [| [s |] stdin1]; [discriminate | | discriminate].
  cbn [select_loop]. cbv zeta. cbn [length] in Hf.
  destruct (pystr_eqb (lower s) str_exit); [discriminate |].
  destruct (pystr_eqb (lower s) str_save); [discriminate |].
  destruct (isdigit (lower s)); [| apply IH; lia].
  destruct (py_int (lower s)) as [v |]; [| discriminate].
  destruct ((0 <=? v - 1) && (v - 1 <? Z.of_nat (length active)));
    [| apply IH; lia].
  destruct (nth_error hs _) as [hero |]; [| discriminate].
  destruct (edit_hero printable py_int stdin1 hero)
    as [hero' stdin2 | | |] eqn:He;
    try discriminate.
  apply IH.
  destruct (edit_hero_done_bounded (length stdin1) stdin1 hero hero' stdin2
              (Nat.le_refl _) He) as [_ Hl].
  lia.
Qed.

(** X8: for every file content and every finite keyboard input, [main]
    ends by writing the output file or by exiting with code 0 or 1; the
    loops cannot go on once the input is exhausted. *)
Theorem main_ends (data : bytes) (stdin : list keyboard) :
  (exists written,
      main printable py_int lower isdigit data stdin = Main_saved written)
  \/ main printable py_int lower isdigit data stdin = Main_exit 0
  \/ main printable py_int lower isdigit data stdin = Main_exit 1.
Proof.
  unfold main.
  destruct (SaveGame.from_file data) as [sg |]; [| right; right; reflexivity].
  destruct (nth_error (SaveGame.metadata sg) 1) as [b |];
    [| right; right; reflexivity].
  destruct (negb (list_heroes _ _ _)); [right; right; reflexivity |].
  pose proof (select_loop_fuel
                (active_positions (Z_of_byte b) (SaveGame.heroes sg))
                (S (length stdin)) stdin (SaveGame.heroes sg)
                (Nat.lt_succ_diag_r _)) as Hfuel.
  destruct (select_loop _ _ _ _ _ _ _ _) as [hs' | | |].
  - destruct (SaveGame.save_to_file _) as [written |];
      [left; now exists written | right; right; reflexivity].
  - right; left; reflexivity.
  - right; right; reflexivity.
  - contradiction.
Qed.


Lemma from_bytes_group (B : bytes) (h : Hero.t) :
  Hero.from_bytes B = Ok h -> Hero.idx_heroes_group h = getitem B 135.
Proof.
  unfold Hero.from_bytes.
  destruct (length B <? CHR_SIZE)%nat eqn:Hg; [discriminate |].
  apply Nat.ltb_ge in Hg. unfold CHR_SIZE in Hg.
  rewrite !unpack_from_ok by (cbn [calcsize]; lia).
  rewrite !bind_Ok. intros H. apply Ok_inj in H. subst h. reflexivity.
Qed.

Lemma save_heroes_inv (hs : list Hero.t) :
  forall file_data written,
    for_in hs (fun hero fd => bs <- Hero.to_bytes hero ;; Ok (fd ++ bs))
      file_data = Ok written ->
    exists outs,
      Forall2 (fun h out => Hero.to_bytes h = Ok out) hs outs
      /\ written = file_data ++ concat outs.
Proof.
  induction hs as [| h hs IH]; intros file_data written H.
  - cbn in H. apply Ok_inj in H. subst written. exists [].
    split; [constructor | now rewrite app_nil_r].
  - cbn [for_in] in H. destruct (Hero.to_bytes h) as [out |] eqn:E;
      [| discriminate H].
    cbn [bind] in H. destruct (IH _ _ H) as (outs & Hf & ->).
    exists (out :: outs). split; [now constructor |].
    cbn [concat]. now rewrite <- app_assoc.
Qed.

Lemma pack_chr_offset (data : bytes) (off : Z) :
  unpack_from Fmt_i data 16 = Ok off ->
  pack Fmt_i off = Ok (firstn 4 (skipn 16 data)).
Proof.
  intros Hu. destruct (unpack_from_inv _ _ _ _ Hu) as [Hl Hv].
  cbn [calcsize] in Hv, Hl. rewrite Hv. apply pack_unpack.
  rewrite length_firstn, length_skipn. cbn [calcsize]. lia.
Qed.

Lemma saved_header (data : bytes) (o : nat) :
  (20 <= o <= length data)%nat ->
  (getslice data 0 16 ++ firstn 4 (skipn 16 data))
  ++ getslice data 20 (Z.of_nat o)
  = firstn o data.
Proof.
  intros Ho. rewrite getslice_header by lia.
  rewrite (getslice_at data 20 (Z.of_nat o) 20 o eq_refl eq_refl) by lia.
  rewrite <- app_assoc. apply header_split. lia.
Qed.

Lemma metadata_group (data : bytes) (b : byte) :
  nth_error (getslice data 20 30) 1 = Some b -> nth 21 data x00 = b.
Proof.
  unfold getslice. rewrite nth_error_firstn.
  destruct (_ <? _)%nat; [| discriminate].
  rewrite nth_error_skipn. unfold slice_index.
  destruct (Z.ltb_spec 20 0) as [Hneg | _]; [lia |].
  change (Z.to_nat 20) with 20%nat. intros H.
  destruct (Nat.le_gt_cases 20 (length data)) as [Hle | Hgt].
  - rewrite Nat.min_l in H by lia. now apply nth_error_nth.
  - rewrite Nat.min_r in H by lia.
    assert (nth_error data (length data + 1) = None)
      by (apply nth_error_None; lia).
    congruence.
Qed.

(** X9: on a file whose [chr_offset] lies between 20 and its length,
    whatever is typed, a file that [main] writes is the input up to
    [chr_offset] followed by one 1754-byte record per input record; each
    written record equals the null-padded input record outside offsets
    39..47 and 94..101, and is the null-padded input record itself when the
    hero's group byte (offset 135) differs from the active group, which is
    byte 21 of the file. *)
Theorem main_changes_only_editable (data : bytes) (off : Z)
        (stdin : list keyboard) (written : bytes) :
  unpack_from Fmt_i data 16 = Ok off ->
  20 <= off <= Z.of_nat (length data) ->
  main printable py_int lower isdigit data stdin = Main_saved written ->
  exists outs,
    written = firstn (Z.to_nat off) data ++ concat outs
    /\ Forall2
         (fun w out =>
            length out = CHR_SIZE
            /\ (forall j, editable_offset j = false ->
                          nth_error out j = nth_error (canonical w) j)
            /\ (getitem w 135 <> Z_of_byte (nth 21 data x00) ->
                out = canonical w))
         (map (record_at data (Z.to_nat off))
              (seq 0 (Z.to_nat ((Z.of_nat (length data) - off)
                                / Z.of_nat CHR_SIZE))))
         outs.
Proof.
  intros Hu Hoff Hmain.
  set (o := Z.to_nat off) in *.
  assert (Ho : off = Z.of_nat o) by (subst o; lia).
  destruct (from_file_inside data off o Hu Ho ltac:(lia)) as (hs & Hf & H2).
  unfold main in Hmain. rewrite Hf in Hmain.
  cbn [SaveGame.metadata SaveGame.heroes SaveGame.version_header
       SaveGame.chr_offset SaveGame.pre_hero_data] in Hmain.
  destruct (nth_error (getslice data 20 30) 1) as [b |] eqn:Hb;
    [| discriminate Hmain].
  apply metadata_group in Hb.
  set (g := Z_of_byte b) in *.
  destruct (negb (list_heroes _ _ _)); [discriminate Hmain |].
  destruct (select_loop _ _ _ _ _ _ _ _) as [hs' | | |] eqn:Hsel;
    try discriminate Hmain.
  destruct (SaveGame.save_to_file _) as [out |] eqn:Hsave;
    [| discriminate Hmain].
  injection Hmain as ->.
  assert (Hinv : Forall2 (edited_in_group g) hs hs').
  { apply (select_loop_save g hs (active_positions g hs)
             (S (length stdin)) (active_positions_in g hs) stdin hs hs');
      [| exact Hsel].
    clear. induction hs as [| h hs IH]; constructor; [| exact IH].
    split; [apply same_fixed_refl | reflexivity]. }
  unfold SaveGame.save_to_file in Hsave.
  cbn [SaveGame.heroes SaveGame.version_header SaveGame.chr_offset
       SaveGame.pre_hero_data app] in Hsave.
  rewrite (pack_chr_offset data off Hu) in Hsave. cbn [bind] in Hsave.
  rewrite Ho, saved_header in Hsave by lia.
  destruct (save_heroes_inv _ _ _ Hsave) as (outs & Houts & ->).
  exists outs. split; [reflexivity |].
  fold o.
  set (ws := map (record_at data o) (seq 0 _)) in *.
  set (grp := Z_of_byte (nth 21 data x00)).
  assert (Hgrp : g = grp) by (subst g grp; now rewrite Hb).
  clearbody ws grp. clear - H2 Hinv Houts Hgrp. subst g.
  revert hs' outs Hinv Houts.
  induction H2 as [| w h0 ws hs [Hw Hh0] _ IH]; intros hs' outs Hinv Houts.
  - inversion Hinv; subst. inversion Houts; subst. constructor.
  - inversion Hinv as [| ? h' ? hs'' [Hs Hfix] Hinv']; subst.
    inversion Houts as [| ? out ? outs' Hout Houts']; subst.
    constructor; [| now apply IH with (hs' := hs'')].
    destruct Hs as (lv & e & m & vc & vm & ac & am & ->).
    destruct (edited_hero_patched w h0 lv e m vc vm ac am out Hh0 Hout)
      as (X & Y & HX & HY & ->).
    unfold CHR_SIZE in Hw. split; [| split].
    + rewrite patched_length by lia. exact Hw.
    + intros j Hj. apply patched_nth_error; (assumption || lia).
    + intros Hne. rewrite <- (from_bytes_group w h0 Hh0) in Hne.
      rewrite (Hfix Hne) in Hout.
      rewrite (to_bytes_decoded w h0 Hh0) in Hout. now apply Ok_inj in Hout.
Qed.

(** X10: on a file shorter than 22 bytes [main] exits with code 1, whatever
    is typed: the file is too short to be decoded or its [metadata] has no
    byte 1 to name the active group. *)
Theorem main_short_file (data : bytes) (stdin : list keyboard) :
  (length data < 22)%nat ->
  main printable py_int lower isdigit data stdin = Main_exit 1.
Proof.
  intros Hlen. unfold main.
  destruct (SaveGame.from_file data) as [sg |] eqn:Hf; [| reflexivity].
  rewrite from_file_windows in Hf.
  destruct (unpack_from Fmt_i data 16) as [off |]; [| discriminate Hf].
  cbn [bind] in Hf. destruct (traverse _ _) as [hs |]; [| discriminate Hf].
  cbn [bind] in Hf. apply Ok_inj in Hf. subst sg. cbn [SaveGame.metadata].
  assert (Hn : nth_error (getslice data 20 30) 1 = None).
  { apply nth_error_None. unfold getslice, slice_index.
    rewrite length_firstn, length_skipn.
    destruct (Z.ltb_spec 20 0), (Z.ltb_spec 30 0); lia. }
  now rewrite Hn.
Qed.

End EditorProperties.

(** ** Saving at once, and sample sessions *)

Lemma from_bytes_name (B : bytes) (h : Hero.t) :
  Hero.from_bytes B = Ok h -> Hero.name h = record_name B.
Proof.
  unfold Hero.from_bytes.
  destruct (length B <? CHR_SIZE)%nat eqn:Hg; [discriminate |].
  apply Nat.ltb_ge in Hg. unfold CHR_SIZE in Hg.
  rewrite !unpack_from_ok by (cbn [calcsize]; lia).
  rewrite !bind_Ok. intros H. apply Ok_inj in H. subst h. reflexivity.
Qed.

Lemma Forall2_nth_error_decoded (ws : list bytes) (hs : list Hero.t)
      (i : nat) (h : Hero.t) :
  Forall2 (fun w h => length w = CHR_SIZE /\ Hero.from_bytes w = Ok h) ws hs ->
  nth_error hs i = Some h ->
  exists w, In w ws /\ Hero.from_bytes w = Ok h.
Proof.
  intros H. revert i. induction H as [| w a ws hs [_ Hw] _ IH]; intros i Hi.
  - destruct i; discriminate Hi.
  - destruct i as [| i].
    + cbn in Hi. injection Hi as ->. exists w. split; [now left | exact Hw].
    + cbn [nth_error] in Hi. destruct (IH i Hi) as (w' & Hin & Hw').
      exists w'. split; [now right | exact Hw'].
Qed.

Section SaveAtOnce.

Variable printable : pystr -> bool.
Variable py_int : pystr -> option Z.
Variable lower : pystr -> pystr.
Variable isdigit : pystr -> bool.

(** The heroes of the active group are listed without error when standard
    output can encode their names. *)
Lemma list_heroes_printable (ws : list bytes) (hs : list Hero.t) (g : Z) :
  Forall2 (fun w h => length w = CHR_SIZE /\ Hero.from_bytes w = Ok h) ws hs ->
  forallb (fun w => negb (getitem w 135 =? g) || printable (record_name w)) ws
  = true ->
  list_heroes printable hs (active_positions g hs) = true.
Proof.
  intros H2 Hp. unfold list_heroes. apply forallb_forall. intros i Hi.
  destruct (active_positions_in g hs i Hi) as (h & Hh & Hg). rewrite Hh.
  destruct (Forall2_nth_error_decoded ws hs i h H2 Hh) as (w & Hin & Hw).
  rewrite forallb_forall in Hp. specialize (Hp w Hin).
  rewrite (from_bytes_name w h Hw).
  rewrite <- (from_bytes_group w h Hw), Hg, Z.eqb_refl in Hp. exact Hp.
Qed.

(** X11: on a file of at least 22 bytes whose [chr_offset] lies between 20
    and its length, whose bytes after [chr_offset] are a whole number of
    records and whose records have null-padded name fields, when standard
    output can encode the name of every hero of the active group,
    answering the first prompt with a line that lower-cases to [save] makes
    [main] write a copy of the input file, byte for byte. *)
Theorem main_save_unedited (data : bytes) (off : Z) (s : pystr)
        (rest : list keyboard) :
  unpack_from Fmt_i data 16 = Ok off ->
  20 <= off <= Z.of_nat (length data) ->
  (22 <= length data)%nat ->
  (Z.of_nat (length data) - off) mod Z.of_nat CHR_SIZE = 0 ->
  forallb names_padded
    (map (record_at data (Z.to_nat off))
         (seq 0 (Z.to_nat ((Z.of_nat (length data) - off)
                           / Z.of_nat CHR_SIZE)))) = true ->
  forallb (fun w => negb (getitem w 135 =? Z_of_byte (nth 21 data x00))
                    || printable (record_name w))
    (map (record_at data (Z.to_nat off))
         (seq 0 (Z.to_nat ((Z.of_nat (length data) - off)
                           / Z.of_nat CHR_SIZE)))) = true ->
  lower s = str_save ->
  main printable py_int lower isdigit data (Line s :: rest) = Main_saved data.
Proof.
  intros Hu Hoff Hlen Hrem Hpad Hprint Hs.
  destruct (save_after_load_padded data off Hu Hoff Hrem Hpad)
    as (hs & Hf & Hsave).
  destruct (from_file_inside data off (Z.to_nat off) Hu ltac:(lia) ltac:(lia))
    as (hs' & Hf' & H2).
  assert (hs' = hs).
  { rewrite Hf in Hf'. apply Ok_inj in Hf'.
    now apply (f_equal SaveGame.heroes) in Hf'. }
  subst hs'.
  unfold main. rewrite Hf. cbn [SaveGame.metadata SaveGame.heroes
    SaveGame.version_header SaveGame.chr_offset SaveGame.pre_hero_data].
  destruct (nth_error (getslice data 20 30) 1) as [b |] eqn:Hb.
  - apply metadata_group in Hb. rewrite Hb in Hprint.
    rewrite (list_heroes_printable _ hs (Z_of_byte b) H2 Hprint).
    cbn [negb select_loop length]. rewrite Hs.
    change (pystr_eqb str_save str_exit) with false.
    change (pystr_eqb str_save str_save) with true.
    cbn iota. rewrite Hsave. reflexivity.
  - exfalso. apply nth_error_None in Hb. revert Hb.
    unfold getslice, slice_index.
    rewrite length_firstn, length_skipn. cbn. lia.
Qed.

End SaveAtOnce.

Lemma main_save_unedited_witness :
  main ascii_printable ascii_int ascii_lower ascii_isdigit party_file
       [Line [83%N; 65%N; 86%N; 69%N]; CtrlC]
  = Main_saved party_file.
Proof.
  apply (main_save_unedited ascii_printable ascii_int ascii_lower ascii_isdigit
           party_file 30 [83%N; 65%N; 86%N; 69%N] [CtrlC]).
  - reflexivity.
  - vm_compute. split; discriminate.
  - apply Nat.leb_le. vm_compute. reflexivity.
  - reflexivity.
  - vm_compute. reflexivity.
  - vm_compute. reflexivity.
  - reflexivity.
Defined.

Lemma edit_hero_changes_only_editable_witness :
  (exists lv e m vc vm ac am,
      Hero.set_level (Hero.set_exp (blank_hero [] [] [] []) 500) 9
      = Hero.with_editable (blank_hero [] [] [] []) lv e m vc vm ac am)
  /\ (length [Line str_save] < length (tl party_session))%nat.
Proof.
  apply (edit_hero_changes_only_editable ascii_printable ascii_int
           (tl party_session) (blank_hero [] [] [] [])
           (Hero.set_level (Hero.set_exp (blank_hero [] [] [] []) 500) 9)
           [Line str_save]).
  reflexivity.
Defined.

Lemma main_changes_only_editable_witness :
  exists written,
    main ascii_printable ascii_int ascii_lower ascii_isdigit party_file party_session
    = Main_saved written
    /\ exists outs,
        written = firstn 30 party_file ++ concat outs
        /\ Forall2
             (fun w out =>
                length out = CHR_SIZE
                /\ (forall j, editable_offset j = false ->
                               nth_error out j = nth_error (canonical w) j)
                /\ (getitem w 135 <> Z_of_byte (nth 21 party_file x00) ->
                    out = canonical w))
             (map (record_at party_file 30) (seq 0 2)) outs.
Proof.
  destruct (main ascii_printable ascii_int ascii_lower ascii_isdigit party_file party_session)
    as [written | code |] eqn:E;
    [| vm_compute in E; discriminate E | vm_compute in E; discriminate E].
  exists written. split; [reflexivity |].
  apply (main_changes_only_editable ascii_printable ascii_int ascii_lower ascii_isdigit
           party_file 30 party_session written).
  - reflexivity.
  - vm_compute. split; discriminate.
  - exact E.
Defined.

Lemma main_short_file_witness :
  main ascii_printable ascii_int ascii_lower ascii_isdigit (repeat x00 21) [Line str_save]
  = Main_exit 1.
Proof.
  apply (main_short_file ascii_printable ascii_int ascii_lower ascii_isdigit).
  cbn. lia.
Defined.

(** A hero of the active group whose name standard output cannot encode:
    listing the heroes raises, and [main] exits with code 1 before it reads
    any input. *)
Example main_unprintable_name :
  main ascii_printable ascii_int ascii_lower ascii_isdigit
       (repeat x00 16 ++ [x1e; x00; x00; x00] ++ [x00; x02] ++ repeat x00 8
        ++ group_record xe9 x02)
       [Line str_save]
  = Main_exit 1.
Proof. vm_compute. reflexivity. Qed.
